(** * PTraceSandbox: a shallow embedding of the ptrace-based Linux sandbox

    Source: Public/Src/Sandbox/Linux/PTraceSandbox.cpp and PTraceSandbox.hpp.

    The tracer is single threaded; every handler is a sequence of reads of the
    stopped tracee (registers, memory), of queries to the observer
    ([BxlObserver], the event sink) and of reports pushed to it.  The tracee
    and the observer are not part of the source: they are taken as records
    of oracles, and what a handler does to them is recorded in an output
    log.  Machine integers are [Z] with the conversions of the x86_64 ABI
    written out. *)

From Stdlib Require Import ZArith String Ascii List Bool Lia DecimalString.
Import ListNotations.
Local Open Scope string_scope.
Local Open Scope list_scope.
Local Open Scope Z_scope.

(** ** Machine integers and the constants of the Linux x86_64 headers *)

Module Abi.

(** Conversions between the integer types the source uses. *)
Definition to_ulong (z : Z) : Z := z mod 2 ^ 64.
Definition to_long (z : Z) : Z := (z + 2 ^ 63) mod 2 ^ 64 - 2 ^ 63.
Definition to_uint (z : Z) : Z := z mod 2 ^ 32.
Definition to_int (z : Z) : Z := (z + 2 ^ 31) mod 2 ^ 32 - 2 ^ 31.

(** C truth value of an integer, and the integer of a comparison. *)
Definition c_true (z : Z) : bool := negb (z =? 0).
Definition c_eq (a b : Z) : Z := if a =? b then 1 else 0.

Definition sizeof_long : Z := 8.
Definition PATH_MAX : Z := 4096.

(** <fcntl.h> *)
Definition O_ACCMODE : Z := 3.
Definition O_RDONLY : Z := 0.
Definition O_WRONLY : Z := 1.
Definition O_RDWR : Z := 2.
Definition O_CREAT : Z := 64.        (* 0100 *)
Definition O_TRUNC : Z := 512.       (* 01000 *)
Definition O_NOFOLLOW : Z := 131072. (* 0400000 *)
Definition AT_FDCWD : Z := -100.
Definition AT_SYMLINK_NOFOLLOW : Z := 256. (* 0x100 *)
Definition AT_REMOVEDIR : Z := 512.        (* 0x200 *)
Definition AT_SYMLINK_FOLLOW : Z := 1024.  (* 0x400 *)

(** <sys/stat.h> *)
Definition S_IFMT : Z := 61440.  (* 0170000 *)
Definition S_IFDIR : Z := 16384. (* 0040000 *)
Definition S_IFREG : Z := 32768. (* 0100000 *)
Definition S_IFLNK : Z := 40960. (* 0120000 *)
Definition S_ISDIR (m : Z) : bool := Z.land m S_IFMT =? S_IFDIR.

(** <sys/reg.h>: indices of the user area, in words. *)
Definition R10 : Z := 7.
Definition R9 : Z := 8.
Definition R8 : Z := 9.
Definition RAX : Z := 10.
Definition RDX : Z := 12.
Definition RSI : Z := 13.
Definition RDI : Z := 14.
Definition ORIG_RAX : Z := 15.

(** <signal.h>, <sys/ptrace.h>, <sys/wait.h> *)
Definition SIGTRAP : Z := 5.
Definition PTRACE_EVENT_FORK : Z := 1.
Definition PTRACE_EVENT_VFORK : Z := 2.
Definition PTRACE_EVENT_CLONE : Z := 3.
Definition PTRACE_EVENT_EXIT : Z := 6.
Definition PTRACE_EVENT_SECCOMP : Z := 7.
Definition WIFEXITED (status : Z) : bool := Z.land status 127 =? 0.
Definition WIFSIGNALED (status : Z) : bool :=
  0 <? Z.shiftr ((Z.land status 127 + 1 + 128) mod 256 - 128) 1. (* (signed char) *)
Definition WIFSTOPPED (status : Z) : bool := Z.land status 255 =? 127.
Definition WSTOPSIG (status : Z) : Z := Z.shiftr (Z.land status 65280) 8.

(** <linux/seccomp.h> *)
Definition SECCOMP_RET_TRACE : Z := 2146435072. (* 0x7ff00000 *)
Definition SECCOMP_RET_ALLOW : Z := 2147418112. (* 0x7fff0000 *)

(** arch/x86/entry/syscalls/syscall_64.tbl *)
Definition __NR_write : Z := 1.
Definition __NR_open : Z := 2.
Definition __NR_stat : Z := 4.
Definition __NR_fstat : Z := 5.
Definition __NR_lstat : Z := 6.
Definition __NR_pwrite64 : Z := 18.
Definition __NR_writev : Z := 20.
Definition __NR_access : Z := 21.
Definition __NR_sendfile : Z := 40.
Definition __NR_clone : Z := 56.
Definition __NR_fork : Z := 57.
Definition __NR_vfork : Z := 58.
Definition __NR_execve : Z := 59.
Definition __NR_truncate : Z := 76.
Definition __NR_ftruncate : Z := 77.
Definition __NR_rename : Z := 82.
Definition __NR_mkdir : Z := 83.
Definition __NR_rmdir : Z := 84.
Definition __NR_creat : Z := 85.
Definition __NR_link : Z := 86.
Definition __NR_unlink : Z := 87.
Definition __NR_symlink : Z := 88.
Definition __NR_readlink : Z := 89.
Definition __NR_chmod : Z := 90.
Definition __NR_fchmod : Z := 91.
Definition __NR_chown : Z := 92.
Definition __NR_fchown : Z := 93.
Definition __NR_lchown : Z := 94.
Definition __NR_utime : Z := 132.
Definition __NR_mknod : Z := 133.
Definition __NR_utimes : Z := 235.
Definition __NR_openat : Z := 257.
Definition __NR_mkdirat : Z := 258.
Definition __NR_mknodat : Z := 259.
Definition __NR_fchownat : Z := 260.
Definition __NR_futimesat : Z := 261.
Definition __NR_newfstatat : Z := 262.
Definition __NR_unlinkat : Z := 263.
Definition __NR_renameat : Z := 264.
Definition __NR_linkat : Z := 265.
Definition __NR_symlinkat : Z := 266.
Definition __NR_readlinkat : Z := 267.
Definition __NR_fchmodat : Z := 268.
Definition __NR_faccessat : Z := 269.
Definition __NR_utimensat : Z := 280.
Definition __NR_pwritev : Z := 296.
Definition __NR_name_to_handle_at : Z := 303.
Definition __NR_renameat2 : Z := 316.
Definition __NR_execveat : Z := 322.
Definition __NR_copy_file_range : Z := 326.
Definition __NR_pwritev2 : Z := 328.

End Abi.
Import Abi.

(** ** Syscall names

    The tokens handed to the macros [TRACE_SYSCALL], [HANDLER_FUNCTION] and
    [CHECK_AND_CALL_HANDLER]; the [_NEW] variants paste [new] in front of
    [fstatat]. *)

Module Sys.

Inductive name : Type :=
| execveat | execve | stat | lstat | fstat | newfstatat | access | faccessat
| creat | open | openat | write | writev | pwritev | pwritev2 | pwrite64 | truncate
| ftruncate | rmdir | rename | renameat | renameat2 | link | linkat | unlink
| unlinkat | symlink | symlinkat | readlink | readlinkat | utime | utimes
| utimensat | futimesat | mkdir | mkdirat | mknod | mknodat | chmod | fchmod
| fchmodat | chown | fchown | lchown | fchownat | sendfile | copy_file_range
| name_to_handle_at | fork | clone.

(** The macro [SYSCALL_NAME_TO_NUMBER(name)], that is [__NR_##name]. *)
Definition SYSCALL_NAME_TO_NUMBER (n : name) : Z :=
  match n with
  | execveat => __NR_execveat
  | execve => __NR_execve
  | stat => __NR_stat
  | lstat => __NR_lstat
  | fstat => __NR_fstat
  | newfstatat => __NR_newfstatat
  | access => __NR_access
  | faccessat => __NR_faccessat
  | creat => __NR_creat
  | open => __NR_open
  | openat => __NR_openat
  | write => __NR_write
  | writev => __NR_writev
  | pwritev => __NR_pwritev
  | pwritev2 => __NR_pwritev2
  | pwrite64 => __NR_pwrite64
  | truncate => __NR_truncate
  | ftruncate => __NR_ftruncate
  | rmdir => __NR_rmdir
  | rename => __NR_rename
  | renameat => __NR_renameat
  | renameat2 => __NR_renameat2
  | link => __NR_link
  | linkat => __NR_linkat
  | unlink => __NR_unlink
  | unlinkat => __NR_unlinkat
  | symlink => __NR_symlink
  | symlinkat => __NR_symlinkat
  | readlink => __NR_readlink
  | readlinkat => __NR_readlinkat
  | utime => __NR_utime
  | utimes => __NR_utimes
  | utimensat => __NR_utimensat
  | futimesat => __NR_futimesat
  | mkdir => __NR_mkdir
  | mkdirat => __NR_mkdirat
  | mknod => __NR_mknod
  | mknodat => __NR_mknodat
  | chmod => __NR_chmod
  | fchmod => __NR_fchmod
  | fchmodat => __NR_fchmodat
  | chown => __NR_chown
  | fchown => __NR_fchown
  | lchown => __NR_lchown
  | fchownat => __NR_fchownat
  | sendfile => __NR_sendfile
  | copy_file_range => __NR_copy_file_range
  | name_to_handle_at => __NR_name_to_handle_at
  | fork => __NR_fork
  | clone => __NR_clone
  end.

End Sys.

(** ** The seccomp filter built by [ExecuteWithPTraceSandbox]

    The three shapes of [sock_filter] the source uses, and the evaluation of a
    classic BPF program on the [nr] field of [seccomp_data]. *)

Module Seccomp.

Inductive sock_filter : Type :=
| BPF_LD_W_ABS (offset : Z)              (* BPF_STMT(BPF_LD+BPF_W+BPF_ABS, k) *)
| BPF_JMP_JEQ_K (k : Z) (jt jf : nat)    (* BPF_JUMP(BPF_JMP+BPF_JEQ+BPF_K, k, jt, jf) *)
| BPF_RET_K (k : Z).                     (* BPF_STMT(BPF_RET+BPF_K, k) *)

(** [seccomp_data]: only [nr], at offset 0, is ever loaded. *)
Record seccomp_data : Type := { nr : Z; arch : Z }.
Definition offsetof_nr : Z := 0.
Definition load_word (d : seccomp_data) (offset : Z) : Z :=
  if offset =? 0 then to_uint (nr d) else if offset =? 4 then arch d else 0.

(** The macro [TRACE_SYSCALL(name)]. *)
Definition TRACE_SYSCALL (name : Sys.name) : list sock_filter :=
  [ BPF_JMP_JEQ_K (Sys.SYSCALL_NAME_TO_NUMBER name) 0 1;
    BPF_RET_K SECCOMP_RET_TRACE ].

Definition filter : list sock_filter :=
  [ BPF_LD_W_ABS offsetof_nr ]
  ++ TRACE_SYSCALL Sys.execveat
  ++ TRACE_SYSCALL Sys.execve
  ++ TRACE_SYSCALL Sys.stat
  ++ TRACE_SYSCALL Sys.lstat
  ++ TRACE_SYSCALL Sys.fstat
  ++ TRACE_SYSCALL Sys.newfstatat
  ++ TRACE_SYSCALL Sys.access
  ++ TRACE_SYSCALL Sys.faccessat
  ++ TRACE_SYSCALL Sys.creat
  ++ TRACE_SYSCALL Sys.open
  ++ TRACE_SYSCALL Sys.openat
  ++ TRACE_SYSCALL Sys.write
  ++ TRACE_SYSCALL Sys.writev
  ++ TRACE_SYSCALL Sys.pwritev
  ++ TRACE_SYSCALL Sys.pwritev2
  ++ TRACE_SYSCALL Sys.pwrite64
  ++ TRACE_SYSCALL Sys.truncate
  ++ TRACE_SYSCALL Sys.ftruncate
  ++ TRACE_SYSCALL Sys.rmdir
  ++ TRACE_SYSCALL Sys.rename
  ++ TRACE_SYSCALL Sys.renameat
  ++ TRACE_SYSCALL Sys.renameat2
  ++ TRACE_SYSCALL Sys.link
  ++ TRACE_SYSCALL Sys.linkat
  ++ TRACE_SYSCALL Sys.unlink
  ++ TRACE_SYSCALL Sys.unlinkat
  ++ TRACE_SYSCALL Sys.symlink
  ++ TRACE_SYSCALL Sys.symlinkat
  ++ TRACE_SYSCALL Sys.readlink
  ++ TRACE_SYSCALL Sys.readlinkat
  ++ TRACE_SYSCALL Sys.utime
  ++ TRACE_SYSCALL Sys.utimes
  ++ TRACE_SYSCALL Sys.utimensat
  ++ TRACE_SYSCALL Sys.futimesat
  ++ TRACE_SYSCALL Sys.mkdir
  ++ TRACE_SYSCALL Sys.mkdirat
  ++ TRACE_SYSCALL Sys.mknod
  ++ TRACE_SYSCALL Sys.mknodat
  ++ TRACE_SYSCALL Sys.chmod
  ++ TRACE_SYSCALL Sys.fchmod
  ++ TRACE_SYSCALL Sys.fchmodat
  ++ TRACE_SYSCALL Sys.chown
  ++ TRACE_SYSCALL Sys.fchown
  ++ TRACE_SYSCALL Sys.lchown
  ++ TRACE_SYSCALL Sys.fchownat
  ++ TRACE_SYSCALL Sys.sendfile
  ++ TRACE_SYSCALL Sys.copy_file_range
  ++ TRACE_SYSCALL Sys.name_to_handle_at
  ++ TRACE_SYSCALL Sys.fork
  ++ TRACE_SYSCALL Sys.clone
  ++ [ BPF_RET_K SECCOMP_RET_ALLOW ].

(** Evaluation of a classic BPF program: [A] is the accumulator, [pc] the
    index of the next instruction; a jump adds its offset to the index of
    the following instruction.  Every step moves [pc] forward, so the length
    of the program bounds the number of steps.  Running off the end (which
    the kernel rejects at installation) is [None]. *)
Fixpoint bpf_run (fuel : nat) (prog : list sock_filter) (pc : nat) (A : Z)
         (d : seccomp_data) : option Z :=
  match fuel with
  | O => None
  | S fuel' =>
      match nth_error prog pc with
      | None => None
      | Some (BPF_LD_W_ABS off) => bpf_run fuel' prog (S pc) (load_word d off) d
      | Some (BPF_JMP_JEQ_K k jt jf) =>
          bpf_run fuel' prog (S pc + (if A =? k then jt else jf)) A d
      | Some (BPF_RET_K k) => Some k
      end
  end.

Definition run_filter (prog : list sock_filter) (d : seccomp_data) : option Z :=
  bpf_run (length prog) prog 0 0 d.

(** The decision of the installed classifier for a syscall number. *)
Definition classify (number : Z) : option Z :=
  run_filter filter {| nr := number; arch := 0 |}.

Definition surfaced (number : Z) : bool :=
  match classify number with
  | Some r => r =? SECCOMP_RET_TRACE
  | None => false
  end.

End Seccomp.

(** ** Events, the observer and the stopped tracee *)

Inductive es_event_type : Type :=
| ES_EVENT_TYPE_NOTIFY_OPEN
| ES_EVENT_TYPE_NOTIFY_WRITE
| ES_EVENT_TYPE_NOTIFY_CREATE
| ES_EVENT_TYPE_NOTIFY_STAT
| ES_EVENT_TYPE_NOTIFY_ACCESS
| ES_EVENT_TYPE_NOTIFY_UNLINK
| ES_EVENT_TYPE_NOTIFY_LINK
| ES_EVENT_TYPE_NOTIFY_READLINK
| ES_EVENT_TYPE_NOTIFY_SETTIME
| ES_EVENT_TYPE_NOTIFY_SETMODE
| ES_EVENT_TYPE_NOTIFY_FORK
| ES_EVENT_TYPE_AUTH_SETOWNER.

Inductive es_action_type : Type := ES_ACTION_TYPE_NOTIFY.

(** The arguments of the [IOEvent] constructor, in its order. *)
Record IOEvent : Type := mkIOEvent {
  ev_pid : Z;
  ev_cpid : Z;
  ev_ppid : Z;
  ev_type : es_event_type;
  ev_action : es_action_type;
  ev_src : string;
  ev_dst : string;
  ev_executable : string;
  ev_mode : Z;
  ev_modified : bool;
  ev_error : Z
}.

(** What the tracer does to the outside: the calls on [m_bxl] that report, and
    the requests that resume the tracee.  The overloads of [report_access] are
    told apart by their argument lists. *)
Inductive Action : Type :=
| report_access (syscall : string) (event : es_event_type) (path : string)
    (mode oflags error : Z) (checkCache : bool) (pid : Z)
| report_access_paths (syscall : string) (event : es_event_type) (path secondPath : string)
    (mode error : Z) (checkCache : bool) (pid : Z)
| report_access_event (syscall : string) (event : IOEvent) (checkCache : bool)
| report_access_at (syscall : string) (event : es_event_type) (dirfd : Z) (pathname : string)
    (oflags : Z) (getModeWithFd : bool) (pid : Z) (error : Z)
| report_exec (syscall procName file : string) (error mode pid : Z)
| report_exec_args (pid : Z) (args : string)
| SendExitReport (pid : Z)
| disable_fd_table
| PTRACE_SYSCALL (pid sig : Z)
| PTRACE_CONT (pid : Z)
| PTRACE_GETEVENTMSG (pid : Z)
| waitpid (pid : Z)
| sem_post (name : string)
| BXL_LOG_DEBUG_unsupported_syscall (syscallNumber : Z).

(** The queries the handlers make to the observer.  Its code is outside the
    source; every query is an oracle. *)
Record BxlObserver : Type := {
  get_mode : string -> Z;
  normalize_path : string -> Z -> Z -> string;
  normalize_path_at : Z -> string -> Z -> Z -> string;
  fd_to_path : Z -> Z -> string;
  EnumerateDirectory : string -> bool -> bool * list string;
  GetProgramPath : string;
  IsReportingProcessArgs : bool
}.

(** The stopped tracee as ptrace shows it.  [peekuser n off] is the word of the
    user area at byte offset [off] once the handler has resumed and waited [n]
    times; [wait_status n] is the status stored by the [n]-th of these waits;
    [peektext a] is the result of PTRACE_PEEKTEXT at address [a], which is -1
    both for a fault and for a word of all ones. *)
Record Tracee : Type := {
  peekuser : nat -> Z -> Z;
  peektext : Z -> Z;
  wait_status : nat -> Z
}.

(** The fields of [user_regs_struct] that [ArgumentIndexToRegister] reads. *)
Record user_regs_struct : Type := {
  rax : Z; rdi : Z; rsi : Z; rdx : Z; r10 : Z; r8 : Z; r9 : Z
}.

(** ** The tracer object and the monad of its member functions *)

Record PTraceSandbox : Type := mkSandbox {
  m_traceePid : Z;
  m_traceeTable : list (Z * string);   (* tracee pid, tracee exe path *)
  stops : nat;                           (* resume-and-wait rounds of the current handler *)
  out : list Action
}.

(** A member function either runs to its end on a state or does not finish
    within the fuel given to its loops ([None]). *)
Definition M (A : Type) : Type := PTraceSandbox -> option (A * PTraceSandbox).

Definition ret {A : Type} (a : A) : M A := fun s => Some (a, s).
Definition bind {A B : Type} (m : M A) (k : A -> M B) : M B :=
  fun s => match m s with
           | Some (a, s') => k a s'
           | None => None
           end.
Definition gets {A : Type} (f : PTraceSandbox -> A) : M A := fun s => Some (f s, s).
Definition lift {A : Type} (o : option A) : M A :=
  fun s => match o with Some a => Some (a, s) | None => None end.
Definition emit (a : Action) : M unit :=
  fun s => Some (tt, mkSandbox (m_traceePid s) (m_traceeTable s) (stops s) (out s ++ [a])).
Definition set_table (t : list (Z * string)) : M unit :=
  fun s => Some (tt, mkSandbox (m_traceePid s) t (stops s) (out s)).
Definition set_pid (pid : Z) : M unit :=
  fun s => Some (tt, mkSandbox pid (m_traceeTable s) (stops s) (out s)).
Definition reset_stops : M unit :=
  fun s => Some (tt, mkSandbox (m_traceePid s) (m_traceeTable s) O (out s)).
Definition next_stop : M unit :=
  fun s => Some (tt, mkSandbox (m_traceePid s) (m_traceeTable s) (S (stops s)) (out s)).

Declare Scope tracer_scope.
Delimit Scope tracer_scope with tracer.
Notation "x <- c ;; k" := (bind c (fun x => k))
  (at level 61, c at next level, right associativity) : tracer_scope.
Notation "c ;; k" := (bind c (fun _ => k))
  (at level 61, right associativity) : tracer_scope.
Local Open Scope tracer_scope.

Fixpoint for_each {A : Type} (l : list A) (body : A -> M unit) : M unit :=
  match l with
  | [] => ret tt
  | x :: rest => body x ;; for_each rest body
  end.

(** ** Strings as [std::string] uses them *)

(** [s.push_back(c)]. *)
Definition push_back (s : string) (c : ascii) : string := s ++ String c "".

(** [s[0]]: the first character, or the terminating NUL of an empty string. *)
Definition front (s : string) : ascii :=
  match s with
  | EmptyString => zero
  | String c _ => c
  end.

(** [s.replace(pos, len, str)] for [pos = 0]: the first [min len s.length()]
    characters are dropped and [str] is put in their place. *)
Fixpoint drop (n : nat) (s : string) : string :=
  match n, s with
  | O, _ => s
  | S _, EmptyString => EmptyString
  | S n', String _ rest => drop n' rest
  end.
Definition replace0 (len : nat) (str s : string) : string := str ++ drop len s.

(** Byte [i] of a machine word in memory order (little endian). *)
Definition byte_of_word (word : Z) (i : nat) : ascii :=
  ascii_of_N (Z.to_N (Z.land (Z.shiftr word (8 * Z.of_nat i)) 255)).

(** ** The member functions of [PTraceSandbox] *)

Section Tracer.

Variable bxl : BxlObserver.
Variable tracee : Tracee.
(** Bound on the iterations of each [while (true)] loop of the readers. *)
Variable fuel : nat.
(** [basename] of libc. *)
Variable basename : string -> string.

(** *** Argument decoding *)

Definition GetArgumentAddr (index : Z) : Z :=
  let addr := sizeof_long in
  if index =? 0 then addr * RAX          (* Return value *)
  else if index =? 1 then addr * RDI
  else if index =? 2 then addr * RSI
  else if index =? 3 then addr * RDX
  else if index =? 4 then addr * R10
  else if index =? 5 then addr * R8
  else if index =? 6 then addr * R9
  else 0.

Definition ArgumentIndexToRegister (index : Z) (regs : user_regs_struct) : Z :=
  if index =? 0 then rax regs            (* Return value *)
  else if index =? 1 then rdi regs
  else if index =? 2 then rsi regs
  else if index =? 3 then rdx regs
  else if index =? 4 then r10 regs
  else if index =? 5 then r8 regs
  else if index =? 6 then r9 regs
  else 0.

(** PTRACE_GETREGS: the registers are the first words of the user area. *)
Definition getregs (n : nat) : user_regs_struct :=
  let reg r := to_ulong (peekuser tracee n (sizeof_long * r)) in
  {| rax := reg RAX; rdi := reg RDI; rsi := reg RSI; rdx := reg RDX;
     r10 := reg R10; r8 := reg R8; r9 := reg R9 |}.

(** The [for] loop over the bytes of one peeked word: [n] iterations are
    left, [i] is the index of the next byte.  The result is the string, the
    count and [finishedReadingArgument].  [currentStringLength] is an [int];
    its increment wraps. *)
Fixpoint read_word (n i : nat) (word : Z) (nullTerminated : bool) (length : Z)
         (argument : string) (currentStringLength : Z) : string * Z * bool :=
  match n with
  | O => (argument, currentStringLength, false)
  | S n' =>
      let c := byte_of_word word i in
      if (nullTerminated && Ascii.eqb c zero)
         || ((0 <? length) && (currentStringLength =? length))
      then (argument, currentStringLength, true)
      else read_word n' (S i) word nullTerminated length
                     (push_back argument c) (to_int (currentStringLength + 1))
  end.

(** The [while (true)] loop of [ReadArgumentStringAtAddr]. *)
Fixpoint ReadArgumentStringAtAddr_loop (steps : nat) (addr : Z) (nullTerminated : bool)
         (length : Z) (argument : string) (currentStringLength : Z) : option string :=
  match steps with
  | O => None
  | S steps' =>
      let addrMemoryLocation := peektext tracee addr in
      if addrMemoryLocation =? -1 then Some argument
      else
        let addr' := to_ulong (addr + sizeof_long) in
        match read_word 8 0 addrMemoryLocation nullTerminated length
                        argument currentStringLength with
        | (argument', currentStringLength', finishedReadingArgument) =>
            if finishedReadingArgument then Some argument'
            else ReadArgumentStringAtAddr_loop steps' addr' nullTerminated length
                                               argument' currentStringLength'
        end
  end.

Definition ReadArgumentStringAtAddr (syscall : string) (addr : Z)
           (nullTerminated : bool) (length : Z) : option string :=
  ReadArgumentStringAtAddr_loop fuel addr nullTerminated length "" 0.

Definition ReadArgumentLong (argumentIndex : Z) : M Z :=
  n <- gets stops ;;
  ret (to_ulong (peekuser tracee n (GetArgumentAddr argumentIndex))).

Definition ReadArgumentString (syscall : string) (argumentIndex : Z)
           (nullTerminated : bool) (length : Z) : M string :=
  n <- gets stops ;;
  let addrRegValue := to_ulong (peekuser tracee n (GetArgumentAddr argumentIndex)) in
  lift (ReadArgumentStringAtAddr syscall addrRegValue nullTerminated length).

(** The loop of [ReadArgumentVector] over the pointers of argv. *)
Fixpoint ReadArgumentVector_loop (steps : nat) (syscall : string) (addr : Z)
         (firstArgument : bool) (arguments : string) : option string :=
  match steps with
  | O => None
  | S steps' =>
      let argPtr := peektext tracee addr in
      if argPtr =? -1 then Some arguments
      else if argPtr =? 0 then Some arguments      (* End of the argv array *)
      else
        match ReadArgumentStringAtAddr syscall (to_ulong argPtr) true 0 with
        | None => None
        | Some arg =>
            ReadArgumentVector_loop steps' syscall (to_ulong (addr + 8)) false
              (arguments ++ ((if negb firstArgument then " " else "") ++ arg))
        end
  end.

Definition ReadArgumentVector (syscall : string) (argumentIndex : Z) : M string :=
  n <- gets stops ;;
  let addr := ArgumentIndexToRegister argumentIndex (getregs n) in
  lift (ReadArgumentVector_loop fuel syscall addr true "").

(** [ptrace(PTRACE_SYSCALL, m_traceePid, NULL, NULL); waitpid(m_traceePid, &status, 0);]
    The value is [status]. *)
Definition resume_and_wait : M Z :=
  pid <- gets m_traceePid ;;
  emit (PTRACE_SYSCALL pid 0) ;;
  emit (waitpid pid) ;;
  next_stop ;;
  n <- gets stops ;;
  ret (wait_status tracee n).

(** [0xffffffffffffffffUL - returnValue] is computed in [unsigned long] and
    the result of the conditional is converted to the [int] returned. *)
Definition GetErrno : M Z :=
  r <- ReadArgumentLong 0 ;;
  let returnValue := to_long r in
  ret (to_int (if returnValue =? 0 then 0
               else to_ulong (18446744073709551615 - to_ulong returnValue))).

(** *** Reports shared by several handlers *)

(** In [isWrite], [==] binds tighter than [&]: the operands of [||] are
    [oflag & (O_ACCMODE == O_WRONLY)] and [oflag & (O_ACCMODE == O_RDWR)]. *)
Definition ReportOpen (path : string) (oflag : Z) (syscallName : string) : M unit :=
  let pathMode := get_mode bxl path in
  let pathExists := negb (pathMode =? 0) in
  let isCreate := negb pathExists && c_true (Z.land oflag (Z.lor O_CREAT O_TRUNC)) in
  let isWrite :=
    pathExists
    && (c_true (Z.land oflag (Z.lor O_CREAT O_TRUNC))
        && (c_true (Z.land oflag (c_eq O_ACCMODE O_WRONLY))
            || c_true (Z.land oflag (c_eq O_ACCMODE O_RDWR)))) in
  pid <- gets m_traceePid ;;
  let event :=
    mkIOEvent pid 0 0
      (if isCreate then ES_EVENT_TYPE_NOTIFY_CREATE
       else if isWrite then ES_EVENT_TYPE_NOTIFY_WRITE
       else ES_EVENT_TYPE_NOTIFY_OPEN)
      ES_ACTION_TYPE_NOTIFY path "" (GetProgramPath bxl) pathMode false 0 in
  emit (report_access_event syscallName event true).

Definition ReportCreate (syscallName : string) (dirfd : Z) (pathname : string)
           (mode : Z) (returnValue : Z) (checkCache : bool) : M unit :=
  pid <- gets m_traceePid ;;
  let event :=
    mkIOEvent pid 0 0 ES_EVENT_TYPE_NOTIFY_CREATE ES_ACTION_TYPE_NOTIFY
      (normalize_path_at bxl dirfd pathname 0 pid) "" (GetProgramPath bxl)
      mode false returnValue in
  emit (report_access_event syscallName event checkCache).

Definition HandleReportAccessFd (syscall : string) (fd : Z) (event : es_event_type) : M unit :=
  pid <- gets m_traceePid ;;
  let path := fd_to_path bxl fd pid in
  if Ascii.eqb (front path) "/"%char
  then emit (report_access_paths syscall event path "" 0 0 true pid)
  else ret tt.

(** *** The process table *)

(** [std::find_if] on the pid: the index of the first entry of the pid, or
    [None] for [m_traceeTable.end()]. *)
Fixpoint find_index (pid : Z) (table : list (Z * string)) (i : nat) : option nat :=
  match table with
  | [] => None
  | item :: rest => if fst item =? pid then Some i else find_index pid rest (S i)
  end.
Definition FindProcess (pid : Z) : M (option nat) :=
  table <- gets m_traceeTable ;; ret (find_index pid table 0).

(** Assignment to [std::get<1>] of the entry at an index. *)
Fixpoint set_exe (i : nat) (exe : string) (table : list (Z * string)) : list (Z * string) :=
  match table, i with
  | [], _ => []
  | item :: rest, O => (fst item, exe) :: rest
  | item :: rest, S i' => item :: set_exe i' exe rest
  end.

(** [m_traceeTable.push_back(std::make_tuple(pid, exe))]. *)
Definition table_push_back (pid : Z) (exe : string) : M unit :=
  table <- gets m_traceeTable ;; set_table (table ++ [(pid, exe)]).

Definition Handleexit : M unit :=
  pid <- gets m_traceePid ;; emit (SendExitReport pid).

(** [erase(remove_if(...))] keeps, in order, the entries of another pid. *)
Definition RemoveFromTraceeTable : M unit :=
  pid <- gets m_traceePid ;;
  table <- gets m_traceeTable ;;
  set_table (filter (fun item => negb (fst item =? pid)) table) ;;
  Handleexit.

Definition UpdateTraceeTableForExec (exePath : string) : M unit :=
  pid <- gets m_traceePid ;;
  maybeProcess <- FindProcess pid ;;
  match maybeProcess with
  | Some i =>
      table <- gets m_traceeTable ;; set_table (set_exe i exePath table)
  | None =>
      (* Special case for vfork *)
      let event := mkIOEvent pid pid 0 ES_EVENT_TYPE_NOTIFY_FORK ES_ACTION_TYPE_NOTIFY
                             exePath "" exePath 0 false 0 in
      emit (report_access_event "vfork" event false) ;;
      table_push_back pid exePath
  end.

Definition HandleChildProcess (syscall : string) : M unit :=
  status <- resume_and_wait ;;
  (if (Z.shiftr status 8 =? Z.lor SIGTRAP (Z.shiftl PTRACE_EVENT_CLONE 8))
      || (Z.shiftr status 8 =? Z.lor SIGTRAP (Z.shiftl PTRACE_EVENT_FORK 8))
   then _ <- resume_and_wait ;; ret tt
   else ret tt) ;;
  r <- ReadArgumentLong 0 ;;
  let childpid := to_long r in
  pid <- gets m_traceePid ;;
  (* Find the parent pid for this tracee *)
  maybeParent <- FindProcess pid ;;
  table <- gets m_traceeTable ;;
  let exePath :=
    match maybeParent with
    | Some i => snd (nth i table (0, ""))
    | None => GetProgramPath bxl
    end in
  let event := mkIOEvent pid childpid 0 ES_EVENT_TYPE_NOTIFY_FORK ES_ACTION_TYPE_NOTIFY
                         exePath "" exePath 0 false 0 in
  emit (report_access_event syscall event false) ;;
  (* Record the new child tracee; the tuple holds a pid_t *)
  table_push_back (to_int childpid) exePath.

(** *** Syscall handlers

    A value read with [auto] and handed to the observer is passed on as
    read; where the source names the type [int], the value is converted. *)

Definition Handleexecveat : M unit :=
  r1 <- ReadArgumentLong 1 ;;
  let dirfd := to_int r1 in
  pathname <- ReadArgumentString "execveat" 2 true 0 ;;
  r5 <- ReadArgumentLong 5 ;;
  let flags := to_int r5 in
  let oflags := if c_true (Z.land flags AT_SYMLINK_NOFOLLOW) then O_NOFOLLOW else 0 in
  pid <- gets m_traceePid ;;
  let exePath := normalize_path_at bxl dirfd pathname oflags pid in
  UpdateTraceeTableForExec exePath ;;
  emit (report_exec "execveat" (basename exePath) exePath 0 0 pid) ;;
  if IsReportingProcessArgs bxl
  then args <- ReadArgumentVector "execveat" 3 ;; emit (report_exec_args pid args)
  else ret tt.

Definition Handleexecve : M unit :=
  file <- ReadArgumentString "execve" 1 true 0 ;;
  UpdateTraceeTableForExec file ;;
  pid <- gets m_traceePid ;;
  emit (report_exec "execve" (basename file) file 0 0 pid) ;;
  if IsReportingProcessArgs bxl
  then args <- ReadArgumentVector "execve" 2 ;; emit (report_exec_args pid args)
  else ret tt.

Definition Handlestat : M unit :=
  pathname <- ReadArgumentString "stat" 1 true 0 ;;
  pid <- gets m_traceePid ;;
  emit (report_access "stat" ES_EVENT_TYPE_NOTIFY_STAT pathname 0 O_NOFOLLOW 0 true pid).

Definition Handlelstat : M unit :=
  pathname <- ReadArgumentString "lstat" 1 true 0 ;;
  pid <- gets m_traceePid ;;
  emit (report_access "lstat" ES_EVENT_TYPE_NOTIFY_STAT pathname 0 O_NOFOLLOW 0 true pid).

Definition Handlefstat : M unit :=
  fd <- ReadArgumentLong 1 ;;
  HandleReportAccessFd "fstat" (to_int fd) ES_EVENT_TYPE_NOTIFY_STAT.

Definition Handlenewfstatat : M unit :=
  dirfd <- ReadArgumentLong 1 ;;
  pathname <- ReadArgumentString "fstatat" 2 true 0 ;;
  flags <- ReadArgumentLong 4 ;;
  pid <- gets m_traceePid ;;
  emit (report_access_at "fstatat" ES_EVENT_TYPE_NOTIFY_STAT dirfd pathname flags false pid 0).

Definition Handleaccess : M unit :=
  pathname <- ReadArgumentString "access" 1 true 0 ;;
  pid <- gets m_traceePid ;;
  emit (report_access "access" ES_EVENT_TYPE_NOTIFY_ACCESS pathname 0 0 0 true pid).

Definition Handlefaccessat : M unit :=
  dirfd <- ReadArgumentLong 1 ;;
  pathname <- ReadArgumentString "faccessat" 2 true 0 ;;
  pid <- gets m_traceePid ;;
  emit (report_access_at "faccessat" ES_EVENT_TYPE_NOTIFY_ACCESS dirfd pathname 0 false pid 0).

Definition Handlecreat : M unit :=
  arg <- ReadArgumentString "creat" 1 true 0 ;;
  pid <- gets m_traceePid ;;
  let path := normalize_path bxl arg 0 pid in
  let oflag := Z.lor (Z.lor O_CREAT O_WRONLY) O_TRUNC in
  ReportOpen path oflag "creat".

Definition Handleopen : M unit :=
  arg <- ReadArgumentString "open" 1 true 0 ;;
  pid <- gets m_traceePid ;;
  let path := normalize_path bxl arg 0 pid in
  oflag <- ReadArgumentLong 2 ;;
  ReportOpen path (to_int oflag) "open".

Definition Handleopenat : M unit :=
  dirfd <- ReadArgumentLong 1 ;;
  pathName <- ReadArgumentString "openat" 2 true 0 ;;
  pid <- gets m_traceePid ;;
  let path := normalize_path_at bxl dirfd pathName 0 pid in
  flags <- ReadArgumentLong 3 ;;
  ReportOpen path (to_int flags) "openat".

Definition Handlewrite : M unit :=
  fd <- ReadArgumentLong 1 ;;
  HandleReportAccessFd "write" (to_int fd) ES_EVENT_TYPE_NOTIFY_WRITE.

Definition Handlewritev : M unit :=
  fd <- ReadArgumentLong 1 ;;
  HandleReportAccessFd "writev" (to_int fd) ES_EVENT_TYPE_NOTIFY_WRITE.

Definition Handlepwritev : M unit :=
  fd <- ReadArgumentLong 1 ;;
  HandleReportAccessFd "pwritev" (to_int fd) ES_EVENT_TYPE_NOTIFY_WRITE.

Definition Handlepwritev2 : M unit :=
  fd <- ReadArgumentLong 1 ;;
  HandleReportAccessFd "pwritev2" (to_int fd) ES_EVENT_TYPE_NOTIFY_WRITE.

Definition Handlepwrite64 : M unit :=
  fd <- ReadArgumentLong 1 ;;
  HandleReportAccessFd "pwrite64" (to_int fd) ES_EVENT_TYPE_NOTIFY_WRITE.

Definition Handletruncate : M unit :=
  path <- ReadArgumentString "truncate" 1 true 0 ;;
  pid <- gets m_traceePid ;;
  emit (report_access "truncate" ES_EVENT_TYPE_NOTIFY_WRITE path 0 0 0 true pid).

Definition Handleftruncate : M unit :=
  fd <- ReadArgumentLong 1 ;;
  HandleReportAccessFd "ftruncate" (to_int fd) ES_EVENT_TYPE_NOTIFY_WRITE.

Definition Handlermdir : M unit :=
  path <- ReadArgumentString "rmdir" 1 true 0 ;;
  _ <- resume_and_wait ;;
  error <- GetErrno ;;
  pid <- gets m_traceePid ;;
  emit (report_access_paths "rmdir" ES_EVENT_TYPE_NOTIFY_UNLINK path "" S_IFDIR error false pid).

Definition HandleRenameGeneric (syscall : string) (olddirfd : Z) (oldpath : string)
           (newdirfd : Z) (newpath : string) : M unit :=
  pid <- gets m_traceePid ;;
  let oldStr := normalize_path_at bxl olddirfd oldpath O_NOFOLLOW pid in
  let newStr := normalize_path_at bxl newdirfd newpath O_NOFOLLOW pid in
  let mode := get_mode bxl oldStr in
  if S_ISDIR mode then
    match EnumerateDirectory bxl oldStr true with
    | (enumerateResult, filesAndDirectories) =>
        if enumerateResult then
          for_each filesAndDirectories (fun fileOrDirectory =>
            (* Source *)
            let mode := get_mode bxl fileOrDirectory in
            emit (report_access syscall ES_EVENT_TYPE_NOTIFY_UNLINK fileOrDirectory
                                mode O_NOFOLLOW 0 true pid) ;;
            (* Destination *)
            ReportOpen (replace0 (String.length oldStr) newStr fileOrDirectory)
                       O_CREAT syscall)
        else ret tt
    end
  else
    let mode := get_mode bxl oldStr in
    (* Source *)
    emit (report_access syscall ES_EVENT_TYPE_NOTIFY_UNLINK oldStr mode O_NOFOLLOW 0 true pid) ;;
    (* Destination *)
    ReportOpen newStr O_CREAT syscall.

Definition Handlerename : M unit :=
  oldpath <- ReadArgumentString "rename" 1 true 0 ;;
  newpath <- ReadArgumentString "rename" 2 true 0 ;;
  HandleRenameGeneric "rename" AT_FDCWD oldpath AT_FDCWD newpath.

Definition Handlerenameat : M unit :=
  olddirfd <- ReadArgumentLong 1 ;;
  oldpath <- ReadArgumentString "renameat" 2 true 0 ;;
  newdirfd <- ReadArgumentLong 3 ;;
  newpath <- ReadArgumentString "renameat" 4 true 0 ;;
  HandleRenameGeneric "renameat" (to_int olddirfd) oldpath (to_int newdirfd) newpath.

Definition Handlerenameat2 : M unit :=
  olddirfd <- ReadArgumentLong 1 ;;
  oldpath <- ReadArgumentString "renameat2" 2 true 0 ;;
  newdirfd <- ReadArgumentLong 3 ;;
  newpath <- ReadArgumentString "renameat2" 4 true 0 ;;
  HandleRenameGeneric "renameat2" (to_int olddirfd) oldpath (to_int newdirfd) newpath.

Definition Handlelink : M unit :=
  oldpath <- ReadArgumentString "link" 1 true 0 ;;
  newpath <- ReadArgumentString "link" 2 true 0 ;;
  pid <- gets m_traceePid ;;
  emit (report_access_paths "link" ES_EVENT_TYPE_NOTIFY_LINK
          (normalize_path bxl oldpath O_NOFOLLOW pid)
          (normalize_path bxl newpath O_NOFOLLOW pid) 0 0 true pid).

Definition Handlelinkat : M unit :=
  olddirfd <- ReadArgumentLong 1 ;;
  oldpath <- ReadArgumentString "linkat" 2 true 0 ;;
  newdirfd <- ReadArgumentLong 3 ;;
  newpath <- ReadArgumentString "linkat" 4 true 0 ;;
  pid <- gets m_traceePid ;;
  emit (report_access_paths "linkat" ES_EVENT_TYPE_NOTIFY_LINK
          (normalize_path_at bxl olddirfd oldpath O_NOFOLLOW pid)
          (normalize_path_at bxl newdirfd newpath O_NOFOLLOW pid) 0 0 true pid).

Definition Handleunlink : M unit :=
  path <- ReadArgumentString "unlink" 1 true 0 ;;
  pid <- gets m_traceePid ;;
  if negb (Ascii.eqb (front path) zero)
  then emit (report_access "unlink" ES_EVENT_TYPE_NOTIFY_UNLINK path 0 O_NOFOLLOW 0 true pid)
  else ret tt.

(** [dirfd] is an [unsigned long]; [AT_FDCWD] is converted to it for the
    comparison. *)
Definition Handleunlinkat : M unit :=
  dirfd <- ReadArgumentLong 1 ;;
  path <- ReadArgumentString "unlinkat" 2 true 0 ;;
  flags <- ReadArgumentLong 3 ;;
  pid <- gets m_traceePid ;;
  if negb (dirfd =? to_ulong AT_FDCWD) && negb (Ascii.eqb (front path) zero)
  then
    let oflags := if c_true (Z.land flags AT_REMOVEDIR) then 0 else O_NOFOLLOW in
    emit (report_access_at "unlinkat" ES_EVENT_TYPE_NOTIFY_UNLINK dirfd path oflags false pid 0)
  else ret tt.

Definition Handlesymlink : M unit :=
  linkPath <- ReadArgumentString "symlink" 2 true 0 ;;
  pid <- gets m_traceePid ;;
  let event :=
    mkIOEvent pid 0 0 ES_EVENT_TYPE_NOTIFY_CREATE ES_ACTION_TYPE_NOTIFY
      (normalize_path bxl linkPath O_NOFOLLOW pid) "" (GetProgramPath bxl) S_IFLNK false 0 in
  emit (report_access_event "symlink" event true).

Definition Handlesymlinkat : M unit :=
  dirfd <- ReadArgumentLong 2 ;;
  linkPath <- ReadArgumentString "symlinkat" 3 true 0 ;;
  pid <- gets m_traceePid ;;
  let event :=
    mkIOEvent pid 0 0 ES_EVENT_TYPE_NOTIFY_CREATE ES_ACTION_TYPE_NOTIFY
      (normalize_path_at bxl dirfd linkPath O_NOFOLLOW pid) "" (GetProgramPath bxl)
      S_IFLNK false 0 in
  emit (report_access_event "symlinkat" event true).

Definition Handlereadlink : M unit :=
  path <- ReadArgumentString "readlink" 1 true 0 ;;
  pid <- gets m_traceePid ;;
  emit (report_access "readlink" ES_EVENT_TYPE_NOTIFY_READLINK path 0 O_NOFOLLOW 0 true pid).

Definition Handlereadlinkat : M unit :=
  fd <- ReadArgumentLong 1 ;;
  path <- ReadArgumentString "readlinkat" 2 true 0 ;;
  pid <- gets m_traceePid ;;
  emit (report_access_at "readlinkat" ES_EVENT_TYPE_NOTIFY_READLINK fd path
                         O_NOFOLLOW false pid 0).

Definition Handleutime : M unit :=
  filename <- ReadArgumentString "utime" 1 true 0 ;;
  pid <- gets m_traceePid ;;
  emit (report_access_paths "utime" ES_EVENT_TYPE_NOTIFY_SETTIME filename "" 0 0 true pid).

Definition Handleutimes : M unit := Handleutime.

Definition Handleutimensat : M unit :=
  dirfd <- ReadArgumentLong 1 ;;
  pathname <- ReadArgumentString "utimensat" 2 true 0 ;;
  pid <- gets m_traceePid ;;
  emit (report_access_at "utimensat" ES_EVENT_TYPE_NOTIFY_SETTIME dirfd pathname 0 false pid 0).

Definition Handlefutimesat : M unit :=
  dirfd <- ReadArgumentLong 1 ;;
  pathname <- ReadArgumentString "futimesat" 2 true 0 ;;
  pid <- gets m_traceePid ;;
  emit (report_access_at "futimesat" ES_EVENT_TYPE_NOTIFY_SETTIME dirfd pathname 0 false pid 0).

Definition Handlemkdir : M unit :=
  path <- ReadArgumentString "mkdir" 1 true 0 ;;
  _ <- resume_and_wait ;;
  error <- GetErrno ;;
  ReportCreate "mkdir" AT_FDCWD path S_IFDIR error false.

Definition Handlemkdirat : M unit :=
  dirfd <- ReadArgumentLong 1 ;;
  path <- ReadArgumentString "mkdirat" 2 true 0 ;;
  _ <- resume_and_wait ;;
  error <- GetErrno ;;
  ReportCreate "mkdirat" (to_int dirfd) path S_IFDIR error false.

Definition Handlemknod : M unit :=
  path <- ReadArgumentString "mknod" 1 true 0 ;;
  ReportCreate "mknod" AT_FDCWD path S_IFREG 0 true.

Definition Handlemknodat : M unit :=
  dirfd <- ReadArgumentLong 1 ;;
  path <- ReadArgumentString "mknodat" 2 true 0 ;;
  ReportCreate "mknodat" (to_int dirfd) path S_IFREG 0 true.

Definition Handlechmod : M unit :=
  path <- ReadArgumentString "chmod" 1 true 0 ;;
  pid <- gets m_traceePid ;;
  emit (report_access "chmod" ES_EVENT_TYPE_NOTIFY_SETMODE path 0 0 0 true pid).

Definition Handlefchmod : M unit :=
  fd <- ReadArgumentLong 1 ;;
  HandleReportAccessFd "fchmod" (to_int fd) ES_EVENT_TYPE_NOTIFY_SETMODE.

Definition Handlefchmodat : M unit :=
  dirfd <- ReadArgumentLong 1 ;;
  pathname <- ReadArgumentString "fchmodat" 2 true 0 ;;
  flags <- ReadArgumentLong 4 ;;
  let oflags := if c_true (Z.land flags AT_SYMLINK_NOFOLLOW) then O_NOFOLLOW else 0 in
  pid <- gets m_traceePid ;;
  emit (report_access_at "fchmodat" ES_EVENT_TYPE_NOTIFY_SETMODE dirfd pathname
                         oflags false pid 0).

Definition Handlechown : M unit :=
  pathname <- ReadArgumentString "chown" 1 true 0 ;;
  pid <- gets m_traceePid ;;
  emit (report_access_paths "chown" ES_EVENT_TYPE_AUTH_SETOWNER pathname "" 0 0 true pid).

Definition Handlefchown : M unit :=
  fd <- ReadArgumentLong 1 ;;
  HandleReportAccessFd "fchown" (to_int fd) ES_EVENT_TYPE_AUTH_SETOWNER.

Definition Handlelchown : M unit :=
  pathname <- ReadArgumentString "lchown" 1 true 0 ;;
  pid <- gets m_traceePid ;;
  emit (report_access "lchown" ES_EVENT_TYPE_AUTH_SETOWNER pathname 0 O_NOFOLLOW 0 true pid).

Definition Handlefchownat : M unit :=
  dirfd <- ReadArgumentLong 1 ;;
  pathname <- ReadArgumentString "fchownat" 2 true 0 ;;
  flags <- ReadArgumentLong 5 ;;
  let oflags := if c_true (Z.land flags AT_SYMLINK_NOFOLLOW) then O_NOFOLLOW else 0 in
  pid <- gets m_traceePid ;;
  emit (report_access_at "fchownat" ES_EVENT_TYPE_AUTH_SETOWNER dirfd pathname
                         oflags false pid 0).

Definition Handlesendfile : M unit :=
  out_fd <- ReadArgumentLong 1 ;;
  HandleReportAccessFd "sendfile" (to_int out_fd) ES_EVENT_TYPE_NOTIFY_WRITE.

Definition Handlecopy_file_range : M unit :=
  fd_out <- ReadArgumentLong 3 ;;
  HandleReportAccessFd "copy_file_range" (to_int fd_out) ES_EVENT_TYPE_NOTIFY_WRITE.

Definition Handlename_to_handle_at : M unit :=
  dirfd <- ReadArgumentLong 1 ;;
  pathname <- ReadArgumentString "name_to_handle_at" 2 true 0 ;;
  flags <- ReadArgumentLong 5 ;;
  let oflags := if c_true (Z.land flags AT_SYMLINK_FOLLOW) then 0 else O_NOFOLLOW in
  pid <- gets m_traceePid ;;
  let pathStr := normalize_path_at bxl dirfd pathname oflags pid in
  ReportOpen pathStr oflags "name_to_handle_at".

Definition Handlefork : M unit := HandleChildProcess "fork".
Definition Handleclone : M unit := HandleChildProcess "clone".

(** *** Dispatch *)

(** The macro [MAKE_HANDLER_FN_NAME(syscallName)], that is
    [Handle##syscallName]. *)
Definition MAKE_HANDLER_FN_NAME (syscallName : Sys.name) : M unit :=
  match syscallName with
  | Sys.execveat => Handleexecveat
  | Sys.execve => Handleexecve
  | Sys.stat => Handlestat
  | Sys.lstat => Handlelstat
  | Sys.fstat => Handlefstat
  | Sys.newfstatat => Handlenewfstatat
  | Sys.access => Handleaccess
  | Sys.faccessat => Handlefaccessat
  | Sys.creat => Handlecreat
  | Sys.open => Handleopen
  | Sys.openat => Handleopenat
  | Sys.write => Handlewrite
  | Sys.writev => Handlewritev
  | Sys.pwritev => Handlepwritev
  | Sys.pwritev2 => Handlepwritev2
  | Sys.pwrite64 => Handlepwrite64
  | Sys.truncate => Handletruncate
  | Sys.ftruncate => Handleftruncate
  | Sys.rmdir => Handlermdir
  | Sys.rename => Handlerename
  | Sys.renameat => Handlerenameat
  | Sys.renameat2 => Handlerenameat2
  | Sys.link => Handlelink
  | Sys.linkat => Handlelinkat
  | Sys.unlink => Handleunlink
  | Sys.unlinkat => Handleunlinkat
  | Sys.symlink => Handlesymlink
  | Sys.symlinkat => Handlesymlinkat
  | Sys.readlink => Handlereadlink
  | Sys.readlinkat => Handlereadlinkat
  | Sys.utime => Handleutime
  | Sys.utimes => Handleutimes
  | Sys.utimensat => Handleutimensat
  | Sys.futimesat => Handlefutimesat
  | Sys.mkdir => Handlemkdir
  | Sys.mkdirat => Handlemkdirat
  | Sys.mknod => Handlemknod
  | Sys.mknodat => Handlemknodat
  | Sys.chmod => Handlechmod
  | Sys.fchmod => Handlefchmod
  | Sys.fchmodat => Handlefchmodat
  | Sys.chown => Handlechown
  | Sys.fchown => Handlefchown
  | Sys.lchown => Handlelchown
  | Sys.fchownat => Handlefchownat
  | Sys.sendfile => Handlesendfile
  | Sys.copy_file_range => Handlecopy_file_range
  | Sys.name_to_handle_at => Handlename_to_handle_at
  | Sys.fork => Handlefork
  | Sys.clone => Handleclone
  end.

(** The [case] labels of the [switch] in [HandleSysCallGeneric], one for each
    [CHECK_AND_CALL_HANDLER], in their order. *)
Definition CHECK_AND_CALL_HANDLER : list Sys.name :=
  [
    Sys.execveat; Sys.execve; Sys.stat; Sys.lstat; Sys.fstat; Sys.newfstatat;
    Sys.access; Sys.faccessat; Sys.creat; Sys.open; Sys.openat; Sys.write;
    Sys.writev; Sys.pwritev; Sys.pwritev2; Sys.pwrite64; Sys.truncate; Sys.ftruncate;
    Sys.rmdir; Sys.rename; Sys.renameat; Sys.link; Sys.linkat; Sys.unlink;
    Sys.unlinkat; Sys.symlink; Sys.symlinkat; Sys.readlink; Sys.readlinkat;
    Sys.utime; Sys.utimes; Sys.utimensat; Sys.futimesat; Sys.mkdir; Sys.mkdirat;
    Sys.mknod; Sys.mknodat; Sys.chmod; Sys.fchmod; Sys.fchmodat; Sys.chown;
    Sys.fchown; Sys.lchown; Sys.fchownat; Sys.sendfile; Sys.copy_file_range;
    Sys.name_to_handle_at; Sys.fork; Sys.clone
  ].

(** A [switch] whose cases all end in [break]: the first case whose label
    is the value, or [None] for [default]. *)
Fixpoint switch (value : Z) (cs : list Sys.name) : option Sys.name :=
  match cs with
  | [] => None
  | syscallName :: rest =>
      if value =? Sys.SYSCALL_NAME_TO_NUMBER syscallName then Some syscallName
      else switch value rest
  end.

(** Only the log message of the [default] branch is kept of the debug log:
    it is all that branch does. *)
Definition HandleSysCallGeneric (syscallNumber : Z) : M unit :=
  match switch syscallNumber CHECK_AND_CALL_HANDLER with
  | Some syscallName => MAKE_HANDLER_FN_NAME syscallName
  | None => emit (BXL_LOG_DEBUG_unsupported_syscall syscallNumber)
  end.

(** *** The event loop of [AttachToProcess] *)

Inductive loop_next : Type :=
| loop_continue
| loop_exit (code : Z).     (* [_exit(code)] *)

(** The part of [AttachToProcess] before the loop; [seize] and [interrupt]
    are the results of the two ptrace requests, [semaphore_null] says whether
    [sem_open] returned NULL. *)
Definition AttachToProcess_attach (traceePid : Z) (exe semaphoreName : string)
           (seize interrupt : Z) (semaphore_null : bool) : M loop_next :=
  if seize =? -1 then ret (loop_exit (-1))
  else if interrupt =? -1 then ret (loop_exit (-1))
  else
    set_pid traceePid ;;
    table_push_back traceePid exe ;;
    emit disable_fd_table ;;
    (* Resume child *)
    emit (PTRACE_SYSCALL traceePid 0) ;;
    (* Attach complete, signal the semaphore for the child to resume *)
    if semaphore_null then ret (loop_exit (-1))
    else emit (sem_post semaphoreName) ;; ret loop_continue.

(** One iteration of [while (true)]: [waited] and [status] are what [wait]
    returned and stored, [echild] says whether [errno] is ECHILD. *)
Definition loop_iteration (waited status : Z) (echild : bool) : M loop_next :=
  set_pid waited ;;
  reset_stops ;;
  if waited =? -1 then
    ret (if negb echild then loop_exit (-1) else loop_exit 0)
  else if WIFEXITED status || WIFSIGNALED status then
    ret loop_continue
  else if negb (WIFSTOPPED status) then
    ret (loop_exit (-1))
  else if Z.shiftr status 8 =? Z.lor SIGTRAP (Z.shiftl PTRACE_EVENT_VFORK 8) then
    emit (PTRACE_SYSCALL waited 0) ;; ret loop_continue
  else if Z.shiftr status 8 =? Z.lor SIGTRAP (Z.shiftl PTRACE_EVENT_EXIT 8) then
    emit (PTRACE_GETEVENTMSG waited) ;;
    RemoveFromTraceeTable ;;
    emit (PTRACE_SYSCALL waited 0) ;; ret loop_continue
  else if Z.shiftr status 8 =? Z.lor SIGTRAP (Z.shiftl PTRACE_EVENT_SECCOMP 8) then
    let syscallNumber := peekuser tracee O (sizeof_long * ORIG_RAX) in
    HandleSysCallGeneric (to_int syscallNumber) ;;
    emit (PTRACE_CONT waited) ;; ret loop_continue
  else if WIFSTOPPED status && negb (c_true (Z.land (WSTOPSIG status) 128)) then
    emit (PTRACE_SYSCALL waited (WSTOPSIG status)) ;; ret loop_continue
  else
    emit (PTRACE_SYSCALL waited 0) ;; ret loop_continue.

End Tracer.

(** A run of the loop over the notifications the kernel delivers, each with
    the view of the tracee that stopped. *)
Record Stop : Type := {
  stop_pid : Z;
  stop_status : Z;
  stop_echild : bool;
  stop_tracee : Tracee
}.

Fixpoint event_loop (bxl : BxlObserver) (fuel : nat) (basename : string -> string)
         (notifications : list Stop) : M loop_next :=
  match notifications with
  | [] => ret loop_continue
  | w :: rest =>
      next <- loop_iteration bxl (stop_tracee w) fuel basename
                             (stop_pid w) (stop_status w) (stop_echild w) ;;
      match next with
      | loop_continue => event_loop bxl fuel basename rest
      | loop_exit code => ret (loop_exit code)
      end
  end.

(** ** The tracee side: [ExecuteWithPTraceSandbox] *)

Module Bootstrap.

(** What [sem_open] returned. *)
Inductive sem_ptr : Type := sem_NULL | SEM_FAILED | sem_valid.

(** The results of the calls the function makes, in the process that runs
    it. *)
Record Process : Type := {
  getpid : Z;
  sem_open_result : sem_ptr;
  clock_gettime_result : Z;
  tv_sec : Z;                      (* CLOCK_REALTIME, seconds *)
  sem_timedwait_result : Z;
  prctl_no_new_privs_result : Z;
  prctl_seccomp_result : Z;
  execvpe_result : Z
}.

(** The calls that act on the world, as they are made. *)
Inductive Call : Type :=
| sem_open (name : string) (value : Z)
| clock_gettime
| sem_timedwait (abs_timeout_sec : Z)
| sem_close
| sem_unlink (name : string)
| prctl_PR_SET_NO_NEW_PRIVS
| prctl_PR_SET_SECCOMP (prog : list Seccomp.sock_filter)
| real_execvpe (file : string).

(** [real__exit] does not return: the function ends there. *)
Inductive outcome : Type :=
| exited (status : Z)
| returned (value : Z).

(** The exit status a waiting parent sees. *)
Definition WEXITSTATUS_of (o : outcome) : option Z :=
  match o with
  | exited status => Some (Z.land status 255)
  | returned _ => None
  end.

(** [std::to_string] of an [int]. *)
Definition to_string (z : Z) : string := NilZero.string_of_int (Z.to_int z).

Definition ExecuteWithPTraceSandbox (p : Process) (file : string) : list Call * outcome :=
  let prog := Seccomp.filter in
  (* NOTE: sem_open must be called before we set the seccomp filter *)
  let semaphoreName := ("/" ++ to_string (getpid p))%string in
  let t1 := [sem_open semaphoreName 0] in
  match sem_open_result p with
  | sem_NULL | SEM_FAILED => (t1, exited (-1))
  | sem_valid =>
      let t2 := t1 ++ [clock_gettime] in
      if clock_gettime_result p =? -1 then (t2, exited (-1))
      else
        let ts_tv_sec := tv_sec p + 15 in
        let waitResult := sem_timedwait_result p in
        (* Regardless of whether we timed out or not, close/unlink the semaphore *)
        let t3 := t2 ++ [sem_timedwait ts_tv_sec; sem_close; sem_unlink semaphoreName] in
        if waitResult =? -1 then (t3, exited (-1))
        else
          let t4 := t3 ++ [prctl_PR_SET_NO_NEW_PRIVS] in
          if prctl_no_new_privs_result p =? -1 then (t4, exited (-1))
          else
            let t5 := t4 ++ [prctl_PR_SET_SECCOMP prog] in
            if prctl_seccomp_result p =? -1 then (t5, exited (-1))
            else (t5 ++ [real_execvpe file], returned (execvpe_result p))
  end.

Definition installs_filter (c : Call) : bool :=
  match c with
  | prctl_PR_SET_SECCOMP _ => true
  | _ => false
  end.

End Bootstrap.

(** ** Vocabulary of the properties *)

(** The syscall names the filter tests, in its order. *)
Definition surfaced_names : list Sys.name :=
  [
    Sys.execveat; Sys.execve; Sys.stat; Sys.lstat; Sys.fstat; Sys.newfstatat;
    Sys.access; Sys.faccessat; Sys.creat; Sys.open; Sys.openat; Sys.write; Sys.writev;
    Sys.pwritev; Sys.pwritev2; Sys.pwrite64; Sys.truncate; Sys.ftruncate; Sys.rmdir;
    Sys.rename; Sys.renameat; Sys.renameat2; Sys.link; Sys.linkat; Sys.unlink;
    Sys.unlinkat; Sys.symlink; Sys.symlinkat; Sys.readlink; Sys.readlinkat; Sys.utime;
    Sys.utimes; Sys.utimensat; Sys.futimesat; Sys.mkdir; Sys.mkdirat; Sys.mknod;
    Sys.mknodat; Sys.chmod; Sys.fchmod; Sys.fchmodat; Sys.chown; Sys.fchown;
    Sys.lchown; Sys.fchownat; Sys.sendfile; Sys.copy_file_range; Sys.name_to_handle_at;
    Sys.fork; Sys.clone
  ].

(** The classifier surfaces a number; the dispatcher has a case for it. *)
Definition surfaced (number : Z) : bool := Seccomp.surfaced number.
Definition dispatched (number : Z) : bool :=
  match switch number CHECK_AND_CALL_HANDLER with
  | Some _ => true
  | None => false
  end.

(** Appending to the output log of a state. *)
Definition logged (s : PTraceSandbox) (actions : list Action) : PTraceSandbox :=
  mkSandbox (m_traceePid s) (m_traceeTable s) (stops s) (out s ++ actions).

(** The process table holds at most one entry per pid. *)
Definition unique_pids (table : list (Z * string)) : Prop := NoDup (map fst table).

(** Some test of a chain of [TRACE_SYSCALL]s succeeds on the accumulator. *)
Definition tests (A : Z) (names : list Sys.name) : bool :=
  existsb (fun n => A =? Sys.SYSCALL_NAME_TO_NUMBER n) names.

(** The address of the [k]-th word [ReadArgumentStringAtAddr] peeks. *)
Definition word_address (addr : Z) (k : nat) : Z :=
  Nat.iter k (fun a => to_ulong (a + sizeof_long)) addr.

(** A NUL character occurs in a string. *)
Fixpoint has_nul (s : string) : bool :=
  match s with
  | EmptyString => false
  | String c rest => Ascii.eqb c zero || has_nul rest
  end.

(** One of the eight bytes of a word is NUL. *)
Definition word_has_nul (word : Z) : bool :=
  existsb (fun i => Ascii.eqb (byte_of_word word i) zero) (seq 0 8).

(** The register a handler reads as argument [i], at the stop it is at. *)
Definition argument (tracee : Tracee) (s : PTraceSandbox) (i : Z) : Z :=
  to_ulong (peekuser tracee (stops s) (GetArgumentAddr i)).

(** The claim on unlinkat as the specification words it: a report for every
    non-empty path, none for the empty path. *)
Definition unlinkat_reports_iff_path_nonempty : Prop :=
  forall (tracee : Tracee) (fuel : nat) (s : PTraceSandbox) (path : string),
    ReadArgumentString tracee fuel "unlinkat" 2 true 0 s = Some (path, s) ->
    exists s',
      Handleunlinkat tracee fuel s = Some (tt, s')
      /\ (path <> "" ->
          exists dirfd oflags,
            out s' = out s ++ [report_access_at "unlinkat" ES_EVENT_TYPE_NOTIFY_UNLINK
                                                dirfd path oflags false (m_traceePid s) 0])
      /\ (path = "" -> out s' = out s).

(** The claim on readlinkat as the specification words it: nothing is
    reported when the fd resolves to a path that does not begin with '/'. *)
Definition readlinkat_silent_for_non_path_fd : Prop :=
  forall (bxl : BxlObserver) (tracee : Tracee) (fuel : nat) (s : PTraceSandbox)
         (path : string),
    ReadArgumentString tracee fuel "readlinkat" 2 true 0 s = Some (path, s) ->
    front (fd_to_path bxl (to_int (argument tracee s 1)) (m_traceePid s)) <> "/"%char ->
    exists s', Handlereadlinkat tracee fuel s = Some (tt, s') /\ out s' = out s.

(** Reports of a rename: the unlink of a source path, and the report
    [ReportOpen] makes of a destination path with a given kind. *)
Definition unlink_report (syscall : string) (pid : Z) (path : string) (a : Action) : Prop :=
  exists mode,
    a = report_access syscall ES_EVENT_TYPE_NOTIFY_UNLINK path mode O_NOFOLLOW 0 true pid.

Definition open_report (kind : es_event_type) (syscall : string) (pid : Z) (path : string)
           (a : Action) : Prop :=
  exists event,
    a = report_access_event syscall event true
    /\ ev_type event = kind /\ ev_src event = path /\ ev_pid event = pid.

Definition pairs_log (pairs : list (Action * Action)) : list Action :=
  flat_map (fun pair => [fst pair; snd pair]) pairs.

(** The kind [ReportOpen] gives a destination of a rename: it depends on
    whether the destination exists before the call. *)
Definition destination_kind (bxl : BxlObserver) (path : string) : es_event_type :=
  if get_mode bxl path =? 0 then ES_EVENT_TYPE_NOTIFY_CREATE
  else ES_EVENT_TYPE_NOTIFY_OPEN.

(** What [HandleRenameGeneric] reports for one enumerated entry. *)
Definition entry_reports (bxl : BxlObserver) (syscall : string) (pid : Z)
           (oldStr newStr entry : string) : Action * Action :=
  let destination := replace0 (String.length oldStr) newStr entry in
  (report_access syscall ES_EVENT_TYPE_NOTIFY_UNLINK entry (get_mode bxl entry)
                 O_NOFOLLOW 0 true pid,
   report_access_event syscall
     (mkIOEvent pid 0 0 (destination_kind bxl destination) ES_ACTION_TYPE_NOTIFY
                destination "" (GetProgramPath bxl) (get_mode bxl destination) false 0)
     true).

(** The claim on the rename of a directory as the specification words it:
    one (unlink, create) pair for each enumerated entry, the destination
    being the entry with the old root replaced by the new root. *)
Definition rename_directory_emits_unlink_create_pairs : Prop :=
  forall (bxl : BxlObserver) (syscall : string) (olddirfd : Z) (oldpath : string)
         (newdirfd : Z) (newpath : string) (s : PTraceSandbox) (entries : list string),
    let pid := m_traceePid s in
    let oldStr := normalize_path_at bxl olddirfd oldpath O_NOFOLLOW pid in
    let newStr := normalize_path_at bxl newdirfd newpath O_NOFOLLOW pid in
    S_ISDIR (get_mode bxl oldStr) = true ->
    EnumerateDirectory bxl oldStr true = (true, entries) ->
    forallb (String.prefix oldStr) entries = true ->
    exists pairs,
      HandleRenameGeneric bxl syscall olddirfd oldpath newdirfd newpath s
      = Some (tt, logged s (pairs_log pairs))
      /\ length pairs = length entries
      /\ Forall2 (fun entry pair =>
                    exists rest,
                      entry = (oldStr ++ rest)%string
                      /\ unlink_report syscall pid entry (fst pair)
                      /\ open_report ES_EVENT_TYPE_NOTIFY_CREATE syscall pid
                                     (newStr ++ rest)%string (snd pair))
                 entries pairs.

(** The pid [HandleChildProcess] records for the child: the return register
    at the stop it reads it, one round after the entry or two when the first
    wait shows a fork or clone event. *)
Definition fork_event_seen (tracee : Tracee) (s : PTraceSandbox) : bool :=
  let status := wait_status tracee (S (stops s)) in
  (Z.shiftr status 8 =? Z.lor SIGTRAP (Z.shiftl PTRACE_EVENT_CLONE 8))
  || (Z.shiftr status 8 =? Z.lor SIGTRAP (Z.shiftl PTRACE_EVENT_FORK 8)).

Definition child_stop (tracee : Tracee) (s : PTraceSandbox) : nat :=
  if fork_event_seen tracee s then S (S (stops s)) else S (stops s).

Definition child_pid (tracee : Tracee) (s : PTraceSandbox) : Z :=
  to_int (to_long (to_ulong (peekuser tracee (child_stop tracee s) (GetArgumentAddr 0)))).

(** ** Concrete tracees and observers *)

Module Scenario.

(** A memory image: NUL-terminated strings at their addresses, zero
    elsewhere. *)
Fixpoint char_at (s : string) (n : nat) : Z :=
  match s, n with
  | EmptyString, _ => 0
  | String c _, O => Z.of_N (N_of_ascii c)
  | String _ rest, S n' => char_at rest n'
  end.

Fixpoint byte_at (image : list (Z * string)) (a : Z) : Z :=
  match image with
  | [] => 0
  | (base, str) :: rest =>
      if (base <=? a) && (a <? base + Z.of_nat (String.length str))
      then char_at str (Z.to_nat (a - base))
      else byte_at rest a
  end.

Definition word_at (image : list (Z * string)) (a : Z) : Z :=
  to_long (fold_right (fun i acc => byte_at image (a + i) + 256 * acc) 0
                      [0; 1; 2; 3; 4; 5; 6; 7]).

(** The user area from the values of some registers, the others zero. *)
Fixpoint user_area (regs : list (Z * Z)) (offset : Z) : Z :=
  match regs with
  | [] => 0
  | (reg, value) :: rest =>
      if offset =? sizeof_long * reg then value else user_area rest offset
  end.

(** A tracee stopped at the entry of a syscall with registers [entry]; every
    later stop is a syscall-exit stop with registers [exit]. *)
Definition syscall_exit_stop : Z := 34175. (* ((SIGTRAP | 0x80) << 8) | 0x7f *)
Definition tracee (entry exit : list (Z * Z)) (image : list (Z * string)) : Tracee :=
  {| peekuser := fun n offset =>
       match n with O => user_area entry offset | S _ => user_area exit offset end;
     peektext := word_at image;
     wait_status := fun _ => syscall_exit_stop |}.

Fixpoint lookup_path {A : Type} (default : A) (l : list (string * A)) (p : string) : A :=
  match l with
  | [] => default
  | (q, a) :: rest => if String.eqb p q then a else lookup_path default rest p
  end.

Fixpoint lookup_fd (l : list (Z * string)) (fd : Z) : string :=
  match l with
  | [] => ""
  | (n, p) :: rest => if fd =? n then p else lookup_fd rest fd
  end.

(** An observer over a file system given by the modes of the paths that
    exist, the open descriptors and the directory listings; paths are
    absolute already. *)
Definition observer (modes : list (string * Z)) (fds : list (Z * string))
           (listings : list (string * list string)) : BxlObserver :=
  {| get_mode := lookup_path 0 modes;
     normalize_path := fun p _ _ => p;
     normalize_path_at := fun _ p _ _ => p;
     fd_to_path := fun fd _ => lookup_fd fds fd;
     EnumerateDirectory := fun d _ =>
       lookup_path (false, []) (map (fun e => (fst e, (true, snd e))) listings) d;
     GetProgramPath := "/usr/bin/make";
     IsReportingProcessArgs := false |}.

(** The tracer handling a stop of pid 4242, started as /usr/bin/make. *)
Definition tracer : PTraceSandbox :=
  {| m_traceePid := 4242; m_traceeTable := [(4242, "/usr/bin/make")];
     stops := O; out := [] |}.

Definition regular_file : Z := 33188.  (* S_IFREG | 0644 *)
Definition directory : Z := 16877.     (* S_IFDIR | 0755 *)

(** open("/out/log.txt", O_WRONLY | O_TRUNC) on a file that exists. *)
Definition log_image : list (Z * string) := [(4096, "/out/log.txt")].
Definition log_exists : BxlObserver := observer [("/out/log.txt", regular_file)] [] [].
Definition open_for_writing : Tracee :=
  tracee [(RDI, 4096); (RSI, Z.lor O_WRONLY O_TRUNC)] [] log_image.

(** mkdir("/sys/kernel/x", 0755) that fails with EPERM: the return register
    holds -1 at the exit of the syscall. *)
Definition EPERM : Z := 1.
Definition mkdir_image : list (Z * string) := [(4096, "/sys/kernel/x")].
Definition nothing_exists : BxlObserver := observer [] [] [].
Definition mkdir_fails_EPERM : Tracee :=
  tracee [(RDI, 4096); (RSI, 493)] [(RAX, - EPERM)] mkdir_image.

(** A tracee all of whose memory reads as zero. *)
Definition zero_memory : Tracee := tracee [] [] [].

(** unlinkat(AT_FDCWD, "stale.o", 0), the descriptor sign-extended in the
    register, and unlinkat(5, "stale.o", 0). *)
Definition stale_image : list (Z * string) := [(4096, "stale.o")].
Definition unlinkat_cwd : Tracee :=
  tracee [(RDI, AT_FDCWD); (RSI, 4096); (RDX, 0)] [] stale_image.
Definition unlinkat_dirfd : Tracee :=
  tracee [(RDI, 5); (RSI, 4096); (RDX, 0)] [] stale_image.

(** readlinkat(3, "x", buf, 64) where descriptor 3 is a pipe. *)
Definition pipe_fd : BxlObserver := observer [] [(3, "pipe:[81234]")] [].
Definition readlinkat_pipe : Tracee :=
  tracee [(RDI, 3); (RSI, 4096); (RDX, 8192); (R10, 64)] [] [(4096, "x")].

(** rename("/src/a", "/src/b") where /src/a is a directory holding f: once
    with no /src/b, once with a file /src/b/f already there. *)
Definition rename_fresh : BxlObserver :=
  observer [("/src/a", directory); ("/src/a/f", regular_file)] []
           [("/src/a", ["/src/a/f"])].
Definition rename_onto_existing : BxlObserver :=
  observer [("/src/a", directory); ("/src/a/f", regular_file);
            ("/src/b", directory); ("/src/b/f", regular_file)] []
           [("/src/a", ["/src/a/f"])].

(** The last component of a path. *)
Fixpoint last_component (path acc : string) : string :=
  match path with
  | EmptyString => acc
  | String c rest =>
      if Ascii.eqb c "/" then last_component rest ""
      else last_component rest (acc ++ String c "")
  end.
Definition basename (path : string) : string := last_component path "".

(** The statuses [wait] stores for the stops of ptrace events:
    [((SIGTRAP | (event << 8)) << 8) | 0x7f]. *)
Definition event_stop (event : Z) : Z :=
  Z.lor (Z.shiftl (Z.lor SIGTRAP (Z.shiftl event 8)) 8) 127.

(** A child of pid 4242 made by vfork, pid 4243, whose first surfaced
    syscall is execve("/bin/ls", ...): the tracer has no entry for it. *)
Definition child_unknown : PTraceSandbox :=
  {| m_traceePid := 4243; m_traceeTable := [(4242, "/usr/bin/make")];
     stops := O; out := [] |}.
Definition execve_ls : Tracee :=
  tracee [(ORIG_RAX, __NR_execve); (RDI, 4096); (RSI, 8192); (RDX, 0)] []
         [(4096, "/bin/ls")].

(** fork() that fails with EAGAIN: the return register holds -11 at the
    exit of the syscall. *)
Definition EAGAIN : Z := 11.
Definition fork_fails_EAGAIN : Tracee :=
  tracee [(ORIG_RAX, __NR_fork)] [(RAX, - EAGAIN)] [].

(** The tracer object before [AttachToProcess]. *)
Definition constructed : PTraceSandbox :=
  {| m_traceePid := 0; m_traceeTable := []; stops := O; out := [] |}.

Definition seccomp_stop_of (pid : Z) (t : Tracee) : Stop :=
  {| stop_pid := pid; stop_status := event_stop PTRACE_EVENT_SECCOMP;
     stop_echild := false; stop_tracee := t |}.
Definition event_stop_of (pid event : Z) : Stop :=
  {| stop_pid := pid; stop_status := event_stop event;
     stop_echild := false; stop_tracee := zero_memory |}.

(** A bootstrap of pid 4243 whose latch is never posted: the wait times
    out. *)
Definition latch_times_out : Bootstrap.Process :=
  {| Bootstrap.getpid := 4243;
     Bootstrap.sem_open_result := Bootstrap.sem_valid;
     Bootstrap.clock_gettime_result := 0;
     Bootstrap.tv_sec := 1700000000;
     Bootstrap.sem_timedwait_result := -1;
     Bootstrap.prctl_no_new_privs_result := 0;
     Bootstrap.prctl_seccomp_result := 0;
     Bootstrap.execvpe_result := -1 |}.

(** renameat2(AT_FDCWD, "/src/a", AT_FDCWD, "/src/b", 0) at its seccomp stop. *)
Definition renameat2_a_b : Tracee :=
  tracee [(ORIG_RAX, __NR_renameat2); (RDI, AT_FDCWD); (RSI, 4096); (RDX, AT_FDCWD);
          (R10, 8192); (R8, 0)] []
         [(4096, "/src/a"); (8192, "/src/b")].

(** The tracer attached to pid 4242, before its loop. *)
Definition attached : PTraceSandbox :=
  {| m_traceePid := 4242; m_traceeTable := [(4242, "/usr/bin/make")]; stops := O;
     out := [disable_fd_table; PTRACE_SYSCALL 4242 0; sem_post "/4242"] |}.

End Scenario.

(** ** Vocabulary of the properties of the decoder *)

(** Bytes [i], [i + 1], ... of a word, [n] of them, in memory order. *)
Fixpoint bytes_from (word : Z) (i n : nat) : string :=
  match n with
  | O => EmptyString
  | S n' => String (byte_of_word word i) (bytes_from word (S i) n')
  end.

(** The eight bytes of a peeked word. *)
Definition word_string (word : Z) : string := bytes_from word 0 8.

(** The bytes of the first [k] words [ReadArgumentStringAtAddr] peeks from an
    address. *)
Fixpoint peeked (tracee : Tracee) (addr : Z) (k : nat) : string :=
  match k with
  | O => EmptyString
  | S k' =>
      (word_string (peektext tracee addr)
       ++ peeked tracee (to_ulong (addr + sizeof_long)) k')%string
  end.

(** The part of a string before its first NUL, and whether it has one. *)
Fixpoint take_nul (s : string) : string * bool :=
  match s with
  | EmptyString => (EmptyString, false)
  | String c rest =>
      if Ascii.eqb c zero then (EmptyString, true)
      else (String c (fst (take_nul rest)), snd (take_nul rest))
  end.

(** The first [n] characters of a string. *)
Fixpoint take (n : nat) (s : string) : string :=
  match n, s with
  | O, _ => EmptyString
  | S _, EmptyString => EmptyString
  | S n', String c rest => String c (take n' rest)
  end.

(** The arguments of an argv as [ReadArgumentVector] joins them. *)
Fixpoint joined (firstArgument : bool) (args : list string) : string :=
  match args with
  | [] => EmptyString
  | arg :: rest =>
      ((if negb firstArgument then " " else "") ++ arg ++ joined false rest)%string
  end.

(** A pointer of argv, neither null nor -1, whose string can be read. *)
Definition readable (tracee : Tracee) (fuel : nat) (syscall : string)
           (pointer : Z) (arg : string) : Prop :=
  pointer <> 0 /\ pointer <> -1
  /\ ReadArgumentStringAtAddr tracee fuel syscall (to_ulong pointer) true 0 = Some arg.

(** An argument index names one of the six argument registers or the
    return register. *)
Definition register_index (index : Z) : bool := (0 <=? index) && (index <=? 6).

(** The handlers that report on a file descriptor through
    [HandleReportAccessFd]: the name they report under, the kind of the event
    and the argument that holds the descriptor. *)
Definition fd_keyed : list (Sys.name * (string * es_event_type * Z)) :=
  [ (Sys.fstat, ("fstat", ES_EVENT_TYPE_NOTIFY_STAT, 1));
    (Sys.write, ("write", ES_EVENT_TYPE_NOTIFY_WRITE, 1));
    (Sys.writev, ("writev", ES_EVENT_TYPE_NOTIFY_WRITE, 1));
    (Sys.pwritev, ("pwritev", ES_EVENT_TYPE_NOTIFY_WRITE, 1));
    (Sys.pwritev2, ("pwritev2", ES_EVENT_TYPE_NOTIFY_WRITE, 1));
    (Sys.pwrite64, ("pwrite64", ES_EVENT_TYPE_NOTIFY_WRITE, 1));
    (Sys.ftruncate, ("ftruncate", ES_EVENT_TYPE_NOTIFY_WRITE, 1));
    (Sys.fchmod, ("fchmod", ES_EVENT_TYPE_NOTIFY_SETMODE, 1));
    (Sys.fchown, ("fchown", ES_EVENT_TYPE_AUTH_SETOWNER, 1));
    (Sys.sendfile, ("sendfile", ES_EVENT_TYPE_NOTIFY_WRITE, 1));
    (Sys.copy_file_range, ("copy_file_range", ES_EVENT_TYPE_NOTIFY_WRITE, 3)) ].

(** The executable path the table records for a pid: the path of its first
    entry, as [FindProcess] and [std::get<1>] read it. *)
Definition exe_of (pid : Z) (table : list (Z * string)) : option string :=
  match find_index pid table 0 with
  | Some i => Some (snd (nth i table (0, "")))
  | None => None
  end.

(** The path [HandleChildProcess] gives the child. *)
Definition inherited_exe (bxl : BxlObserver) (pid : Z) (table : list (Z * string)) : string :=
  match exe_of pid table with
  | Some exe => exe
  | None => GetProgramPath bxl
  end.

(** The requests of the one or two rounds [HandleChildProcess] waits. *)
Definition child_rounds (tracee : Tracee) (s : PTraceSandbox) : list Action :=
  let round := [PTRACE_SYSCALL (m_traceePid s) 0; waitpid (m_traceePid s)] in
  if fork_event_seen tracee s then round ++ round else round.

(** The status [wait] stores for a stop: the low byte is 0x7f, the next byte
    the signal of the stop, the byte above it the ptrace event. *)
Definition status_of_stop (sig event : Z) : Z :=
  Z.lor (Z.shiftl (Z.lor sig (Z.shiftl event 8)) 8) 127.

(** The stops the loop has a branch of its own for. *)
Definition event_branch (sig event : Z) : bool :=
  (sig =? SIGTRAP)
  && ((event =? PTRACE_EVENT_VFORK) || (event =? PTRACE_EVENT_EXIT)
      || (event =? PTRACE_EVENT_SECCOMP)).

(** What the tests of the loop compute on the status of a stop. *)
Definition stop_tests (sig event : Z) : bool :=
  let status := status_of_stop sig event in
  negb (WIFEXITED status || WIFSIGNALED status)
  && WIFSTOPPED status
  && (WSTOPSIG status =? sig)
  && Bool.eqb (Z.shiftr status 8 =? Z.lor SIGTRAP (Z.shiftl PTRACE_EVENT_VFORK 8))
              ((sig =? SIGTRAP) && (event =? PTRACE_EVENT_VFORK))
  && Bool.eqb (Z.shiftr status 8 =? Z.lor SIGTRAP (Z.shiftl PTRACE_EVENT_EXIT 8))
              ((sig =? SIGTRAP) && (event =? PTRACE_EVENT_EXIT))
  && Bool.eqb (Z.shiftr status 8 =? Z.lor SIGTRAP (Z.shiftl PTRACE_EVENT_SECCOMP 8))
              ((sig =? SIGTRAP) && (event =? PTRACE_EVENT_SECCOMP)).

Definition bytes : list Z := map Z.of_nat (seq 0 256).

(** What a member function leaves as it is: the pid being handled, the
    output already made (it only appends) and, when [keep] is set, the
    table. *)
Definition table_kept (keep : bool) (table table' : list (Z * string)) : Prop :=
  if keep then table' = table else True.

Definition frame (keep : bool) {A : Type} (m : M A) : Prop :=
  forall s a s',
    m s = Some (a, s') ->
    m_traceePid s' = m_traceePid s
    /\ table_kept keep (m_traceeTable s) (m_traceeTable s')
    /\ exists l, out s' = out s ++ l.

(** The handlers that write to the table. *)
Definition table_handlers : list Sys.name :=
  [Sys.execveat; Sys.execve; Sys.fork; Sys.clone].

(** ** Further concrete tracees *)

Module Cases.

(** A path that runs into an unmapped page: the word at 4088 holds
    "/usr/lib", every other peek faults. *)
Definition page_end : Tracee :=
  {| peekuser := fun _ offset => if offset =? sizeof_long * RDI then 4088 else 0;
     peektext := fun a =>
       if a =? 4088 then Scenario.word_at [(4088, "/usr/lib")] 4088 else -1;
     wait_status := fun _ => Scenario.syscall_exit_stop |}.

(** execve("/bin/ls", ["ls", "-l", NULL], ...): argv at 8192 holds the
    pointers 4112 and 4120 and a null pointer. *)
Definition execve_ls_l : Tracee :=
  {| peekuser := fun _ =>
       Scenario.user_area [(ORIG_RAX, __NR_execve); (RDI, 4096); (RSI, 8192); (RDX, 0)];
     peektext := fun a =>
       if a =? 8192 then 4112
       else if a =? 8200 then 4120
       else if a =? 8208 then 0
       else Scenario.word_at [(4096, "/bin/ls"); (4112, "ls"); (4120, "-l")] a;
     wait_status := fun _ => Scenario.syscall_exit_stop |}.

(** write(3, buf, 64) where descriptor 3 is a pipe. *)
Definition write_pipe : Tracee :=
  Scenario.tracee [(ORIG_RAX, __NR_write); (RDI, 3); (RSI, 8192); (RDX, 64)] [] [].

(** unlink("stale.o"), and rmdir("/tmp/d") that fails with ENOTEMPTY (39). *)
Definition unlink_stale : Tracee :=
  Scenario.tracee [(ORIG_RAX, __NR_unlink); (RDI, 4096)] [] Scenario.stale_image.
Definition rmdir_not_empty : Tracee :=
  Scenario.tracee [(ORIG_RAX, __NR_rmdir); (RDI, 4096)] [(RAX, -39)] [(4096, "/tmp/d")].

(** name_to_handle_at(AT_FDCWD, "/etc/passwd", handle, mount_id, 0). *)
Definition handle_of_passwd : Tracee :=
  Scenario.tracee [(ORIG_RAX, __NR_name_to_handle_at); (RDI, AT_FDCWD); (RSI, 4096);
                   (RDX, 8192); (R10, 8200); (R8, 0)] []
                  [(4096, "/etc/passwd")].

(** rename("/src/f", "/src/g") of a regular file, and a rename of a directory
    whose enumeration fails. *)
Definition rename_file : BxlObserver :=
  Scenario.observer [("/src/f", Scenario.regular_file)] [] [].
Definition rename_unlisted : BxlObserver :=
  Scenario.observer [("/src/a", Scenario.directory)] [] [].

(** fork() of pid 4242 that returns 4250; the first wait shows the fork
    event, the second the exit of the syscall. *)
Definition fork_4250 : Tracee :=
  {| peekuser := fun n offset =>
       match n with
       | 2%nat => Scenario.user_area [(RAX, 4250)] offset
       | _ => Scenario.user_area [(ORIG_RAX, __NR_fork)] offset
       end;
     peektext := fun _ => 0;
     wait_status := fun n =>
       match n with
       | 1%nat => Scenario.event_stop PTRACE_EVENT_FORK
       | _ => Scenario.syscall_exit_stop
       end |}.

(** A stop of pid 4243 by SIGCHLD (17), and the exit stop of pid 4243 with
    the table holding the pids 4242 and 4243. *)
Definition two_tracees : PTraceSandbox :=
  {| m_traceePid := 4242;
     m_traceeTable := [(4242, "/usr/bin/make"); (4243, "/bin/ls")];
     stops := O; out := [] |}.

(** stat("/etc/passwd", buf) at its seccomp stop. *)
Definition stat_passwd : Tracee :=
  Scenario.tracee [(ORIG_RAX, __NR_stat); (RDI, 4096); (RSI, 8192)] []
                  [(4096, "/etc/passwd")].

(** unlinkat(AT_FDCWD, "stale.o", 0) with the descriptor zero-extended in the
    register, as [mov edi, -100] leaves it: 0x00000000FFFFFF9C. *)
Definition unlinkat_cwd_zero_extended : Tracee :=
  Scenario.tracee [(RDI, 4294967196); (RSI, 4096); (RDX, 0)] [] Scenario.stale_image.

End Cases.

(** ** The classifier and the dispatcher *)

Section Classifier.

Import Seccomp.

Lemma filter_shape :
  filter = [BPF_LD_W_ABS offsetof_nr]
             ++ flat_map TRACE_SYSCALL surfaced_names
             ++ [BPF_RET_K SECCOMP_RET_ALLOW].
Proof. reflexivity. Qed.

(** A chain of equality tests, run from its first test. *)
Lemma bpf_run_chain (names : list Sys.name) :
  forall (pre : list sock_filter) (fuel : nat) (A : Z) (d : seccomp_data),
    (2 * length names + 1 <= fuel)%nat ->
    bpf_run fuel (pre ++ flat_map TRACE_SYSCALL names ++ [BPF_RET_K SECCOMP_RET_ALLOW])
            (length pre) A d
    = Some (if tests A names then SECCOMP_RET_TRACE else SECCOMP_RET_ALLOW).
Proof.
  induction names as [|k rest IH]; intros pre fuel A d Hfuel.
  - destruct fuel as [|fuel]; [simpl in Hfuel; lia|].
    simpl. rewrite nth_error_app2 by lia. rewrite Nat.sub_diag. reflexivity.
  - destruct fuel as [|[|fuel]]; try (simpl in Hfuel; lia).
    cbn [flat_map TRACE_SYSCALL app tests existsb].
    cbn [bpf_run]. rewrite nth_error_app2 by lia. rewrite Nat.sub_diag.
    cbn [nth_error]. destruct (A =? Sys.SYSCALL_NAME_TO_NUMBER k) eqn:E.
    + rewrite Nat.add_0_r. rewrite nth_error_app2 by lia.
      replace (S (length pre) - length pre)%nat with 1%nat by lia. reflexivity.
    + cbn [orb].
      specialize (IH (pre ++ TRACE_SYSCALL k) (S fuel) A d).
      rewrite length_app in IH. cbn [length TRACE_SYSCALL] in IH.
      replace (S (length pre) + 1)%nat with (length pre + 2)%nat by lia.
      rewrite <- app_assoc in IH. cbn [app] in IH.
      apply IH. simpl in Hfuel |- *. lia.
Qed.

Lemma bpf_run_load (fuel : nat) (off : Z) (rest : list sock_filter) (A : Z)
      (d : seccomp_data) :
  bpf_run (S fuel) (BPF_LD_W_ABS off :: rest) 0 A d
  = bpf_run fuel (BPF_LD_W_ABS off :: rest) 1 (load_word d off) d.
Proof. reflexivity. Qed.

Lemma classify_tests (number : Z) :
  classify number
  = Some (if tests (to_uint number) surfaced_names
          then SECCOMP_RET_TRACE else SECCOMP_RET_ALLOW).
Proof.
  unfold classify, run_filter.
  replace (length filter) with (S 101) by reflexivity.
  rewrite filter_shape. cbn [app]. rewrite bpf_run_load.
  apply (bpf_run_chain surfaced_names [BPF_LD_W_ABS offsetof_nr] 101).
  simpl. lia.
Qed.

(** The classifier surfaces exactly the numbers of the names it lists. *)
Lemma surfaced_iff (number : Z) :
  Seccomp.surfaced number = true
  <-> exists n, In n surfaced_names /\ to_uint number = Sys.SYSCALL_NAME_TO_NUMBER n.
Proof.
  unfold Seccomp.surfaced. rewrite classify_tests. unfold tests.
  destruct (existsb _ surfaced_names) eqn:E.
  - split; [intros _|reflexivity].
    apply existsb_exists in E. destruct E as [n [Hin Hn]].
    exists n. split; [assumption|]. now apply Z.eqb_eq.
  - split; [discriminate|]. intros [n [Hin Hn]].
    assert (existsb (fun n => to_uint number =? Sys.SYSCALL_NAME_TO_NUMBER n)
                    surfaced_names = true) as E'.
    { apply existsb_exists. exists n. split; [assumption|]. now apply Z.eqb_eq. }
    congruence.
Qed.

End Classifier.

(** The dispatcher has a case exactly for the numbers of the names it lists. *)
Lemma switch_some (value : Z) (cs : list Sys.name) (n : Sys.name) :
  switch value cs = Some n -> In n cs /\ value = Sys.SYSCALL_NAME_TO_NUMBER n.
Proof.
  induction cs as [|c rest IH]; simpl; [discriminate|].
  destruct (value =? Sys.SYSCALL_NAME_TO_NUMBER c) eqn:E.
  - intros H. inversion H; subst. split; [now left|]. now apply Z.eqb_eq.
  - intros H. destruct (IH H) as [Hin Hv]. split; [now right|assumption].
Qed.

Lemma switch_none (value : Z) (cs : list Sys.name) :
  switch value cs = None -> forall n, In n cs -> value <> Sys.SYSCALL_NAME_TO_NUMBER n.
Proof.
  induction cs as [|c rest IH]; simpl; [intros _ n []|].
  destruct (value =? Sys.SYSCALL_NAME_TO_NUMBER c) eqn:E; [discriminate|].
  intros H n [-> | Hin]; [now apply Z.eqb_neq|now apply IH].
Qed.

Lemma dispatched_iff (number : Z) :
  dispatched number = true
  <-> exists n, In n CHECK_AND_CALL_HANDLER /\ number = Sys.SYSCALL_NAME_TO_NUMBER n.
Proof.
  unfold dispatched. destruct (switch number CHECK_AND_CALL_HANDLER) as [n|] eqn:E.
  - split; [intros _|reflexivity]. exists n. now apply switch_some.
  - split; [discriminate|]. intros [n [Hin Hn]].
    exfalso. exact (switch_none _ _ E n Hin Hn).
Qed.

(** The two lists of names differ by [renameat2] only. *)
Lemma surfaced_names_cases (n : Sys.name) :
  In n surfaced_names <-> In n CHECK_AND_CALL_HANDLER \/ n = Sys.renameat2.
Proof.
  split.
  - intros _. destruct n; try (left; simpl; tauto); now right.
  - intros _. destruct n; simpl; tauto.
Qed.

(** Every surfaced syscall other than [renameat2] has its case. *)
Lemma surfaced_dispatched (number : Z) :
  0 <= number < 2 ^ 32 ->
  surfaced number = true ->
  number <> __NR_renameat2 ->
  dispatched number = true.
Proof.
  intros Hrange Hs Hne. apply surfaced_iff in Hs. destruct Hs as [n [Hin Hn]].
  unfold to_uint in Hn. rewrite Z.mod_small in Hn by assumption.
  apply dispatched_iff. exists n. split; [|assumption].
  apply surfaced_names_cases in Hin. destruct Hin as [Hin | ->]; [assumption|].
  now elim Hne.
Qed.

Lemma dispatched_surfaced (number : Z) :
  0 <= number < 2 ^ 32 ->
  dispatched number = true -> surfaced number = true.
Proof.
  intros Hrange Hd. apply dispatched_iff in Hd. destruct Hd as [n [Hin Hn]].
  apply surfaced_iff. exists n. split.
  - apply surfaced_names_cases. now left.
  - unfold to_uint. now rewrite Z.mod_small by assumption.
Qed.

(** C3: the classifier surfaces [renameat2], the [switch] of
    [HandleSysCallGeneric] has no case for it: the call takes the [default]
    branch, which only logs the number, and [Handlerenameat2] is not run.  The
    set of surfaced numbers is therefore not the set of dispatched ones. *)
Theorem renameat2_surfaced_not_dispatched :
  surfaced __NR_renameat2 = true
  /\ dispatched __NR_renameat2 = false
  /\ forall bxl tracee fuel basename s,
       HandleSysCallGeneric bxl tracee fuel basename __NR_renameat2 s
       = Some (tt, logged s [BXL_LOG_DEBUG_unsupported_syscall __NR_renameat2]).
Proof.
  split; [reflexivity|]. split; [reflexivity|]. intros. reflexivity.
Qed.

(** vfork is left out of the filter. *)
Example vfork_not_surfaced : surfaced __NR_vfork = false.
Proof. reflexivity. Qed.

(** ** Opening files: [ReportOpen] *)

(** The event [ReportOpen] builds, as a function of the mode of the path. *)
Lemma ReportOpen_reports (bxl : BxlObserver) (path : string) (oflag : Z) (name : string)
      (s : PTraceSandbox) :
  ReportOpen bxl path oflag name s
  = Some (tt, logged s
      [report_access_event name
         (mkIOEvent (m_traceePid s) 0 0
            (if (get_mode bxl path =? 0) && c_true (Z.land oflag (Z.lor O_CREAT O_TRUNC))
             then ES_EVENT_TYPE_NOTIFY_CREATE else ES_EVENT_TYPE_NOTIFY_OPEN)
            ES_ACTION_TYPE_NOTIFY path "" (GetProgramPath bxl) (get_mode bxl path) false 0)
         true]).
Proof.
  unfold ReportOpen, bind, gets, emit, logged. cbn.
  change (c_eq O_ACCMODE O_WRONLY) with 0. change (c_eq O_ACCMODE O_RDWR) with 0.
  rewrite Z.land_0_r. cbn.
  rewrite negb_involutive, andb_false_r, andb_false_r.
  destruct (get_mode bxl path =? 0); cbn;
    destruct (c_true (Z.land oflag (Z.lor O_CREAT O_TRUNC))); reflexivity.
Qed.

(** [isWrite] is never true: whatever the flags, an existing path is reported
    as NOTIFY_OPEN. *)
Lemma ReportOpen_existing_path (bxl : BxlObserver) (path : string) (oflag : Z)
      (name : string) (s : PTraceSandbox) :
  get_mode bxl path <> 0 ->
  ReportOpen bxl path oflag name s
  = Some (tt, logged s
      [report_access_event name
         (mkIOEvent (m_traceePid s) 0 0 ES_EVENT_TYPE_NOTIFY_OPEN ES_ACTION_TYPE_NOTIFY
                    path "" (GetProgramPath bxl) (get_mode bxl path) false 0)
         true]).
Proof.
  intros Hmode. rewrite ReportOpen_reports.
  apply Z.eqb_neq in Hmode. rewrite Hmode. reflexivity.
Qed.

(** C1: open("/out/log.txt", O_WRONLY | O_TRUNC) on a regular file that exists
    is a writable open of an existing path, for which NOTIFY_WRITE is
    claimed; [Handleopen] reports NOTIFY_OPEN. *)
Theorem open_existing_for_writing_reports_open :
  Handleopen Scenario.log_exists Scenario.open_for_writing 8 Scenario.tracer
  = Some (tt, logged Scenario.tracer
      [report_access_event "open"
         (mkIOEvent 4242 0 0 ES_EVENT_TYPE_NOTIFY_OPEN ES_ACTION_TYPE_NOTIFY
                    "/out/log.txt" "" "/usr/bin/make" Scenario.regular_file false 0)
         true]).
Proof. vm_compute. reflexivity. Qed.

(** ** The error code of mkdir, mkdirat and rmdir: [GetErrno] *)

Lemma to_ulong_opp (e : Z) : 0 < e <= 2 ^ 64 -> to_ulong (- e) = 2 ^ 64 - e.
Proof.
  intros He. unfold to_ulong. symmetry.
  apply (Z.mod_unique (- e) (2 ^ 64) (-1)); lia.
Qed.

Lemma to_long_opp (e : Z) : 0 < e <= 2 ^ 63 -> to_long (2 ^ 64 - e) = - e.
Proof.
  intros He. unfold to_long.
  rewrite <- (Z.mod_unique (2 ^ 64 - e + 2 ^ 63) (2 ^ 64) 1 (2 ^ 63 - e)); lia.
Qed.

(** A syscall that fails with errno [e] leaves [-e] in the return register;
    the value reported is [e - 1]. *)
Lemma GetErrno_of_errno (tracee : Tracee) (s : PTraceSandbox) (e : Z) :
  0 < e < 4096 ->
  peekuser tracee (stops s) (sizeof_long * RAX) = - e ->
  GetErrno tracee s = Some (e - 1, s).
Proof.
  intros He Hrax. unfold GetErrno, ReadArgumentLong, bind, gets, ret.
  change (GetArgumentAddr 0) with (sizeof_long * RAX). rewrite Hrax.
  rewrite to_ulong_opp by lia. rewrite to_long_opp by lia.
  rewrite to_ulong_opp by lia.
  destruct (- e =? 0) eqn:E; [apply Z.eqb_eq in E; lia|].
  do 3 f_equal. unfold to_ulong, to_int.
  replace (18446744073709551615 - (2 ^ 64 - e)) with (e - 1) by lia.
  rewrite (Z.mod_small (e - 1)) by lia.
  rewrite Z.mod_small by lia. lia.
Qed.

Lemma GetErrno_of_success (tracee : Tracee) (s : PTraceSandbox) :
  peekuser tracee (stops s) (sizeof_long * RAX) = 0 ->
  GetErrno tracee s = Some (0, s).
Proof.
  intros Hrax. unfold GetErrno, ReadArgumentLong, bind, gets, ret.
  change (GetArgumentAddr 0) with (sizeof_long * RAX). rewrite Hrax. reflexivity.
Qed.

(** C2: a mkdir that fails with EPERM returns -1; the value [GetErrno] derives
    from it is [~0 - (-1) = 0], and the NOTIFY_CREATE event of [Handlemkdir]
    carries error 0 although the return value was not 0. *)
Theorem mkdir_EPERM_reports_error_zero :
  Handlemkdir Scenario.nothing_exists Scenario.mkdir_fails_EPERM 8 Scenario.tracer
  = Some (tt, mkSandbox 4242 [(4242, "/usr/bin/make")] 1
      [PTRACE_SYSCALL 4242 0; waitpid 4242;
       report_access_event "mkdir"
         (mkIOEvent 4242 0 0 ES_EVENT_TYPE_NOTIFY_CREATE ES_ACTION_TYPE_NOTIFY
                    "/sys/kernel/x" "" "/usr/bin/make" S_IFDIR false 0)
         false]).
Proof. vm_compute. reflexivity. Qed.

(** ** Reading strings from the tracee: [ReadArgumentStringAtAddr] *)

Section Reader.

Variable tracee : Tracee.

(** Without NUL termination and without a positive length, the [for] loop
    over a word never sets [finishedReadingArgument]. *)
Lemma read_word_unbounded (n : nat) :
  forall (i : nat) (word length : Z) (argument : string) (count : Z),
    length <= 0 ->
    snd (read_word n i word false length argument count) = false.
Proof.
  induction n as [|n IH]; intros i word length argument count Hlen; [reflexivity|].
  cbn [read_word]. cbn [andb orb].
  replace (0 <? length) with false by (symmetry; apply Z.ltb_ge; lia).
  cbn [andb]. now apply IH.
Qed.

Lemma word_address_S (addr : Z) (k : nat) :
  word_address (to_ulong (addr + sizeof_long)) k = word_address addr (S k).
Proof.
  unfold word_address. induction k as [|k IH]; [reflexivity|].
  change (to_ulong (Nat.iter k (fun a => to_ulong (a + sizeof_long))
                             (to_ulong (addr + sizeof_long)) + sizeof_long)
          = Nat.iter (S (S k)) (fun a => to_ulong (a + sizeof_long)) addr).
  now rewrite IH.
Qed.

(** The loop returns within [steps] rounds exactly when one of the first
    [steps] words peeked is -1. *)
Lemma unbounded_loop_returns (length : Z) (Hlen : length <= 0) (steps : nat) :
  forall (addr : Z) (argument : string) (count : Z),
    (exists r, ReadArgumentStringAtAddr_loop tracee steps addr false length argument count
               = Some r)
    <-> exists k, (k < steps)%nat /\ peektext tracee (word_address addr k) = -1.
Proof.
  induction steps as [|steps IH]; intros addr argument count.
  - split; [intros [r H]; discriminate|intros [k [Hk _]]; lia].
  - cbn [ReadArgumentStringAtAddr_loop].
    destruct (peektext tracee addr =? -1) eqn:E.
    + split; [intros _|intros _; eexists; reflexivity].
      exists O. split; [lia|]. now apply Z.eqb_eq.
    + pose proof (read_word_unbounded 8 0 (peektext tracee addr) length argument count Hlen)
        as Hword.
      destruct (read_word 8 0 (peektext tracee addr) false length argument count)
        as [[argument' count'] finished].
      cbn [snd] in Hword. subst finished.
      rewrite IH. split.
      * intros [k [Hk Hpeek]]. exists (S k). split; [lia|].
        now rewrite <- word_address_S.
      * intros [k [Hk Hpeek]]. destruct k as [|k].
        -- cbn in Hpeek. apply Z.eqb_neq in E. contradiction.
        -- exists k. split; [lia|]. now rewrite word_address_S.
Qed.

End Reader.

(** C10: with [nullTerminated = false] and [length <= 0] neither test of the
    [for] loop can succeed; the read returns only when a peeked word is -1,
    and on a memory none of whose words reads as -1 no number of rounds makes
    it return. *)
Theorem unterminated_read_returns_only_on_minus_one
        (tracee : Tracee) (syscall : string) (addr length : Z) :
  length <= 0 ->
  (forall n i word argument count,
      snd (read_word n i word false length argument count) = false)
  /\ (forall fuel r,
        ReadArgumentStringAtAddr tracee fuel syscall addr false length = Some r ->
        exists k, (k < fuel)%nat /\ peektext tracee (word_address addr k) = -1)
  /\ ((forall a, peektext tracee a <> -1) ->
       forall fuel, ReadArgumentStringAtAddr tracee fuel syscall addr false length = None).
Proof.
  intros Hlen. split; [|split].
  - intros. now apply read_word_unbounded.
  - intros fuel r H. apply (unbounded_loop_returns tracee length Hlen fuel addr "" 0).
    now exists r.
  - intros Hmem fuel. unfold ReadArgumentStringAtAddr.
    destruct (ReadArgumentStringAtAddr_loop tracee fuel addr false length "" 0) as [r|] eqn:E;
      [|reflexivity].
    assert (exists r, ReadArgumentStringAtAddr_loop tracee fuel addr false length "" 0 = Some r)
      as H by now exists r.
    apply (unbounded_loop_returns tracee length Hlen) in H.
    destruct H as [k [_ Hk]]. now elim (Hmem (word_address addr k)).
Qed.

Lemma unterminated_read_witness :
  0 <= 0
  /\ ReadArgumentStringAtAddr Scenario.zero_memory 1000 "read" 4096 false 0 = None.
Proof.
  split; [lia|].
  apply (unterminated_read_returns_only_on_minus_one
           Scenario.zero_memory "read" 4096 0); [lia|].
  intros a. vm_compute. discriminate.
Defined.

(** A string read up to its NUL holds no NUL. *)
Section NulTerminated.

Variable tracee : Tracee.

Lemma has_nul_push_back (s : string) (c : ascii) :
  has_nul (push_back s c) = has_nul s || Ascii.eqb c zero.
Proof.
  unfold push_back. induction s as [|d s IH]; cbn.
  - now rewrite orb_false_r.
  - now rewrite IH, orb_assoc.
Qed.

Lemma read_word_no_nul (n : nat) :
  forall (i : nat) (word length : Z) (argument : string) (count : Z),
    has_nul argument = false ->
    has_nul (fst (fst (read_word n i word true length argument count))) = false.
Proof.
  induction n as [|n IH]; intros i word length argument count Harg; [assumption|].
  cbn [read_word]. cbn [andb].
  destruct (Ascii.eqb (byte_of_word word i) zero) eqn:E; [assumption|].
  cbn [orb]. destruct ((0 <? length) && (count =? length)); [assumption|].
  apply IH. now rewrite has_nul_push_back, Harg, E.
Qed.

Lemma ReadArgumentStringAtAddr_loop_no_nul (steps : nat) :
  forall (addr length : Z) (argument : string) (count : Z) (r : string),
    has_nul argument = false ->
    ReadArgumentStringAtAddr_loop tracee steps addr true length argument count = Some r ->
    has_nul r = false.
Proof.
  induction steps as [|steps IH]; intros addr length argument count r Harg; [discriminate|].
  cbn [ReadArgumentStringAtAddr_loop].
  destruct (peektext tracee addr =? -1); [intros H; now inversion H; subst|].
  pose proof (read_word_no_nul 8 0 (peektext tracee addr) length argument count Harg)
    as Hword.
  destruct (read_word 8 0 (peektext tracee addr) true length argument count)
    as [[argument' count'] finished].
  cbn [fst] in Hword. destruct finished; [intros H; now inversion H; subst|].
  now apply IH.
Qed.

Lemma ReadArgumentString_inv (fuel : nat) (syscall : string) (i : Z) (nt : bool)
      (length : Z) (s s' : PTraceSandbox) (r : string) :
  ReadArgumentString tracee fuel syscall i nt length s = Some (r, s') ->
  s' = s /\ ReadArgumentStringAtAddr tracee fuel syscall (argument tracee s i) nt length
            = Some r.
Proof.
  unfold ReadArgumentString, bind, gets, lift, argument.
  destruct (ReadArgumentStringAtAddr tracee fuel syscall _ nt length) as [r'|];
    [|discriminate].
  intros H. inversion H; subst. now split.
Qed.

Lemma ReadArgumentString_no_nul (fuel : nat) (syscall : string) (i length : Z)
      (s s' : PTraceSandbox) (r : string) :
  ReadArgumentString tracee fuel syscall i true length s = Some (r, s') ->
  has_nul r = false.
Proof.
  intros H. apply ReadArgumentString_inv in H. destruct H as [_ H].
  unfold ReadArgumentStringAtAddr in H.
  revert H. now apply ReadArgumentStringAtAddr_loop_no_nul.
Qed.

Lemma front_nul (r : string) : has_nul r = false -> (Ascii.eqb (front r) zero = true <-> r = "").
Proof.
  destruct r as [|c r]; cbn; intros H.
  - split; reflexivity.
  - apply orb_false_elim in H. destruct H as [H _]. rewrite H.
    split; discriminate.
Qed.

(** With NUL termination the [for] loop finishes on a word one of whose
    remaining bytes is NUL. *)
Lemma read_word_finishes (n : nat) :
  forall (i : nat) (word length : Z) (argument : string) (count : Z),
    (exists j, (i <= j < i + n)%nat /\ Ascii.eqb (byte_of_word word j) zero = true) ->
    snd (read_word n i word true length argument count) = true.
Proof.
  induction n as [|n IH]; intros i word length argument count [j [Hj Hnul]]; [lia|].
  cbn [read_word]. cbn [andb].
  destruct (Ascii.eqb (byte_of_word word i) zero) eqn:E; [reflexivity|].
  cbn [orb]. destruct ((0 <? length) && (count =? length)); [reflexivity|].
  apply IH. exists j. split; [|assumption].
  assert (j <> i) by (intros ->; congruence). lia.
Qed.

(** The read of a NUL-terminated string returns within [steps] rounds when
    one of the first [steps] words holds a NUL or reads as -1. *)
Lemma nul_terminated_loop_returns (steps : nat) :
  forall (addr length : Z) (argument : string) (count : Z),
    (exists k, (k < steps)%nat
               /\ (peektext tracee (word_address addr k) = -1
                   \/ word_has_nul (peektext tracee (word_address addr k)) = true)) ->
    exists r, ReadArgumentStringAtAddr_loop tracee steps addr true length argument count
              = Some r.
Proof.
  induction steps as [|steps IH]; intros addr length argument count [k [Hk Hword]]; [lia|].
  cbn [ReadArgumentStringAtAddr_loop].
  destruct (peektext tracee addr =? -1) eqn:E; [now eexists|].
  destruct (read_word 8 0 (peektext tracee addr) true length argument count)
    as [[argument' count'] finished] eqn:Eword.
  destruct finished; [now eexists|].
  apply IH. destruct k as [|k].
  - exfalso. change (word_address addr 0) with addr in Hword.
    destruct Hword as [Hfault|Hnul].
    + apply Z.eqb_neq in E. contradiction.
    + unfold word_has_nul in Hnul.
      apply existsb_exists in Hnul. destruct Hnul as [j [Hj Hzero]].
      apply in_seq in Hj.
      pose proof (read_word_finishes 8 0 (peektext tracee addr) length argument count
                    (ex_intro _ j (conj Hj Hzero))) as Hfin.
      rewrite Eword in Hfin. discriminate.
  - exists k. split; [lia|]. now rewrite word_address_S.
Qed.

Lemma ReadArgumentString_returns (fuel : nat) (syscall : string) (i length : Z)
      (s : PTraceSandbox) :
  (exists k, (k < fuel)%nat
             /\ (peektext tracee (word_address (argument tracee s i) k) = -1
                 \/ word_has_nul (peektext tracee (word_address (argument tracee s i) k))
                    = true)) ->
  exists r, ReadArgumentString tracee fuel syscall i true length s = Some (r, s).
Proof.
  intros Hmem.
  destruct (nul_terminated_loop_returns fuel _ length "" 0 Hmem) as [r Hr].
  exists r. unfold ReadArgumentString, bind, gets, lift, ReadArgumentStringAtAddr.
  fold (argument tracee s i). now rewrite Hr.
Qed.

End NulTerminated.

(** ** Running a handler step by step *)

Lemma bind_run {A B : Type} (m : M A) (k : A -> M B) (s s' : PTraceSandbox) (a : A) :
  m s = Some (a, s') -> bind m k s = k a s'.
Proof. unfold bind. now intros ->. Qed.

Lemma bind_stuck {A B : Type} (m : M A) (k : A -> M B) (s : PTraceSandbox) :
  m s = None -> bind m k s = None.
Proof. unfold bind. now intros ->. Qed.

Lemma ReadArgumentLong_run (tracee : Tracee) (i : Z) (s : PTraceSandbox) :
  ReadArgumentLong tracee i s = Some (argument tracee s i, s).
Proof. reflexivity. Qed.

Lemma emit_run (a : Action) (s : PTraceSandbox) : emit a s = Some (tt, logged s [a]).
Proof. reflexivity. Qed.

Lemma gets_run {A : Type} (f : PTraceSandbox -> A) (s : PTraceSandbox) :
  gets f s = Some (f s, s).
Proof. reflexivity. Qed.

Lemma logged_logged (s : PTraceSandbox) (l1 l2 : list Action) :
  logged (logged s l1) l2 = logged s (l1 ++ l2).
Proof. unfold logged. cbn. now rewrite app_assoc. Qed.

Lemma logged_nil (s : PTraceSandbox) : logged s [] = s.
Proof. destruct s. unfold logged. cbn. now rewrite app_nil_r. Qed.

Lemma bind_assoc {A B C : Type} (m : M A) (f : A -> M B) (g : B -> M C)
      (s : PTraceSandbox) :
  bind (bind m f) g s = bind m (fun a => bind (f a) g) s.
Proof. unfold bind. destruct (m s) as [[a s']|]; reflexivity. Qed.

Lemma ret_run {A B : Type} (a : A) (k : A -> M B) (s : PTraceSandbox) :
  bind (ret a) k s = k a s.
Proof. reflexivity. Qed.

Lemma FindProcess_run (pid : Z) (s : PTraceSandbox) :
  FindProcess pid s = Some (find_index pid (m_traceeTable s) 0, s).
Proof. reflexivity. Qed.

Lemma table_push_back_run (pid : Z) (exe : string) (s : PTraceSandbox) :
  table_push_back pid exe s
  = Some (tt, mkSandbox (m_traceePid s) (m_traceeTable s ++ [(pid, exe)]) (stops s) (out s)).
Proof. reflexivity. Qed.

Lemma set_table_run (table : list (Z * string)) (s : PTraceSandbox) :
  set_table table s = Some (tt, mkSandbox (m_traceePid s) table (stops s) (out s)).
Proof. reflexivity. Qed.

Lemma resume_and_wait_run (tracee : Tracee) (s : PTraceSandbox) :
  resume_and_wait tracee s
  = Some (wait_status tracee (S (stops s)),
          mkSandbox (m_traceePid s) (m_traceeTable s) (S (stops s))
                    (out s ++ [PTRACE_SYSCALL (m_traceePid s) 0; waitpid (m_traceePid s)])).
Proof.
  unfold resume_and_wait, bind, gets, emit, next_stop, ret. cbn.
  now rewrite <- app_assoc.
Qed.

(** One step of a handler whose next action is a register read, a field
    read, a report, a look-up in the table, or a read already known to
    succeed. *)
Ltac step :=
  match goal with
  | |- context [bind (bind ?m ?f) ?g ?s] => rewrite (bind_assoc m f g s)
  | |- context [bind (ret ?a) ?k ?s] => rewrite (ret_run a k s)
  | |- context [bind (FindProcess ?p) ?k ?s] =>
      rewrite (bind_run (FindProcess p) k s s _ (FindProcess_run p s))
  | |- context [bind (resume_and_wait ?t) ?k ?s] =>
      rewrite (bind_run (resume_and_wait t) k s _ _ (resume_and_wait_run t s))
  | |- context [bind (ReadArgumentLong ?t ?i) ?k ?s] =>
      rewrite (bind_run (ReadArgumentLong t i) k s s _ (ReadArgumentLong_run t i s))
  | |- context [bind (gets ?f) ?k ?s] =>
      rewrite (bind_run (gets f) k s s _ (gets_run f s))
  | |- context [bind (emit ?a) ?k ?s] =>
      rewrite (bind_run (emit a) k s _ _ (emit_run a s))
  | H : ?m ?s = Some (?a, ?s') |- context [bind ?m ?k ?s] =>
      rewrite (bind_run m k s s' a H)
  end; cbv beta.

(** ** unlinkat and readlinkat *)

(** [Handleunlinkat] as it is written: it reports NOTIFY_UNLINK when the
    dirfd register differs from [AT_FDCWD] converted to [unsigned long] and
    the decoded path is not empty; it reports nothing for an empty path, and
    nothing when the dirfd register holds that value. *)
Theorem unlinkat_reports_unless_cwd_or_empty
        (tracee : Tracee) (fuel : nat) (s : PTraceSandbox) (path : string) :
  ReadArgumentString tracee fuel "unlinkat" 2 true 0 s = Some (path, s) ->
  exists s',
    Handleunlinkat tracee fuel s = Some (tt, s')
    /\ (argument tracee s 1 <> to_ulong AT_FDCWD -> path <> "" ->
        out s' = out s ++
          [report_access_at "unlinkat" ES_EVENT_TYPE_NOTIFY_UNLINK (argument tracee s 1) path
             (if c_true (Z.land (argument tracee s 3) AT_REMOVEDIR) then 0 else O_NOFOLLOW)
             false (m_traceePid s) 0])
    /\ (path = "" -> out s' = out s)
    /\ (argument tracee s 1 = to_ulong AT_FDCWD -> out s' = out s).
Proof.
  intros Hread.
  pose proof (ReadArgumentString_no_nul _ _ _ _ _ _ _ _ Hread) as Hnul.
  apply front_nul in Hnul.
  unfold Handleunlinkat. repeat step.
  destruct (argument tracee s 1 =? to_ulong AT_FDCWD) eqn:Efd;
    destruct (Ascii.eqb (front path) zero) eqn:Epath; cbn [negb andb].
  - exists s. repeat split; try reflexivity.
    intros Hfd. apply Z.eqb_eq in Efd. contradiction.
  - exists s. repeat split; try reflexivity.
    intros Hfd. apply Z.eqb_eq in Efd. contradiction.
  - exists s. repeat split; try reflexivity.
    intros _ Hpath. elim Hpath. now apply Hnul.
  - eexists. split; [apply emit_run|]. cbn [out logged]. repeat split.
    + intros Hpath. apply Hnul in Hpath. congruence.
    + intros Hfd. apply Z.eqb_neq in Efd. contradiction.
Qed.

Lemma unlinkat_reports_witness :
  ReadArgumentString Scenario.unlinkat_dirfd 8 "unlinkat" 2 true 0 Scenario.tracer
  = Some ("stale.o", Scenario.tracer)
  /\ exists s',
      Handleunlinkat Scenario.unlinkat_dirfd 8 Scenario.tracer = Some (tt, s')
      /\ (argument Scenario.unlinkat_dirfd Scenario.tracer 1 <> to_ulong AT_FDCWD ->
          "stale.o" <> "" ->
          out s' = out Scenario.tracer ++
            [report_access_at "unlinkat" ES_EVENT_TYPE_NOTIFY_UNLINK
               (argument Scenario.unlinkat_dirfd Scenario.tracer 1) "stale.o"
               (if c_true (Z.land (argument Scenario.unlinkat_dirfd Scenario.tracer 3)
                                  AT_REMOVEDIR)
                then 0 else O_NOFOLLOW)
               false (m_traceePid Scenario.tracer) 0])
      /\ ("stale.o" = "" -> out s' = out Scenario.tracer)
      /\ (argument Scenario.unlinkat_dirfd Scenario.tracer 1 = to_ulong AT_FDCWD ->
          out s' = out Scenario.tracer).
Proof.
  split; [reflexivity|].
  apply (unlinkat_reports_unless_cwd_or_empty Scenario.unlinkat_dirfd 8 Scenario.tracer).
  reflexivity.
Defined.

(** The report for every non-empty path does not hold of the code:
    unlinkat(AT_FDCWD, "stale.o", 0) has a non-empty path and nothing is
    reported. *)
Lemma unlinkat_at_cwd_not_reported : ~ unlinkat_reports_iff_path_nonempty.
Proof.
  intros claim.
  destruct (claim Scenario.unlinkat_cwd 8%nat Scenario.tracer "stale.o" eq_refl)
    as [s' [Hrun [Hreport _]]].
  vm_compute in Hrun. inversion Hrun; subst s'.
  destruct Hreport as [dirfd [oflags Hout]]; [discriminate|].
  cbn in Hout. discriminate.
Qed.

(** C5: the code diverges from the claim.  unlinkat(AT_FDCWD, "stale.o", 0)
    has the non-empty path "stale.o", yet with the descriptor sign-extended in
    the register [Handleunlinkat] returns with nothing reported: the guard
    [dirfd != AT_FDCWD] compares the 64-bit register with [AT_FDCWD] converted
    to [unsigned long].  The same call with the descriptor zero-extended in
    the register is reported, and so is unlink("stale.o") by [Handleunlink]:
    the deletion of one file relative to the working directory is reported or
    not by the upper half of a register the kernel does not read. *)
Theorem unlinkat_at_cwd_is_dropped :
  ReadArgumentString Scenario.unlinkat_cwd 8 "unlinkat" 2 true 0 Scenario.tracer
  = Some ("stale.o", Scenario.tracer)
  /\ Handleunlinkat Scenario.unlinkat_cwd 8 Scenario.tracer = Some (tt, Scenario.tracer)
  /\ Handleunlinkat Cases.unlinkat_cwd_zero_extended 8 Scenario.tracer
     = Some (tt, logged Scenario.tracer
         [report_access_at "unlinkat" ES_EVENT_TYPE_NOTIFY_UNLINK 4294967196 "stale.o"
                           O_NOFOLLOW false 4242 0])
  /\ Handleunlink Cases.unlink_stale 8 Scenario.tracer
     = Some (tt, logged Scenario.tracer
         [report_access "unlink" ES_EVENT_TYPE_NOTIFY_UNLINK "stale.o" 0 O_NOFOLLOW 0
                        true 4242]).
Proof.
  split; [reflexivity|]. split; [reflexivity|]. split; reflexivity.
Qed.

(** C9, as amended: [Handlereadlinkat] forwards one NOTIFY_READLINK request
    for the fd and the path to [report_access_at], whatever the fd resolves
    to; it does not look the fd up. *)
Theorem readlinkat_always_reports
        (tracee : Tracee) (fuel : nat) (s : PTraceSandbox) (path : string) :
  ReadArgumentString tracee fuel "readlinkat" 2 true 0 s = Some (path, s) ->
  Handlereadlinkat tracee fuel s
  = Some (tt, logged s
      [report_access_at "readlinkat" ES_EVENT_TYPE_NOTIFY_READLINK (argument tracee s 1)
                        path O_NOFOLLOW false (m_traceePid s) 0]).
Proof.
  intros Hread. unfold Handlereadlinkat. repeat step. apply emit_run.
Qed.

Lemma readlinkat_always_reports_witness :
  ReadArgumentString Scenario.readlinkat_pipe 8 "readlinkat" 2 true 0 Scenario.tracer
  = Some ("x", Scenario.tracer)
  /\ Handlereadlinkat Scenario.readlinkat_pipe 8 Scenario.tracer
     = Some (tt, logged Scenario.tracer
         [report_access_at "readlinkat" ES_EVENT_TYPE_NOTIFY_READLINK
                           (argument Scenario.readlinkat_pipe Scenario.tracer 1)
                           "x" O_NOFOLLOW false (m_traceePid Scenario.tracer) 0]).
Proof.
  split; [reflexivity|].
  apply (readlinkat_always_reports Scenario.readlinkat_pipe 8 Scenario.tracer "x").
  reflexivity.
Defined.

(** C9, as stated, fails: readlinkat(3, "x", ...) where descriptor 3 is a
    pipe, "pipe:[81234]", is reported. *)
Lemma readlinkat_on_pipe_reported : ~ readlinkat_silent_for_non_path_fd.
Proof.
  intros claim.
  destruct (claim Scenario.pipe_fd Scenario.readlinkat_pipe 8%nat Scenario.tracer "x" eq_refl)
    as [s' [Hrun Hout]].
  - vm_compute. discriminate.
  - vm_compute in Hrun. inversion Hrun; subst s'. cbn in Hout. discriminate.
Qed.

(** ** Renames: [HandleRenameGeneric] *)

Lemma drop_append (old rest : string) : drop (String.length old) (old ++ rest) = rest.
Proof. induction old as [|c old IH]; [reflexivity|exact IH]. Qed.

(** [replace] puts the new root in place of the old root of a path under
    it. *)
Lemma replace0_prefix (old new rest : string) :
  replace0 (String.length old) new (old ++ rest) = (new ++ rest)%string.
Proof. unfold replace0. now rewrite drop_append. Qed.

Lemma prefix_split (old : string) :
  forall path, String.prefix old path = true ->
               path = (old ++ drop (String.length old) path)%string.
Proof.
  induction old as [|c old IH]; intros path Hp; [reflexivity|].
  destruct path as [|d path]; [discriminate|].
  cbn in Hp. destruct (ascii_dec c d) as [->|]; [|discriminate].
  cbn. f_equal. now apply IH.
Qed.

(** A loop whose body only reports, for a tracer handling a given pid. *)
Lemma for_each_run {A : Type} (pid : Z) (body : A -> M unit) (f : A -> list Action)
      (l : list A) :
  (forall x s, In x l -> m_traceePid s = pid -> body x s = Some (tt, logged s (f x))) ->
  forall s, m_traceePid s = pid -> for_each l body s = Some (tt, logged s (flat_map f l)).
Proof.
  induction l as [|x l IH]; intros Hbody s Hpid.
  - cbn. now rewrite logged_nil.
  - cbn [for_each flat_map].
    rewrite (bind_run _ _ _ _ _ (Hbody x s (or_introl eq_refl) Hpid)).
    rewrite IH by (try (intros; apply Hbody; [now right|assumption]); exact Hpid).
    now rewrite logged_logged.
Qed.

Lemma HandleRenameGeneric_directory
      (bxl : BxlObserver) (syscall : string) (olddirfd : Z) (oldpath : string)
      (newdirfd : Z) (newpath : string) (s : PTraceSandbox) (entries : list string) :
  let pid := m_traceePid s in
  let oldStr := normalize_path_at bxl olddirfd oldpath O_NOFOLLOW pid in
  let newStr := normalize_path_at bxl newdirfd newpath O_NOFOLLOW pid in
  S_ISDIR (get_mode bxl oldStr) = true ->
  EnumerateDirectory bxl oldStr true = (true, entries) ->
  HandleRenameGeneric bxl syscall olddirfd oldpath newdirfd newpath s
  = Some (tt, logged s (pairs_log (map (entry_reports bxl syscall pid oldStr newStr) entries))).
Proof.
  intros pid oldStr newStr Hdir Henum.
  unfold HandleRenameGeneric. step. fold pid oldStr newStr.
  rewrite Hdir, Henum.
  unfold pairs_log. rewrite flat_map_concat_map, map_map, <- flat_map_concat_map.
  apply (for_each_run pid); [|reflexivity]. intros entry s' _ Hpid. step.
  rewrite ReportOpen_reports, logged_logged. cbn [logged m_traceePid]. rewrite Hpid.
  change (c_true (Z.land O_CREAT (Z.lor O_CREAT O_TRUNC))) with true.
  rewrite andb_true_r. reflexivity.
Qed.

(** C4, as amended: for a rename whose source is a directory with [N]
    enumerated entries under the old root, the handler reports exactly [N]
    pairs, in order: NOTIFY_UNLINK of the entry, then the report of the entry
    with the old root replaced by the new root, which is NOTIFY_CREATE when
    that destination does not exist before the call and NOTIFY_OPEN when it
    does. *)
Theorem rename_directory_reports_pairs
        (bxl : BxlObserver) (syscall : string) (olddirfd : Z) (oldpath : string)
        (newdirfd : Z) (newpath : string) (s : PTraceSandbox) (entries : list string) :
  let pid := m_traceePid s in
  let oldStr := normalize_path_at bxl olddirfd oldpath O_NOFOLLOW pid in
  let newStr := normalize_path_at bxl newdirfd newpath O_NOFOLLOW pid in
  S_ISDIR (get_mode bxl oldStr) = true ->
  EnumerateDirectory bxl oldStr true = (true, entries) ->
  forallb (String.prefix oldStr) entries = true ->
  exists pairs,
    HandleRenameGeneric bxl syscall olddirfd oldpath newdirfd newpath s
    = Some (tt, logged s (pairs_log pairs))
    /\ length pairs = length entries
    /\ Forall2 (fun entry pair =>
                  exists rest,
                    entry = (oldStr ++ rest)%string
                    /\ unlink_report syscall pid entry (fst pair)
                    /\ open_report (destination_kind bxl (newStr ++ rest)) syscall pid
                                   (newStr ++ rest)%string (snd pair))
               entries pairs.
Proof.
  intros pid oldStr newStr Hdir Henum Hprefix.
  exists (map (entry_reports bxl syscall pid oldStr newStr) entries).
  split; [now apply HandleRenameGeneric_directory|].
  split; [apply length_map|].
  clear Henum. induction entries as [|entry entries IH]; [constructor|].
  cbn [forallb] in Hprefix. apply andb_prop in Hprefix. destruct Hprefix as [Hp Hrest].
  cbn [map]. constructor; [|now apply IH].
  exists (drop (String.length oldStr) entry).
  pose proof (prefix_split oldStr entry Hp) as Hsplit.
  split; [assumption|]. split.
  - now exists (get_mode bxl entry).
  - unfold entry_reports, replace0. cbn [snd]. eexists. split; [reflexivity|].
    now repeat split.
Qed.

Lemma rename_directory_reports_pairs_witness :
  exists pairs,
    HandleRenameGeneric Scenario.rename_fresh "rename" AT_FDCWD "/src/a" AT_FDCWD "/src/b"
                        Scenario.tracer
    = Some (tt, logged Scenario.tracer (pairs_log pairs))
    /\ length pairs = 1%nat
    /\ Forall2 (fun entry pair =>
                  exists rest,
                    entry = ("/src/a" ++ rest)%string
                    /\ unlink_report "rename" 4242 entry (fst pair)
                    /\ open_report (destination_kind Scenario.rename_fresh ("/src/b" ++ rest))
                                   "rename" 4242 ("/src/b" ++ rest)%string (snd pair))
               ["/src/a/f"] pairs.
Proof.
  exact (rename_directory_reports_pairs
           Scenario.rename_fresh "rename" AT_FDCWD "/src/a" AT_FDCWD "/src/b"
           Scenario.tracer ["/src/a/f"] eq_refl eq_refl eq_refl).
Defined.

(** The scenario of the specification: NOTIFY_UNLINK a/f, then NOTIFY_CREATE
    b/f. *)
Example rename_fresh_reports :
  HandleRenameGeneric Scenario.rename_fresh "rename" AT_FDCWD "/src/a" AT_FDCWD "/src/b"
                      Scenario.tracer
  = Some (tt, logged Scenario.tracer
      [report_access "rename" ES_EVENT_TYPE_NOTIFY_UNLINK "/src/a/f" Scenario.regular_file
                     O_NOFOLLOW 0 true 4242;
       report_access_event "rename"
         (mkIOEvent 4242 0 0 ES_EVENT_TYPE_NOTIFY_CREATE ES_ACTION_TYPE_NOTIFY
                    "/src/b/f" "" "/usr/bin/make" 0 false 0)
         true]).
Proof. vm_compute. reflexivity. Qed.

(** C4, as stated, fails: when /src/b/f exists before rename("/src/a",
    "/src/b"), the report at the destination is NOTIFY_OPEN, not a create. *)
Lemma rename_onto_existing_reports_open : ~ rename_directory_emits_unlink_create_pairs.
Proof.
  intros claim.
  destruct (claim Scenario.rename_onto_existing "rename" AT_FDCWD "/src/a" AT_FDCWD "/src/b"
                  Scenario.tracer ["/src/a/f"] eq_refl eq_refl eq_refl)
    as [pairs [Hrun [Hlen Hall]]].
  destruct pairs as [|[unlinked created] [|]]; try discriminate Hlen.
  rewrite (HandleRenameGeneric_directory Scenario.rename_onto_existing "rename"
             AT_FDCWD "/src/a" AT_FDCWD "/src/b" Scenario.tracer ["/src/a/f"]
             eq_refl eq_refl) in Hrun.
  inversion Hall as [|entry pair entries rest [tail [_ [_ Hcreate]]] _]; subst.
  destruct Hcreate as [event [Hevent [Hkind _]]].
  cbn [snd] in Hevent. subst created.
  unfold logged, pairs_log in Hrun. cbn [map flat_map fst snd app] in Hrun.
  vm_compute in Hrun. inversion Hrun as [[Hunlink Hopen]].
  rewrite <- Hopen in Hkind. discriminate Hkind.
Qed.

(** The same rename made with renameat2 and surfaced by the classifier: the
    loop logs the number and resumes the tracee, nothing is reported. *)
Example renameat2_stop_is_ignored :
  event_loop Scenario.rename_fresh 8 Scenario.basename
             [Scenario.seccomp_stop_of 4242 Scenario.renameat2_a_b] Scenario.attached
  = Some (loop_continue,
          logged Scenario.attached
                 [BXL_LOG_DEBUG_unsupported_syscall __NR_renameat2; PTRACE_CONT 4242]).
Proof. vm_compute. reflexivity. Qed.

(** ** The process table *)

Lemma find_index_none (pid : Z) (table : list (Z * string)) :
  forall i, find_index pid table i = None <-> ~ In pid (map fst table).
Proof.
  induction table as [|item table IH]; intros i; cbn.
  - split; [intros _ []|reflexivity].
  - destruct (fst item =? pid) eqn:E.
    + split; [discriminate|]. intros H. elim H. left. now apply Z.eqb_eq.
    + rewrite IH. apply Z.eqb_neq in E. tauto.
Qed.

Lemma find_index_some (pid : Z) (table : list (Z * string)) :
  forall i j, find_index pid table i = Some j -> In pid (map fst table).
Proof.
  induction table as [|item table IH]; intros i j; cbn; [discriminate|].
  destruct (fst item =? pid) eqn:E.
  - intros _. left. now apply Z.eqb_eq.
  - intros H. right. now apply (IH _ _ H).
Qed.

(** An exec of a pid the table does not hold: the synthetic fork report of
    the pid, then the new entry. *)
Lemma UpdateTraceeTableForExec_unknown (exePath : string) (s : PTraceSandbox) :
  find_index (m_traceePid s) (m_traceeTable s) 0 = None ->
  UpdateTraceeTableForExec exePath s
  = Some (tt, mkSandbox (m_traceePid s) (m_traceeTable s ++ [(m_traceePid s, exePath)])
                        (stops s)
                        (out s ++ [report_access_event "vfork"
                                     (mkIOEvent (m_traceePid s) (m_traceePid s) 0
                                        ES_EVENT_TYPE_NOTIFY_FORK ES_ACTION_TYPE_NOTIFY
                                        exePath "" exePath 0 false 0)
                                     false])).
Proof.
  intros Hfind. unfold UpdateTraceeTableForExec. repeat step.
  rewrite Hfind. step. rewrite table_push_back_run. reflexivity.
Qed.

(** An exec of a pid the table holds: the path of its first entry changes,
    nothing is reported. *)
Lemma UpdateTraceeTableForExec_known (exePath : string) (s : PTraceSandbox) (i : nat) :
  find_index (m_traceePid s) (m_traceeTable s) 0 = Some i ->
  UpdateTraceeTableForExec exePath s
  = Some (tt, mkSandbox (m_traceePid s) (set_exe i exePath (m_traceeTable s))
                        (stops s) (out s)).
Proof.
  intros Hfind. unfold UpdateTraceeTableForExec. repeat step.
  rewrite Hfind. step. apply set_table_run.
Qed.

(** Reading argv depends on the state through its stop only. *)
Lemma ReadArgumentVector_stops (tracee : Tracee) (fuel : nat) (syscall : string) (i : Z)
      (s s2 : PTraceSandbox) (args : string) :
  stops s2 = stops s ->
  ReadArgumentVector tracee fuel syscall i s = Some (args, s) ->
  ReadArgumentVector tracee fuel syscall i s2 = Some (args, s2).
Proof.
  unfold ReadArgumentVector, bind, gets, lift. intros ->.
  destruct (ReadArgumentVector_loop tracee fuel fuel syscall _ true "") as [a|];
    [|discriminate].
  intros H. now inversion H.
Qed.

(** C6: when [Handleexecve] runs for a pid the table does not hold, and the
    path ends (by a NUL or a fault) within the words the fuel allows (and argv
    can be read, when arguments are reported), the table update it starts
    with reports the synthetic NOTIFY_FORK of that pid and appends the entry
    of the pid, and the handler returns having reported the fork first and
    the exec of the file read after it. *)
Theorem exec_of_unknown_pid_reports_fork_first
        (bxl : BxlObserver) (tracee : Tracee) (fuel : nat) (basename : string -> string)
        (s : PTraceSandbox) (args : string) :
  find_index (m_traceePid s) (m_traceeTable s) 0 = None ->
  (exists k, (k < fuel)%nat
             /\ (peektext tracee (word_address (argument tracee s 1) k) = -1
                 \/ word_has_nul (peektext tracee (word_address (argument tracee s 1) k))
                    = true)) ->
  (IsReportingProcessArgs bxl = true ->
   ReadArgumentVector tracee fuel "execve" 2 s = Some (args, s)) ->
  exists file,
    ReadArgumentString tracee fuel "execve" 1 true 0 s = Some (file, s)
    /\ UpdateTraceeTableForExec file s
       = Some (tt, mkSandbox (m_traceePid s) (m_traceeTable s ++ [(m_traceePid s, file)])
                             (stops s)
                             (out s
                              ++ [report_access_event "vfork"
                                    (mkIOEvent (m_traceePid s) (m_traceePid s) 0
                                       ES_EVENT_TYPE_NOTIFY_FORK ES_ACTION_TYPE_NOTIFY
                                       file "" file 0 false 0)
                                    false]))
    /\ Handleexecve bxl tracee fuel basename s
       = Some (tt, mkSandbox (m_traceePid s) (m_traceeTable s ++ [(m_traceePid s, file)])
                             (stops s)
                             (out s
                              ++ [report_access_event "vfork"
                                    (mkIOEvent (m_traceePid s) (m_traceePid s) 0
                                       ES_EVENT_TYPE_NOTIFY_FORK ES_ACTION_TYPE_NOTIFY
                                       file "" file 0 false 0)
                                    false;
                                  report_exec "execve" (basename file) file 0 0
                                              (m_traceePid s)]
                              ++ (if IsReportingProcessArgs bxl
                                  then [report_exec_args (m_traceePid s) args] else []))).
Proof.
  intros Hfind Hmem Hargs.
  destruct (ReadArgumentString_returns tracee fuel "execve" 1 0 s Hmem) as [file Hread].
  exists file. split; [assumption|].
  split; [now apply UpdateTraceeTableForExec_unknown|].
  unfold Handleexecve. step.
  rewrite (bind_run _ _ _ _ _ (UpdateTraceeTableForExec_unknown file s Hfind)).
  repeat step. cbn [m_traceePid logged].
  destruct (IsReportingProcessArgs bxl).
  - erewrite bind_run; [|apply (ReadArgumentVector_stops tracee fuel "execve" 2 s);
                          [reflexivity|now apply Hargs]].
    rewrite emit_run. unfold logged. cbn. now rewrite <- !app_assoc.
  - unfold ret, logged. cbn. now rewrite <- !app_assoc.
Qed.

Lemma exec_of_unknown_pid_witness :
  exists file,
    ReadArgumentString Scenario.execve_ls 8 "execve" 1 true 0 Scenario.child_unknown
    = Some (file, Scenario.child_unknown)
    /\ UpdateTraceeTableForExec file Scenario.child_unknown
       = Some (tt, mkSandbox 4243 ([(4242, "/usr/bin/make")] ++ [(4243, file)]) O
           ([] ++ [report_access_event "vfork"
                     (mkIOEvent 4243 4243 0 ES_EVENT_TYPE_NOTIFY_FORK ES_ACTION_TYPE_NOTIFY
                                file "" file 0 false 0)
                     false]))
    /\ Handleexecve Scenario.nothing_exists Scenario.execve_ls 8 Scenario.basename
                    Scenario.child_unknown
       = Some (tt, mkSandbox 4243 ([(4242, "/usr/bin/make")] ++ [(4243, file)]) O
           ([] ++ [report_access_event "vfork"
                     (mkIOEvent 4243 4243 0 ES_EVENT_TYPE_NOTIFY_FORK ES_ACTION_TYPE_NOTIFY
                                file "" file 0 false 0)
                     false;
                   report_exec "execve" (Scenario.basename file) file 0 0 4243] ++ [])).
Proof.
  exact (exec_of_unknown_pid_reports_fork_first
           Scenario.nothing_exists Scenario.execve_ls 8 Scenario.basename
           Scenario.child_unknown ""
           eq_refl
           (ex_intro _ O (conj (Nat.lt_0_succ 7) (or_intror eq_refl)))
           (fun H => False_ind _ (Bool.diff_false_true H))).
Defined.

(** The scenario of the specification: the vfork stop of the parent is only
    resumed; the execve of the child, pid 4243, is reported after the
    synthetic fork of 4243. *)
Example vfork_then_execve :
  event_loop Scenario.nothing_exists 8 Scenario.basename
             [Scenario.event_stop_of 4242 PTRACE_EVENT_VFORK;
              Scenario.seccomp_stop_of 4243 Scenario.execve_ls]
             Scenario.attached
  = Some (loop_continue,
          mkSandbox 4243 [(4242, "/usr/bin/make"); (4243, "/bin/ls")] O
            (out Scenario.attached
             ++ [PTRACE_SYSCALL 4242 0;
                 report_access_event "vfork"
                   (mkIOEvent 4243 4243 0 ES_EVENT_TYPE_NOTIFY_FORK ES_ACTION_TYPE_NOTIFY
                              "/bin/ls" "" "/bin/ls" 0 false 0)
                   false;
                 report_exec "execve" "ls" "/bin/ls" 0 0 4243;
                 PTRACE_CONT 4243])).
Proof. vm_compute. reflexivity. Qed.

(** *** At most one entry per pid *)

Lemma unique_pids_push_back (table : list (Z * string)) (pid : Z) (exe : string) :
  unique_pids table -> ~ In pid (map fst table) -> unique_pids (table ++ [(pid, exe)]).
Proof.
  unfold unique_pids. induction table as [|item table IH]; cbn; intros Hu Hnew.
  - constructor; [intros []|constructor].
  - inversion Hu as [|x l Hx Hl]; subst. constructor.
    + rewrite map_app, in_app_iff. cbn. intros [H|[H|[]]]; [contradiction|].
      apply Hnew. now left.
    + apply IH; [assumption|]. intros H. apply Hnew. now right.
Qed.

Lemma set_exe_pids (i : nat) (exe : string) (table : list (Z * string)) :
  map fst (set_exe i exe table) = map fst table.
Proof.
  revert i. induction table as [|item table IH]; intros [|i]; cbn; try reflexivity.
  now rewrite IH.
Qed.

Lemma unique_pids_filter (keep : Z * string -> bool) (table : list (Z * string)) :
  unique_pids table -> unique_pids (filter keep table).
Proof.
  unfold unique_pids. induction table as [|item table IH]; cbn; intros Hu; [constructor|].
  inversion Hu as [|x l Hx Hl]; subst.
  destruct (keep item); cbn; [|now apply IH].
  constructor; [|now apply IH].
  intros H. apply Hx. apply in_map_iff in H. destruct H as [e [He Hin]].
  apply filter_In in Hin. apply in_map_iff. exists e. tauto.
Qed.

(** The attach starts the table of the constructed object with one entry. *)
Lemma attach_unique (traceePid : Z) (exe name : string) (seize interrupt : Z) (null : bool)
      (s s' : PTraceSandbox) (next : loop_next) :
  m_traceeTable s = [] ->
  AttachToProcess_attach traceePid exe name seize interrupt null s = Some (next, s') ->
  unique_pids (m_traceeTable s').
Proof.
  intros Hempty. unfold AttachToProcess_attach.
  assert (unique_pids (m_traceeTable s)) as Hs by (rewrite Hempty; constructor).
  destruct (seize =? -1); [intros H; inversion H; now subst|].
  destruct (interrupt =? -1); [intros H; inversion H; now subst|].
  unfold bind, set_pid, table_push_back, set_table, gets, emit, ret. cbn.
  rewrite Hempty. destruct null; intros H; inversion H; subst; cbn;
    (constructor; [intros []|constructor]).
Qed.

(** The removal at the exit stop keeps the entries of the other pids. *)
Lemma RemoveFromTraceeTable_unique (s : PTraceSandbox) :
  unique_pids (m_traceeTable s) ->
  exists s', RemoveFromTraceeTable s = Some (tt, s')
             /\ unique_pids (m_traceeTable s')
             /\ ~ In (m_traceePid s) (map fst (m_traceeTable s')).
Proof.
  intros Hu. eexists. split; [reflexivity|]. cbn. split.
  - now apply unique_pids_filter.
  - intros H. apply in_map_iff in H. destruct H as [e [He Hin]].
    apply filter_In in Hin. destruct Hin as [_ Hkeep].
    rewrite He, Z.eqb_refl in Hkeep. discriminate.
Qed.

(** The update at an exec, in both of its branches. *)
Lemma UpdateTraceeTableForExec_unique (exePath : string) (s : PTraceSandbox) :
  unique_pids (m_traceeTable s) ->
  exists s', UpdateTraceeTableForExec exePath s = Some (tt, s')
             /\ unique_pids (m_traceeTable s').
Proof.
  intros Hu. destruct (find_index (m_traceePid s) (m_traceeTable s) 0) as [i|] eqn:E.
  - rewrite (UpdateTraceeTableForExec_known exePath s i E). eexists. split; [reflexivity|].
    unfold unique_pids. cbn. now rewrite set_exe_pids.
  - rewrite (UpdateTraceeTableForExec_unknown exePath s E). eexists. split; [reflexivity|].
    cbn. apply unique_pids_push_back; [assumption|]. now apply find_index_none in E.
Qed.

(** [HandleChildProcess] appends an entry for the value it reads from the
    return register, whatever the table holds. *)
Lemma HandleChildProcess_appends (bxl : BxlObserver) (tracee : Tracee) (syscall : string)
      (s : PTraceSandbox) :
  exists s' exe,
    HandleChildProcess bxl tracee syscall s = Some (tt, s')
    /\ m_traceeTable s' = m_traceeTable s ++ [(child_pid tracee s, exe)].
Proof.
  unfold HandleChildProcess, child_pid, child_stop, fork_event_seen. step.
  destruct ((Z.shiftr (wait_status tracee (S (stops s))) 8
             =? Z.lor SIGTRAP (Z.shiftl PTRACE_EVENT_CLONE 8))
            || (Z.shiftr (wait_status tracee (S (stops s))) 8
                =? Z.lor SIGTRAP (Z.shiftl PTRACE_EVENT_FORK 8))).
  - repeat step. rewrite table_push_back_run. do 2 eexists. split; reflexivity.
  - repeat step. rewrite table_push_back_run. do 2 eexists. split; reflexivity.
Qed.

(** The append of a fork or clone keeps the pids apart when the value read
    is not the pid of an entry. *)
Lemma HandleChildProcess_unique_fresh (bxl : BxlObserver) (tracee : Tracee)
      (syscall : string) (s : PTraceSandbox) :
  unique_pids (m_traceeTable s) ->
  ~ In (child_pid tracee s) (map fst (m_traceeTable s)) ->
  exists s', HandleChildProcess bxl tracee syscall s = Some (tt, s')
             /\ unique_pids (m_traceeTable s').
Proof.
  intros Hu Hfresh.
  destruct (HandleChildProcess_appends bxl tracee syscall s) as [s' [exe [Hrun Htable]]].
  exists s'. split; [assumption|]. rewrite Htable.
  now apply unique_pids_push_back.
Qed.

(** C7: after the attach to pid 4242, two fork calls of that pid that fail
    with EAGAIN are each handled by appending an entry for the value of the
    return register, -11: the table ends with two entries of one pid. *)
Theorem failed_forks_leave_duplicate_entries :
  exists s',
    bind (AttachToProcess_attach 4242 "/usr/bin/make" "/4242" 0 0 false)
         (fun _ => event_loop Scenario.nothing_exists 8 Scenario.basename
                     [Scenario.seccomp_stop_of 4242 Scenario.fork_fails_EAGAIN;
                      Scenario.seccomp_stop_of 4242 Scenario.fork_fails_EAGAIN])
         Scenario.constructed
    = Some (loop_continue, s')
    /\ m_traceeTable s'
       = [(4242, "/usr/bin/make"); (-11, "/usr/bin/make"); (-11, "/usr/bin/make")]
    /\ ~ unique_pids (m_traceeTable s').
Proof.
  eexists. split; [vm_compute; reflexivity|]. split; [reflexivity|].
  unfold unique_pids. cbn. intros H.
  inversion H as [|x l _ H1]; subst. inversion H1 as [|y l' Hin _]; subst.
  apply Hin. now left.
Qed.

(** ** The bootstrap and its latch *)

(** Whatever else happens, a wait that returns -1 is never followed by the
    installation of the filter nor by the exec. *)
Lemma no_filter_after_failed_wait (p : Bootstrap.Process) (file : string) :
  Bootstrap.sem_timedwait_result p = -1 ->
  snd (Bootstrap.ExecuteWithPTraceSandbox p file) = Bootstrap.exited (-1)
  /\ existsb Bootstrap.installs_filter (fst (Bootstrap.ExecuteWithPTraceSandbox p file))
     = false.
Proof.
  intros Hwait. unfold Bootstrap.ExecuteWithPTraceSandbox. rewrite Hwait.
  destruct (Bootstrap.sem_open_result p); cbn; try (split; reflexivity).
  destruct (Bootstrap.clock_gettime_result p =? -1); cbn; split; reflexivity.
Qed.

(** C8: when the wait on the latch, whose absolute deadline is 15 seconds
    after the clock reading, returns -1, the function closes and unlinks the
    latch and exits with status -1 (255 for the parent, not zero); the
    filter is not installed and the exec is not made. *)
Theorem latch_wait_failure_exits_before_filter (p : Bootstrap.Process) (file : string) :
  Bootstrap.sem_open_result p = Bootstrap.sem_valid ->
  Bootstrap.clock_gettime_result p <> -1 ->
  Bootstrap.sem_timedwait_result p = -1 ->
  let name := ("/" ++ Bootstrap.to_string (Bootstrap.getpid p))%string in
  Bootstrap.ExecuteWithPTraceSandbox p file
  = ([Bootstrap.sem_open name 0; Bootstrap.clock_gettime;
      Bootstrap.sem_timedwait (Bootstrap.tv_sec p + 15);
      Bootstrap.sem_close; Bootstrap.sem_unlink name],
     Bootstrap.exited (-1))
  /\ Bootstrap.WEXITSTATUS_of (snd (Bootstrap.ExecuteWithPTraceSandbox p file)) = Some 255
  /\ existsb Bootstrap.installs_filter (fst (Bootstrap.ExecuteWithPTraceSandbox p file))
     = false.
Proof.
  intros Hsem Hclock Hwait name.
  assert (Bootstrap.ExecuteWithPTraceSandbox p file
          = ([Bootstrap.sem_open name 0; Bootstrap.clock_gettime;
              Bootstrap.sem_timedwait (Bootstrap.tv_sec p + 15);
              Bootstrap.sem_close; Bootstrap.sem_unlink name],
             Bootstrap.exited (-1))) as Hrun.
  { unfold Bootstrap.ExecuteWithPTraceSandbox. rewrite Hsem, Hwait.
    apply Z.eqb_neq in Hclock. rewrite Hclock. reflexivity. }
  rewrite Hrun. repeat split.
Qed.

Lemma latch_wait_failure_witness :
  Bootstrap.ExecuteWithPTraceSandbox Scenario.latch_times_out "/bin/ls"
  = ([Bootstrap.sem_open "/4243" 0; Bootstrap.clock_gettime;
      Bootstrap.sem_timedwait 1700000015;
      Bootstrap.sem_close; Bootstrap.sem_unlink "/4243"],
     Bootstrap.exited (-1))
  /\ Bootstrap.WEXITSTATUS_of
       (snd (Bootstrap.ExecuteWithPTraceSandbox Scenario.latch_times_out "/bin/ls"))
     = Some 255
  /\ existsb Bootstrap.installs_filter
             (fst (Bootstrap.ExecuteWithPTraceSandbox Scenario.latch_times_out "/bin/ls"))
     = false.
Proof.
  apply (latch_wait_failure_exits_before_filter Scenario.latch_times_out "/bin/ls").
  - reflexivity.
  - vm_compute. discriminate.
  - reflexivity.
Defined.

(** ** What the string reader returns *)

Lemma string_app_assoc (a b c : string) : ((a ++ b) ++ c = a ++ (b ++ c))%string.
Proof. induction a as [|x a IH]; cbn; [reflexivity|now rewrite IH]. Qed.

Lemma string_app_nil_r (a : string) : (a ++ "" = a)%string.
Proof. induction a as [|x a IH]; cbn; [reflexivity|now rewrite IH]. Qed.

Lemma string_length_app (a b : string) :
  String.length (a ++ b) = (String.length a + String.length b)%nat.
Proof. induction a as [|x a IH]; cbn; [reflexivity|now rewrite IH]. Qed.

Lemma push_back_app (a : string) (c : ascii) (b : string) :
  (push_back a c ++ b = a ++ String c b)%string.
Proof. unfold push_back. now rewrite string_app_assoc. Qed.

Lemma has_nul_app (a b : string) : has_nul (a ++ b) = has_nul a || has_nul b.
Proof. induction a as [|x a IH]; cbn; [reflexivity|now rewrite IH, orb_assoc]. Qed.

(** The split of a string at its first NUL is unique. *)
Lemma take_nul_found (t : string) :
  snd (take_nul t) = true ->
  exists q, t = (fst (take_nul t) ++ String zero q)%string
            /\ has_nul (fst (take_nul t)) = false.
Proof.
  induction t as [|c t IH]; cbn; [discriminate|].
  destruct (Ascii.eqb c zero) eqn:E; cbn.
  - intros _. apply Ascii.eqb_eq in E. subst c. exists t. now split.
  - intros H. destruct (IH H) as [q [Ht Hp]]. exists q. rewrite E. split; [|assumption].
    now rewrite <- Ht.
Qed.

Lemma take_nul_none (t : string) :
  snd (take_nul t) = false -> fst (take_nul t) = t /\ has_nul t = false.
Proof.
  induction t as [|c t IH]; cbn; [now split|].
  destruct (Ascii.eqb c zero) eqn:E; cbn; [discriminate|].
  intros H. destruct (IH H) as [Ht Hn]. now rewrite Ht, Hn.
Qed.

Lemma first_nul_unique (p : string) :
  forall s q r, has_nul p = false -> has_nul s = false ->
                (p ++ String zero q = s ++ String zero r)%string -> p = s.
Proof.
  induction p as [|c p IH]; intros [|d s] q r Hp Hs H; cbn in *.
  - reflexivity.
  - inversion H; subst d. now rewrite Ascii.eqb_refl in Hs.
  - inversion H; subst c. now rewrite Ascii.eqb_refl in Hp.
  - inversion H; subst d. apply orb_false_elim in Hp, Hs. f_equal.
    now apply (IH s q r).
Qed.

Lemma nul_free_prefix (w : string) :
  forall s tail r, has_nul w = false ->
                   (w ++ tail = s ++ String zero r)%string ->
                   exists s', s = (w ++ s')%string /\ tail = (s' ++ String zero r)%string.
Proof.
  induction w as [|c w IH]; intros s tail r Hw H; cbn in *.
  - exists s. now split.
  - apply orb_false_elim in Hw. destruct Hw as [Hc Hw].
    destruct s as [|d s]; cbn in H; inversion H; subst.
    + now rewrite Ascii.eqb_refl in Hc.
    + destruct (IH s tail r Hw H2) as [s' [Hs Htail]]. exists s'. now rewrite Hs.
Qed.

Section ReaderResults.

Variable tracee : Tracee.

(** With NUL termination and no positive length, the [for] loop appends the
    bytes of the word before its first NUL and finishes if there is one. *)
Lemma read_word_take_nul (n : nat) :
  forall (i : nat) (word length : Z) (argument : string) (count : Z),
    length <= 0 ->
    fst (fst (read_word n i word true length argument count))
    = (argument ++ fst (take_nul (bytes_from word i n)))%string
    /\ snd (read_word n i word true length argument count)
       = snd (take_nul (bytes_from word i n)).
Proof.
  induction n as [|n IH]; intros i word length argument count Hlen.
  - cbn. now rewrite string_app_nil_r.
  - cbn [read_word bytes_from take_nul]. cbn [andb].
    replace (0 <? length) with false by (symmetry; apply Z.ltb_ge; lia).
    cbn [andb]. rewrite orb_false_r.
    destruct (Ascii.eqb (byte_of_word word i) zero) eqn:E.
    + cbn. now rewrite string_app_nil_r.
    + cbn [fst snd].
      destruct (IH (S i) word length (push_back argument (byte_of_word word i))
                   (to_int (count + 1)) Hlen) as [Hs Hf].
      now rewrite Hs, Hf, push_back_app.
Qed.

(** Without a positive length, a word that does not stop the read is
    appended whole. *)
Lemma read_word_whole (n : nat) :
  forall (i : nat) (word length : Z) (nullTerminated : bool) (argument : string)
         (count : Z),
    length <= 0 ->
    (nullTerminated = true -> has_nul (bytes_from word i n) = false) ->
    fst (fst (read_word n i word nullTerminated length argument count))
    = (argument ++ bytes_from word i n)%string
    /\ snd (read_word n i word nullTerminated length argument count) = false.
Proof.
  induction n as [|n IH]; intros i word length nt argument count Hlen Hnul.
  - cbn. now rewrite string_app_nil_r.
  - cbn [read_word bytes_from].
    replace (0 <? length) with false by (symmetry; apply Z.ltb_ge; lia).
    cbn [andb]. rewrite orb_false_r.
    assert (nt && Ascii.eqb (byte_of_word word i) zero = false) as E.
    { destruct nt; [|reflexivity]. specialize (Hnul eq_refl). cbn in Hnul.
      now apply orb_false_elim in Hnul. }
    rewrite E.
    destruct (IH (S i) word length nt (push_back argument (byte_of_word word i))
                 (to_int (count + 1)) Hlen) as [Hs Hf].
    { intros Hnt. specialize (Hnul Hnt). cbn in Hnul. now apply orb_false_elim in Hnul. }
    now rewrite Hs, Hf, push_back_app.
Qed.

Lemma nul_terminated_loop_reads (k : nat) :
  forall (steps : nat) (addr length : Z) (argument : string) (count : Z)
         (s rest : string),
    length <= 0 ->
    has_nul s = false ->
    peeked tracee addr k = (s ++ String zero rest)%string ->
    (forall j, (j < k)%nat -> peektext tracee (word_address addr j) <> -1) ->
    (k <= steps)%nat ->
    ReadArgumentStringAtAddr_loop tracee steps addr true length argument count
    = Some (argument ++ s)%string.
Proof.
  induction k as [|k IH]; intros steps addr length argument count s rest Hlen Hs Hmem Hpeek Hk.
  - cbn [peeked] in Hmem. destruct s; discriminate.
  - destruct steps as [|steps]; [lia|].
    cbn [ReadArgumentStringAtAddr_loop].
    pose proof (Hpeek O (Nat.lt_0_succ k)) as H0. change (word_address addr 0) with addr in H0.
    apply Z.eqb_neq in H0. rewrite H0.
    destruct (read_word_take_nul 8 0 (peektext tracee addr) length argument count Hlen)
      as [Hread Hfin].
    fold (word_string (peektext tracee addr)) in Hread, Hfin.
    destruct (read_word 8 0 (peektext tracee addr) true length argument count)
      as [[argument' count'] finished].
    cbn [fst snd] in Hread, Hfin. subst argument' finished.
    cbn [peeked] in Hmem.
    remember (word_string (peektext tracee addr)) as w eqn:Ew.
    destruct (snd (take_nul w)) eqn:Efound.
    + destruct (take_nul_found _ Efound) as [q [Hw Hp]].
      rewrite Hw, string_app_assoc in Hmem. cbn [append] in Hmem.
      rewrite (first_nul_unique _ _ _ _ Hp Hs Hmem). reflexivity.
    + destruct (take_nul_none _ Efound) as [Hw Hn]. rewrite Hw.
      destruct (nul_free_prefix _ _ _ _ Hn Hmem) as [s' [Hsplit Htail]].
      rewrite (IH steps _ length _ count' s' rest Hlen).
      * now rewrite Hsplit, string_app_assoc.
      * rewrite Hsplit, has_nul_app in Hs. now apply orb_false_elim in Hs.
      * assumption.
      * intros j Hj. rewrite word_address_S. apply Hpeek. lia.
      * lia.
Qed.

Lemma loop_reads_until_fault (k : nat) :
  forall (steps : nat) (addr length : Z) (nullTerminated : bool) (argument : string)
         (count : Z),
    length <= 0 ->
    (nullTerminated = true -> has_nul (peeked tracee addr k) = false) ->
    (forall j, (j < k)%nat -> peektext tracee (word_address addr j) <> -1) ->
    peektext tracee (word_address addr k) = -1 ->
    (k < steps)%nat ->
    ReadArgumentStringAtAddr_loop tracee steps addr nullTerminated length argument count
    = Some (argument ++ peeked tracee addr k)%string.
Proof.
  induction k as [|k IH]; intros steps addr length nt argument count Hlen Hnul Hpeek Hfault Hk;
    (destruct steps as [|steps]; [lia|]); cbn [ReadArgumentStringAtAddr_loop].
  - change (word_address addr 0) with addr in Hfault. rewrite Hfault.
    rewrite Z.eqb_refl. cbn [peeked]. rewrite string_app_nil_r. reflexivity.
  - pose proof (Hpeek O (Nat.lt_0_succ k)) as H0. change (word_address addr 0) with addr in H0.
    apply Z.eqb_neq in H0. rewrite H0.
    assert (nt = true ->
            has_nul (word_string (peektext tracee addr)) = false
            /\ has_nul (peeked tracee (to_ulong (addr + sizeof_long)) k) = false) as Hsplit.
    { intros Hnt. specialize (Hnul Hnt). cbn [peeked] in Hnul.
      rewrite has_nul_app in Hnul. apply orb_false_elim in Hnul. exact Hnul. }
    destruct (read_word_whole 8 0 (peektext tracee addr) length nt argument count Hlen
                (fun Hnt => proj1 (Hsplit Hnt))) as [Hread Hfin].
    fold (word_string (peektext tracee addr)) in Hread.
    destruct (read_word 8 0 (peektext tracee addr) nt length argument count)
      as [[argument' count'] finished].
    cbn [fst snd] in Hread, Hfin. subst argument' finished.
    cbn [peeked]. remember (word_string (peektext tracee addr)) as w eqn:Ew.
    rewrite (IH steps (to_ulong (addr + sizeof_long)) length nt (argument ++ w)%string
                count' Hlen).
    + rewrite string_app_assoc. reflexivity.
    + intros Hnt. exact (proj2 (Hsplit Hnt)).
    + intros j Hj. rewrite word_address_S. apply Hpeek. lia.
    + rewrite word_address_S. exact Hfault.
    + lia.
Qed.

End ReaderResults.

(** X1: when the first [k] words peeked hold a NUL-free string [s] followed
    by a NUL, none of them reads as -1 and the fuel allows [k] rounds, the
    NUL-terminated read returns exactly [s]. *)
Theorem nul_terminated_read_round_trip
        (tracee : Tracee) (fuel : nat) (syscall : string) (addr length : Z)
        (s rest : string) (k : nat) :
  length <= 0 ->
  has_nul s = false ->
  peeked tracee addr k = (s ++ String zero rest)%string ->
  (forall j, (j < k)%nat -> peektext tracee (word_address addr j) <> -1) ->
  (k <= fuel)%nat ->
  ReadArgumentStringAtAddr tracee fuel syscall addr true length = Some s.
Proof.
  intros Hlen Hs Hmem Hpeek Hk. unfold ReadArgumentStringAtAddr.
  now rewrite (nul_terminated_loop_reads tracee k fuel addr length "" 0 s rest).
Qed.

Lemma nul_terminated_read_round_trip_witness :
  ReadArgumentStringAtAddr Scenario.execve_ls 8 "execve" 4096 true 0 = Some "/bin/ls".
Proof.
  apply (nul_terminated_read_round_trip Scenario.execve_ls 8 "execve" 4096 0
                                        "/bin/ls" "" 1).
  - lia.
  - reflexivity.
  - reflexivity.
  - intros j Hj. assert (j = O) as -> by lia. vm_compute. discriminate.
  - lia.
Defined.

(** X2: when the [k]-th word peeked is the first that reads as -1 and (with
    NUL termination) no earlier byte is NUL, the read returns the bytes of
    the [k] words before it: what was accumulated when the peek failed. *)
Theorem read_returns_bytes_before_fault
        (tracee : Tracee) (fuel : nat) (syscall : string) (addr length : Z)
        (nullTerminated : bool) (k : nat) :
  length <= 0 ->
  (nullTerminated = true -> has_nul (peeked tracee addr k) = false) ->
  (forall j, (j < k)%nat -> peektext tracee (word_address addr j) <> -1) ->
  peektext tracee (word_address addr k) = -1 ->
  (k < fuel)%nat ->
  ReadArgumentStringAtAddr tracee fuel syscall addr nullTerminated length
  = Some (peeked tracee addr k).
Proof.
  intros Hlen Hnul Hpeek Hfault Hk. unfold ReadArgumentStringAtAddr.
  rewrite (loop_reads_until_fault tracee k fuel addr length nullTerminated "" 0);
    try assumption.
  reflexivity.
Qed.

Lemma read_returns_bytes_before_fault_witness :
  ReadArgumentStringAtAddr Cases.page_end 8 "open" 4088 true 0 = Some "/usr/lib".
Proof.
  apply (read_returns_bytes_before_fault Cases.page_end 8 "open" 4088 0 true 1).
  - lia.
  - intros _. reflexivity.
  - intros j Hj. assert (j = O) as -> by lia. vm_compute. discriminate.
  - reflexivity.
  - lia.
Defined.

(** ** What [ReadArgumentVector] returns *)

Lemma joined_concat (arg : string) (rest : list string) :
  joined false (arg :: rest) = (" " ++ String.concat " " (arg :: rest))%string
  /\ joined true (arg :: rest) = String.concat " " (arg :: rest).
Proof.
  revert arg. induction rest as [|next rest IH]; intros arg.
  - cbn. now rewrite string_app_nil_r.
  - destruct (IH next) as [Hfalse _].
    change (String.concat " " (arg :: next :: rest))
      with (arg ++ " " ++ String.concat " " (next :: rest))%string.
    split.
    + change (joined false (arg :: next :: rest))
        with (" " ++ arg ++ joined false (next :: rest))%string.
      now rewrite Hfalse.
    + change (joined true (arg :: next :: rest))
        with ("" ++ arg ++ joined false (next :: rest))%string.
      now rewrite Hfalse.
Qed.

Section VectorResults.

Variable tracee : Tracee.
Variable fuel : nat.
Variable syscall : string.

Lemma ReadArgumentVector_loop_joins (pointers : list Z) (args : list string) :
  Forall2 (readable tracee fuel syscall) pointers args ->
  forall (steps : nat) (addr : Z) (firstArgument : bool) (arguments : string),
    (forall i, (i < length pointers)%nat ->
               peektext tracee (word_address addr i) = nth i pointers 0) ->
    (peektext tracee (word_address addr (length pointers)) = 0
     \/ peektext tracee (word_address addr (length pointers)) = -1) ->
    (length pointers < steps)%nat ->
    ReadArgumentVector_loop tracee fuel steps syscall addr firstArgument arguments
    = Some (arguments ++ joined firstArgument args)%string.
Proof.
  induction 1 as [|pointer arg pointers args [Hnull [Hfault Hread]] Hrest IH];
    intros steps addr firstArgument arguments Hmem Hend Hsteps;
    (destruct steps as [|steps]; [cbn in Hsteps; lia|]);
    cbn [ReadArgumentVector_loop].
  - cbn [length] in Hend. change (word_address addr 0) with addr in Hend.
    cbn [joined]. rewrite string_app_nil_r.
    destruct Hend as [-> | ->]; reflexivity.
  - pose proof (Hmem O (Nat.lt_0_succ _)) as H0.
    change (word_address addr 0) with addr in H0. cbn [nth] in H0. rewrite H0.
    apply Z.eqb_neq in Hnull, Hfault. rewrite Hnull, Hfault, Hread.
    rewrite (IH steps (to_ulong (addr + 8)) false).
    + cbn [joined]. now rewrite !string_app_assoc.
    + intros i Hi. change 8 with sizeof_long. rewrite word_address_S.
      apply (Hmem (S i)). cbn [length]. lia.
    + change 8 with sizeof_long. rewrite !word_address_S. exact Hend.
    + cbn [length] in Hsteps. lia.
Qed.

End VectorResults.

(** X3: the pointers of argv up to the first null pointer (or the first peek
    that fails), each neither null nor -1 and with a readable string, are
    returned as their strings joined by single spaces, in their order. *)
Theorem argv_joined_with_spaces
        (tracee : Tracee) (fuel : nat) (syscall : string) (index : Z) (s : PTraceSandbox)
        (pointers : list Z) (args : list string) :
  let addr := ArgumentIndexToRegister index (getregs tracee (stops s)) in
  Forall2 (readable tracee fuel syscall) pointers args ->
  (forall i, (i < length pointers)%nat ->
             peektext tracee (word_address addr i) = nth i pointers 0) ->
  (peektext tracee (word_address addr (length pointers)) = 0
   \/ peektext tracee (word_address addr (length pointers)) = -1) ->
  (length pointers < fuel)%nat ->
  ReadArgumentVector tracee fuel syscall index s = Some (String.concat " " args, s).
Proof.
  intros addr Hread Hmem Hend Hfuel.
  unfold ReadArgumentVector, bind, gets, lift. fold addr.
  rewrite (ReadArgumentVector_loop_joins tracee fuel syscall pointers args Hread
             fuel addr true "" Hmem Hend Hfuel).
  cbn [append]. destruct args as [|arg rest]; [reflexivity|].
  now rewrite (proj2 (joined_concat arg rest)).
Qed.

Lemma argv_joined_with_spaces_witness :
  ReadArgumentVector Cases.execve_ls_l 8 "execve" 2 Scenario.child_unknown
  = Some ("ls -l", Scenario.child_unknown).
Proof.
  apply (argv_joined_with_spaces Cases.execve_ls_l 8 "execve" 2 Scenario.child_unknown
                                 [4112; 4120] ["ls"; "-l"]).
  - repeat constructor; discriminate.
  - intros [|[|i]] Hi; [reflexivity|reflexivity|cbn in Hi; lia].
  - left. reflexivity.
  - cbn. lia.
Defined.

(** ** The argument registers *)

(** X4: for the indices 0 to 6 the read of the user area ([ReadArgumentLong])
    and the look-up in the register snapshot ([ArgumentIndexToRegister]) give
    the same register; for every other index the snapshot gives 0 while
    [ReadArgumentLong] reads the word at offset 0 of the user area. *)
Theorem argument_readers_agree (tracee : Tracee) (index : Z) (s : PTraceSandbox) :
  ReadArgumentLong tracee index s
  = Some ((if register_index index
           then ArgumentIndexToRegister index (getregs tracee (stops s))
           else to_ulong (peekuser tracee (stops s) 0)), s)
  /\ (if register_index index then True
      else ArgumentIndexToRegister index (getregs tracee (stops s)) = 0).
Proof.
  unfold ReadArgumentLong, bind, gets, ret, register_index,
    GetArgumentAddr, ArgumentIndexToRegister.
  destruct (Z.eqb_spec index 0) as [->|H0]; [now split|].
  destruct (Z.eqb_spec index 1) as [->|H1]; [now split|].
  destruct (Z.eqb_spec index 2) as [->|H2]; [now split|].
  destruct (Z.eqb_spec index 3) as [->|H3]; [now split|].
  destruct (Z.eqb_spec index 4) as [->|H4]; [now split|].
  destruct (Z.eqb_spec index 5) as [->|H5]; [now split|].
  destruct (Z.eqb_spec index 6) as [->|H6]; [now split|].
  replace ((0 <=? index) && (index <=? 6)) with false; [now split|].
  symmetry. apply andb_false_iff.
  destruct (Z.leb_spec 0 index); [right; apply Z.leb_gt; lia|now left].
Qed.

(** ** Reports of single handlers *)

(** X5: each handler that reports on a file descriptor resolves the
    descriptor (the output descriptor for sendfile and copy_file_range,
    truncated to an int) and reports the resolved path once, under its own
    name and kind, exactly when that path begins with '/'; for a pipe or a
    socket nothing is reported. *)
Theorem fd_handlers_report_paths_only
        (bxl : BxlObserver) (tracee : Tracee) (fuel : nat) (basename : string -> string)
        (s : PTraceSandbox) (syscallName : Sys.name) (name : string)
        (kind : es_event_type) (index : Z) :
  In (syscallName, (name, kind, index)) fd_keyed ->
  let path := fd_to_path bxl (to_int (argument tracee s index)) (m_traceePid s) in
  MAKE_HANDLER_FN_NAME bxl tracee fuel basename syscallName s
  = Some (tt, logged s (if Ascii.eqb (front path) "/"
                        then [report_access_paths name kind path "" 0 0 true (m_traceePid s)]
                        else [])).
Proof.
  intros Hin path. unfold fd_keyed in Hin. cbn [In] in Hin.
  repeat (destruct Hin as [Hin|Hin]; [inversion Hin; subst; clear Hin|]);
    try contradiction;
    cbn [MAKE_HANDLER_FN_NAME];
    unfold Handlefstat, Handlewrite, Handlewritev, Handlepwritev, Handlepwritev2,
      Handlepwrite64, Handleftruncate, Handlefchmod, Handlefchown, Handlesendfile,
      Handlecopy_file_range, HandleReportAccessFd;
    repeat step; fold path;
    (destruct (Ascii.eqb (front path) "/"); [apply emit_run|now rewrite logged_nil]).
Qed.

Lemma fd_handlers_report_paths_only_witness :
  MAKE_HANDLER_FN_NAME Scenario.pipe_fd Cases.write_pipe 8 Scenario.basename Sys.write
                       Scenario.tracer
  = Some (tt, logged Scenario.tracer []).
Proof.
  exact (fd_handlers_report_paths_only
           Scenario.pipe_fd Cases.write_pipe 8 Scenario.basename Scenario.tracer
           Sys.write "write" ES_EVENT_TYPE_NOTIFY_WRITE 1
           (or_intror (or_introl eq_refl))).
Defined.

(** X6: [Handleunlink] reports NOTIFY_UNLINK of the decoded path, not
    following a final symlink, exactly when the path is not empty. *)
Theorem unlink_reports_nonempty_path
        (tracee : Tracee) (fuel : nat) (s : PTraceSandbox) (path : string) :
  ReadArgumentString tracee fuel "unlink" 1 true 0 s = Some (path, s) ->
  Handleunlink tracee fuel s
  = Some (tt, logged s (if String.eqb path ""
                        then []
                        else [report_access "unlink" ES_EVENT_TYPE_NOTIFY_UNLINK path
                                            0 O_NOFOLLOW 0 true (m_traceePid s)])).
Proof.
  intros Hread.
  pose proof (ReadArgumentString_no_nul _ _ _ _ _ _ _ _ Hread) as Hnul.
  apply front_nul in Hnul.
  unfold Handleunlink. repeat step.
  destruct (String.eqb_spec path "") as [Hempty|Hfull].
  - rewrite (proj2 Hnul Hempty). cbn [negb]. now rewrite logged_nil.
  - destruct (Ascii.eqb (front path) zero) eqn:E.
    + elim Hfull. now apply Hnul.
    + cbn [negb]. apply emit_run.
Qed.

Lemma unlink_reports_nonempty_path_witness :
  Handleunlink Cases.unlink_stale 8 Scenario.tracer
  = Some (tt, logged Scenario.tracer
      [report_access "unlink" ES_EVENT_TYPE_NOTIFY_UNLINK "stale.o" 0 O_NOFOLLOW 0 true 4242]).
Proof.
  exact (unlink_reports_nonempty_path Cases.unlink_stale 8 Scenario.tracer "stale.o" eq_refl).
Defined.

(** X7: name_to_handle_at is always reported as NOTIFY_OPEN, whether the
    path exists or not: the flags handed to [ReportOpen] are 0 or O_NOFOLLOW,
    never a create or truncate flag. *)
Theorem name_to_handle_at_reports_open
        (bxl : BxlObserver) (tracee : Tracee) (fuel : nat) (s : PTraceSandbox)
        (pathname : string) :
  ReadArgumentString tracee fuel "name_to_handle_at" 2 true 0 s = Some (pathname, s) ->
  let oflags := if c_true (Z.land (argument tracee s 5) AT_SYMLINK_FOLLOW)
                then 0 else O_NOFOLLOW in
  let pathStr := normalize_path_at bxl (argument tracee s 1) pathname oflags
                                   (m_traceePid s) in
  Handlename_to_handle_at bxl tracee fuel s
  = Some (tt, logged s
      [report_access_event "name_to_handle_at"
         (mkIOEvent (m_traceePid s) 0 0 ES_EVENT_TYPE_NOTIFY_OPEN ES_ACTION_TYPE_NOTIFY
                    pathStr "" (GetProgramPath bxl) (get_mode bxl pathStr) false 0)
         true]).
Proof.
  intros Hread oflags pathStr. unfold Handlename_to_handle_at. repeat step.
  fold oflags. fold pathStr. rewrite ReportOpen_reports.
  replace (c_true (Z.land oflags (Z.lor O_CREAT O_TRUNC))) with false.
  - now rewrite andb_false_r.
  - unfold oflags. now destruct (c_true (Z.land (argument tracee s 5) AT_SYMLINK_FOLLOW)).
Qed.

Lemma name_to_handle_at_reports_open_witness :
  Handlename_to_handle_at Scenario.nothing_exists Cases.handle_of_passwd 8 Scenario.tracer
  = Some (tt, logged Scenario.tracer
      [report_access_event "name_to_handle_at"
         (mkIOEvent 4242 0 0 ES_EVENT_TYPE_NOTIFY_OPEN ES_ACTION_TYPE_NOTIFY
                    "/etc/passwd" "" "/usr/bin/make" 0 false 0)
         true]).
Proof.
  exact (name_to_handle_at_reports_open Scenario.nothing_exists Cases.handle_of_passwd 8
                                        Scenario.tracer "/etc/passwd" eq_refl).
Defined.

(** X8: [Handlermdir] resumes the tracee to the exit of the syscall once, then
    reports NOTIFY_UNLINK of the path with the directory mode, without the
    cache; for a return of [-e] (errno [e], or 0 for success) the error
    carried is [e - 1], and 0 for success. *)
Theorem rmdir_reports_after_exit
        (tracee : Tracee) (fuel : nat) (s : PTraceSandbox) (path : string) (e : Z) :
  ReadArgumentString tracee fuel "rmdir" 1 true 0 s = Some (path, s) ->
  0 <= e < 4096 ->
  peekuser tracee (S (stops s)) (sizeof_long * RAX) = - e ->
  Handlermdir tracee fuel s
  = Some (tt, mkSandbox (m_traceePid s) (m_traceeTable s) (S (stops s))
      (out s ++ [PTRACE_SYSCALL (m_traceePid s) 0; waitpid (m_traceePid s);
                 report_access_paths "rmdir" ES_EVENT_TYPE_NOTIFY_UNLINK path "" S_IFDIR
                                     (Z.max 0 (e - 1)) false (m_traceePid s)])).
Proof.
  intros Hread He Hrax. unfold Handlermdir. repeat step.
  assert (GetErrno tracee
            (mkSandbox (m_traceePid s) (m_traceeTable s) (S (stops s))
               (out s ++ [PTRACE_SYSCALL (m_traceePid s) 0; waitpid (m_traceePid s)]))
          = Some (Z.max 0 (e - 1),
                  mkSandbox (m_traceePid s) (m_traceeTable s) (S (stops s))
                    (out s ++ [PTRACE_SYSCALL (m_traceePid s) 0; waitpid (m_traceePid s)])))
    as Herrno.
  { destruct (Z.eq_dec e 0) as [->|Hne].
    - apply GetErrno_of_success. exact Hrax.
    - replace (Z.max 0 (e - 1)) with (e - 1) by lia.
      apply GetErrno_of_errno; [lia|exact Hrax]. }
  rewrite (bind_run _ _ _ _ _ Herrno). repeat step.
  rewrite emit_run. unfold logged. cbn. now rewrite <- app_assoc.
Qed.

Lemma rmdir_reports_after_exit_witness :
  Handlermdir Cases.rmdir_not_empty 8 Scenario.tracer
  = Some (tt, mkSandbox 4242 [(4242, "/usr/bin/make")] 1
      ([] ++ [PTRACE_SYSCALL 4242 0; waitpid 4242;
              report_access_paths "rmdir" ES_EVENT_TYPE_NOTIFY_UNLINK "/tmp/d" "" S_IFDIR
                                  (Z.max 0 (39 - 1)) false 4242])).
Proof.
  apply (rmdir_reports_after_exit Cases.rmdir_not_empty 8 Scenario.tracer "/tmp/d" 39).
  - reflexivity.
  - lia.
  - reflexivity.
Defined.

(** X9: a rename whose source is not a directory reports exactly two events:
    NOTIFY_UNLINK of the normalized source, then the [ReportOpen] report of
    the normalized destination, NOTIFY_CREATE when it does not exist before
    the call and NOTIFY_OPEN when it does. *)
Theorem rename_of_file_reports_one_pair
        (bxl : BxlObserver) (syscall : string) (olddirfd : Z) (oldpath : string)
        (newdirfd : Z) (newpath : string) (s : PTraceSandbox) :
  let pid := m_traceePid s in
  let oldStr := normalize_path_at bxl olddirfd oldpath O_NOFOLLOW pid in
  let newStr := normalize_path_at bxl newdirfd newpath O_NOFOLLOW pid in
  S_ISDIR (get_mode bxl oldStr) = false ->
  HandleRenameGeneric bxl syscall olddirfd oldpath newdirfd newpath s
  = Some (tt, logged s
      [report_access syscall ES_EVENT_TYPE_NOTIFY_UNLINK oldStr (get_mode bxl oldStr)
                     O_NOFOLLOW 0 true pid;
       report_access_event syscall
         (mkIOEvent pid 0 0 (destination_kind bxl newStr) ES_ACTION_TYPE_NOTIFY
                    newStr "" (GetProgramPath bxl) (get_mode bxl newStr) false 0)
         true]).
Proof.
  intros pid oldStr newStr Hfile. unfold HandleRenameGeneric. step.
  fold pid oldStr newStr. rewrite Hfile. step.
  rewrite ReportOpen_reports, logged_logged. cbn [logged m_traceePid]. fold pid.
  change (c_true (Z.land O_CREAT (Z.lor O_CREAT O_TRUNC))) with true.
  rewrite andb_true_r. reflexivity.
Qed.

Lemma rename_of_file_reports_one_pair_witness :
  HandleRenameGeneric Cases.rename_file "rename" AT_FDCWD "/src/f" AT_FDCWD "/src/g"
                      Scenario.tracer
  = Some (tt, logged Scenario.tracer
      [report_access "rename" ES_EVENT_TYPE_NOTIFY_UNLINK "/src/f"
                     (get_mode Cases.rename_file "/src/f") O_NOFOLLOW 0 true 4242;
       report_access_event "rename"
         (mkIOEvent 4242 0 0 (destination_kind Cases.rename_file "/src/g")
                    ES_ACTION_TYPE_NOTIFY "/src/g" "" "/usr/bin/make"
                    (get_mode Cases.rename_file "/src/g") false 0)
         true]).
Proof.
  exact (rename_of_file_reports_one_pair Cases.rename_file "rename" AT_FDCWD "/src/f"
                                         AT_FDCWD "/src/g" Scenario.tracer eq_refl).
Defined.

(** X10: a rename whose source is a directory reports nothing at all when
    the enumeration of the directory fails or lists no entry: neither the
    directory itself nor its destination is reported. *)
Theorem rename_of_unlisted_directory_reports_nothing
        (bxl : BxlObserver) (syscall : string) (olddirfd : Z) (oldpath : string)
        (newdirfd : Z) (newpath : string) (s : PTraceSandbox) :
  let oldStr := normalize_path_at bxl olddirfd oldpath O_NOFOLLOW (m_traceePid s) in
  S_ISDIR (get_mode bxl oldStr) = true ->
  fst (EnumerateDirectory bxl oldStr true) = false
  \/ snd (EnumerateDirectory bxl oldStr true) = [] ->
  HandleRenameGeneric bxl syscall olddirfd oldpath newdirfd newpath s = Some (tt, s).
Proof.
  intros oldStr Hdir Hnone. unfold HandleRenameGeneric. step.
  fold oldStr. rewrite Hdir.
  destruct (EnumerateDirectory bxl oldStr true) as [result entries].
  cbn [fst snd] in Hnone. destruct Hnone as [-> | ->]; [reflexivity|].
  now destruct result.
Qed.

Lemma rename_of_unlisted_directory_witness :
  HandleRenameGeneric Cases.rename_unlisted "rename" AT_FDCWD "/src/a" AT_FDCWD "/src/b"
                      Scenario.tracer
  = Some (tt, Scenario.tracer).
Proof.
  exact (rename_of_unlisted_directory_reports_nothing
           Cases.rename_unlisted "rename" AT_FDCWD "/src/a" AT_FDCWD "/src/b"
           Scenario.tracer eq_refl (or_introl eq_refl)).
Defined.

(** ** Looking a pid up in the table *)

Lemma find_index_shift (pid : Z) (table : list (Z * string)) :
  forall i, find_index pid table (S i) = option_map S (find_index pid table i).
Proof.
  induction table as [|item table IH]; intros i; cbn; [reflexivity|].
  destruct (fst item =? pid); [reflexivity|apply IH].
Qed.

Lemma exe_of_cons (pid : Z) (item : Z * string) (table : list (Z * string)) :
  exe_of pid (item :: table)
  = if fst item =? pid then Some (snd item) else exe_of pid table.
Proof.
  unfold exe_of. cbn [find_index]. destruct (fst item =? pid); [reflexivity|].
  rewrite find_index_shift. now destruct (find_index pid table 0).
Qed.

Lemma exe_of_none (pid : Z) (table : list (Z * string)) :
  exe_of pid table = None <-> ~ In pid (map fst table).
Proof.
  unfold exe_of. rewrite <- (find_index_none pid table 0).
  destruct (find_index pid table 0); split; intros H; congruence.
Qed.

(** After an append for a pid the table does not hold, the pid is found with
    the path appended; every other pid is found as before. *)
Lemma exe_of_push_back (pid : Z) (exe : string) (table : list (Z * string)) :
  ~ In pid (map fst table) ->
  exe_of pid (table ++ [(pid, exe)]) = Some exe
  /\ forall q, q <> pid -> exe_of q (table ++ [(pid, exe)]) = exe_of q table.
Proof.
  induction table as [|item table IH]; intros Hnew.
  - cbn [app]. split.
    + rewrite exe_of_cons. cbn [fst snd]. now rewrite Z.eqb_refl.
    + intros q Hq. rewrite exe_of_cons. cbn [fst].
      apply Z.eqb_neq in Hq. rewrite Z.eqb_sym in Hq. now rewrite Hq.
  - cbn [map In] in Hnew. destruct IH as [Hpid Hother]; [tauto|].
    cbn [app]. split.
    + rewrite exe_of_cons. destruct (fst item =? pid) eqn:E; [|exact Hpid].
      apply Z.eqb_eq in E. tauto.
    + intros q Hq. rewrite !exe_of_cons. destruct (fst item =? q); [reflexivity|].
      now apply Hother.
Qed.

(** After the assignment to the first entry of a pid, the pid is found with
    the new path; every other pid is found as before. *)
Lemma exe_of_set_exe (pid : Z) (exe : string) (table : list (Z * string)) :
  forall i, find_index pid table 0 = Some i ->
            exe_of pid (set_exe i exe table) = Some exe
            /\ forall q, q <> pid -> exe_of q (set_exe i exe table) = exe_of q table.
Proof.
  induction table as [|item table IH]; intros i Hfind; [discriminate|].
  cbn [find_index] in Hfind. destruct (fst item =? pid) eqn:E.
  - inversion Hfind; subst i. cbn [set_exe]. apply Z.eqb_eq in E. split.
    + rewrite exe_of_cons. cbn [fst snd]. now rewrite E, Z.eqb_refl.
    + intros q Hq. rewrite !exe_of_cons. cbn [fst].
      replace (fst item =? q) with false; [reflexivity|].
      symmetry. apply Z.eqb_neq. congruence.
  - rewrite find_index_shift in Hfind.
    destruct (find_index pid table 0) as [j|] eqn:Ej; [|discriminate].
    inversion Hfind; subst i. cbn [set_exe].
    destruct (IH j eq_refl) as [Hpid Hother]. split.
    + rewrite exe_of_cons. now rewrite E.
    + intros q Hq. rewrite !exe_of_cons. destruct (fst item =? q); [reflexivity|].
      now apply Hother.
Qed.

(** X11: after the table update of an exec, in either of its branches, the
    table gives the pid of the tracee the new executable path and every other
    pid the path it had; the pid handled does not change. *)
Theorem exec_update_then_lookup (exePath : string) (s : PTraceSandbox) :
  exists s',
    UpdateTraceeTableForExec exePath s = Some (tt, s')
    /\ m_traceePid s' = m_traceePid s
    /\ exe_of (m_traceePid s) (m_traceeTable s') = Some exePath
    /\ forall q, q <> m_traceePid s ->
                 exe_of q (m_traceeTable s') = exe_of q (m_traceeTable s).
Proof.
  destruct (find_index (m_traceePid s) (m_traceeTable s) 0) as [i|] eqn:E.
  - rewrite (UpdateTraceeTableForExec_known exePath s i E).
    eexists. split; [reflexivity|]. split; [reflexivity|]. cbn [m_traceeTable].
    now apply exe_of_set_exe.
  - rewrite (UpdateTraceeTableForExec_unknown exePath s E).
    eexists. split; [reflexivity|]. split; [reflexivity|]. cbn [m_traceeTable].
    apply exe_of_push_back. now apply find_index_none in E.
Qed.

(** What [HandleChildProcess] does, in full. *)
Lemma HandleChildProcess_run (bxl : BxlObserver) (tracee : Tracee) (syscall : string)
      (s : PTraceSandbox) :
  let pid := m_traceePid s in
  let exe := inherited_exe bxl pid (m_traceeTable s) in
  let childpid :=
    to_long (to_ulong (peekuser tracee (child_stop tracee s) (GetArgumentAddr 0))) in
  HandleChildProcess bxl tracee syscall s
  = Some (tt, mkSandbox pid (m_traceeTable s ++ [(child_pid tracee s, exe)])
                        (child_stop tracee s)
                        (out s ++ child_rounds tracee s
                         ++ [report_access_event syscall
                               (mkIOEvent pid childpid 0 ES_EVENT_TYPE_NOTIFY_FORK
                                          ES_ACTION_TYPE_NOTIFY exe "" exe 0 false 0)
                               false])).
Proof.
  intros pid exe childpid.
  unfold HandleChildProcess. step.
  unfold exe, childpid, child_pid, child_stop, child_rounds, fork_event_seen,
    inherited_exe, exe_of, argument.
  destruct ((Z.shiftr (wait_status tracee (S (stops s))) 8
             =? Z.lor SIGTRAP (Z.shiftl PTRACE_EVENT_CLONE 8))
            || (Z.shiftr (wait_status tracee (S (stops s))) 8
                =? Z.lor SIGTRAP (Z.shiftl PTRACE_EVENT_FORK 8)));
    repeat step; rewrite table_push_back_run; unfold logged, argument;
    cbn [m_traceePid m_traceeTable stops out]; fold pid;
    destruct (find_index pid (m_traceeTable s) 0);
    rewrite <- ?app_assoc; reflexivity.
Qed.

(** X12: [HandleChildProcess] waits one round, or two when the first wait
    shows the fork or clone event, reports NOTIFY_FORK with the value of the
    return register as child and the executable path the table records for
    the parent (the program path of the observer when the parent has no
    entry), and then appends the entry of the child; when the value read is
    not yet a pid of the table, the table afterwards gives the child that same
    path and leaves every other pid as it was. *)
Theorem fork_child_inherits_exe
        (bxl : BxlObserver) (tracee : Tracee) (syscall : string) (s : PTraceSandbox) :
  ~ In (child_pid tracee s) (map fst (m_traceeTable s)) ->
  let pid := m_traceePid s in
  let exe := inherited_exe bxl pid (m_traceeTable s) in
  let childpid :=
    to_long (to_ulong (peekuser tracee (child_stop tracee s) (GetArgumentAddr 0))) in
  exists s',
    HandleChildProcess bxl tracee syscall s = Some (tt, s')
    /\ out s' = out s ++ child_rounds tracee s
                ++ [report_access_event syscall
                      (mkIOEvent pid childpid 0 ES_EVENT_TYPE_NOTIFY_FORK
                                 ES_ACTION_TYPE_NOTIFY exe "" exe 0 false 0)
                      false]
    /\ exe_of (child_pid tracee s) (m_traceeTable s') = Some exe
    /\ forall q, q <> child_pid tracee s ->
                 exe_of q (m_traceeTable s') = exe_of q (m_traceeTable s).
Proof.
  intros Hfresh pid exe childpid.
  rewrite HandleChildProcess_run. fold pid exe childpid.
  eexists. split; [reflexivity|]. split; [reflexivity|]. cbn [m_traceeTable].
  now apply exe_of_push_back.
Qed.

Lemma fork_child_inherits_exe_witness :
  exists s',
    HandleChildProcess Scenario.nothing_exists Cases.fork_4250 "fork" Scenario.tracer
    = Some (tt, s')
    /\ out s' = [] ++ [PTRACE_SYSCALL 4242 0; waitpid 4242;
                       PTRACE_SYSCALL 4242 0; waitpid 4242]
                ++ [report_access_event "fork"
                      (mkIOEvent 4242 4250 0 ES_EVENT_TYPE_NOTIFY_FORK
                                 ES_ACTION_TYPE_NOTIFY "/usr/bin/make" "" "/usr/bin/make"
                                 0 false 0)
                      false]
    /\ exe_of 4250 (m_traceeTable s') = Some "/usr/bin/make"
    /\ forall q, q <> 4250 ->
                 exe_of q (m_traceeTable s') = exe_of q [(4242, "/usr/bin/make")].
Proof.
  apply (fork_child_inherits_exe Scenario.nothing_exists Cases.fork_4250 "fork"
                                 Scenario.tracer).
  vm_compute. intros [H|[]]. discriminate H.
Defined.

(** ** The classifier and the dispatcher, completed *)

(** X13: among the numbers of 32 bits, the classifier surfaces exactly the
    numbers the dispatcher has a case for, and renameat2. *)
Theorem surfaced_iff_dispatched_or_renameat2 (number : Z) :
  0 <= number < 2 ^ 32 ->
  (surfaced number = true <-> dispatched number = true \/ number = __NR_renameat2).
Proof.
  intros Hrange. split.
  - intros Hs. destruct (Z.eq_dec number __NR_renameat2) as [Heq|Hne]; [now right|].
    left. now apply surfaced_dispatched.
  - intros [Hd | ->]; [now apply dispatched_surfaced|reflexivity].
Qed.

Lemma surfaced_iff_dispatched_witness :
  surfaced __NR_unlinkat = true
  <-> dispatched __NR_unlinkat = true \/ __NR_unlinkat = __NR_renameat2.
Proof.
  apply (surfaced_iff_dispatched_or_renameat2 __NR_unlinkat). vm_compute.
  split; [discriminate|reflexivity].
Defined.

(** X14: the case labels are pairwise distinct numbers, so the number of each
    name listed reaches the handler of that very name. *)
Theorem each_case_runs_its_handler
        (bxl : BxlObserver) (tracee : Tracee) (fuel : nat) (basename : string -> string)
        (syscallName : Sys.name) :
  In syscallName CHECK_AND_CALL_HANDLER ->
  NoDup (map Sys.SYSCALL_NAME_TO_NUMBER CHECK_AND_CALL_HANDLER)
  /\ HandleSysCallGeneric bxl tracee fuel basename (Sys.SYSCALL_NAME_TO_NUMBER syscallName)
     = MAKE_HANDLER_FN_NAME bxl tracee fuel basename syscallName.
Proof.
  intros Hin. split.
  - apply (NoDup_count_occ' Z.eq_dec). intros x Hx. vm_compute in Hx.
    repeat (destruct Hx as [<-|Hx]; [vm_compute; reflexivity|]). contradiction.
  - unfold HandleSysCallGeneric.
    replace (switch (Sys.SYSCALL_NAME_TO_NUMBER syscallName) CHECK_AND_CALL_HANDLER)
      with (Some syscallName); [reflexivity|].
    destruct syscallName; try (vm_compute; reflexivity).
    exfalso. vm_compute in Hin. intuition discriminate.
Qed.

Lemma each_case_runs_its_handler_witness :
  NoDup (map Sys.SYSCALL_NAME_TO_NUMBER CHECK_AND_CALL_HANDLER)
  /\ HandleSysCallGeneric Scenario.nothing_exists Scenario.zero_memory 8 Scenario.basename
                          (Sys.SYSCALL_NAME_TO_NUMBER Sys.newfstatat)
     = MAKE_HANDLER_FN_NAME Scenario.nothing_exists Scenario.zero_memory 8 Scenario.basename
                            Sys.newfstatat.
Proof.
  apply (each_case_runs_its_handler Scenario.nothing_exists Scenario.zero_memory 8
                                    Scenario.basename Sys.newfstatat).
  vm_compute. tauto.
Defined.

(** ** The event loop *)

(** The tests of the loop on the status of every stop, by enumeration of the
    two bytes above the low byte. *)
Lemma stop_tests_all (sig event : Z) :
  0 <= sig < 256 -> 0 <= event < 256 -> stop_tests sig event = true.
Proof.
  assert (forallb (fun g => forallb (stop_tests g) bytes) bytes = true) as Hall
    by (vm_compute; reflexivity).
  assert (forall z, 0 <= z < 256 -> In z bytes) as Hin.
  { intros z Hz. unfold bytes. apply in_map_iff. exists (Z.to_nat z).
    split; [lia|]. apply in_seq. lia. }
  intros Hsig Hevent. rewrite forallb_forall in Hall.
  specialize (Hall sig (Hin sig Hsig)). rewrite forallb_forall in Hall.
  exact (Hall event (Hin event Hevent)).
Qed.

Lemma stop_tests_inv (sig event : Z) :
  stop_tests sig event = true ->
  let status := status_of_stop sig event in
  WIFEXITED status || WIFSIGNALED status = false
  /\ WIFSTOPPED status = true
  /\ WSTOPSIG status = sig
  /\ (Z.shiftr status 8 =? Z.lor SIGTRAP (Z.shiftl PTRACE_EVENT_VFORK 8))
     = (sig =? SIGTRAP) && (event =? PTRACE_EVENT_VFORK)
  /\ (Z.shiftr status 8 =? Z.lor SIGTRAP (Z.shiftl PTRACE_EVENT_EXIT 8))
     = (sig =? SIGTRAP) && (event =? PTRACE_EVENT_EXIT)
  /\ (Z.shiftr status 8 =? Z.lor SIGTRAP (Z.shiftl PTRACE_EVENT_SECCOMP 8))
     = (sig =? SIGTRAP) && (event =? PTRACE_EVENT_SECCOMP).
Proof.
  intros H. unfold stop_tests in H. cbv zeta in H |- *.
  repeat (apply andb_prop in H; destruct H as [H ?]).
  apply negb_true_iff in H.
  split; [exact H|]. split; [assumption|]. split; [now apply Z.eqb_eq|].
  split; [now apply Bool.eqb_prop|]. split; now apply Bool.eqb_prop.
Qed.

Lemma exe_of_filter (pid q : Z) (table : list (Z * string)) :
  q <> pid ->
  exe_of q (filter (fun item => negb (fst item =? pid)) table) = exe_of q table.
Proof.
  intros Hq. induction table as [|item table IH]; [reflexivity|].
  cbn [filter]. destruct (fst item =? pid) eqn:E; cbn [negb].
  - rewrite exe_of_cons. apply Z.eqb_eq in E.
    replace (fst item =? q) with false; [exact IH|].
    symmetry. apply Z.eqb_neq. congruence.
  - rewrite !exe_of_cons. now rewrite IH.
Qed.

(** The head of an iteration on a stop: the pid is stored, and the tests on
    the status leave the three event branches and the two resuming
    branches. *)
Ltac classify_stop sig event Hsig Hevent Hwaited :=
  destruct (stop_tests_inv sig event (stop_tests_all sig event Hsig Hevent))
    as [Hdead [Hstopped [Hsignal [Hvfork [Hexit Hseccomp]]]]];
  unfold loop_iteration, bind, set_pid, reset_stops;
  cbn [m_traceePid m_traceeTable stops out];
  apply Z.eqb_neq in Hwaited; rewrite Hwaited, Hdead, Hstopped, Hvfork, Hexit, Hseccomp,
    Hsignal;
  cbn [negb andb].

(** X15: a stop that is none of the vfork, exit and seccomp event stops leaves
    the table as it is and reports nothing; the tracee is resumed with
    PTRACE_SYSCALL, carrying the signal of the stop when bit 7 of the signal
    is clear (a signal-delivery stop, but also the stops of the other ptrace
    events, whose signal is SIGTRAP) and no signal when it is set (a syscall
    stop). *)
Theorem plain_stop_is_resumed
        (bxl : BxlObserver) (tracee : Tracee) (fuel : nat) (basename : string -> string)
        (waited sig event : Z) (echild : bool) (s : PTraceSandbox) :
  waited <> -1 ->
  0 <= sig < 256 ->
  0 <= event < 256 ->
  event_branch sig event = false ->
  loop_iteration bxl tracee fuel basename waited (status_of_stop sig event) echild s
  = Some (loop_continue,
          mkSandbox waited (m_traceeTable s) O
            (out s ++ [PTRACE_SYSCALL waited (if Z.land sig 128 =? 0 then sig else 0)])).
Proof.
  intros Hwaited Hsig Hevent Hbranch.
  classify_stop sig event Hsig Hevent Hwaited.
  unfold event_branch in Hbranch.
  destruct (sig =? SIGTRAP); cbn [andb] in Hbranch |- *.
  - apply orb_false_elim in Hbranch. destruct Hbranch as [Hbranch ->].
    apply orb_false_elim in Hbranch. destruct Hbranch as [-> ->].
    unfold c_true. rewrite negb_involutive. now destruct (Z.land sig 128 =? 0).
  - unfold c_true. rewrite negb_involutive. now destruct (Z.land sig 128 =? 0).
Qed.

Lemma plain_stop_is_resumed_witness :
  loop_iteration Scenario.nothing_exists Scenario.zero_memory 8 Scenario.basename
                 4243 (status_of_stop 17 0) false Cases.two_tracees
  = Some (loop_continue,
          mkSandbox 4243 (m_traceeTable Cases.two_tracees) O
            (out Cases.two_tracees
             ++ [PTRACE_SYSCALL 4243 (if Z.land 17 128 =? 0 then 17 else 0)])).
Proof.
  apply (plain_stop_is_resumed Scenario.nothing_exists Scenario.zero_memory 8
                               Scenario.basename 4243 17 0 false Cases.two_tracees).
  - discriminate.
  - lia.
  - lia.
  - reflexivity.
Defined.

(** X16: at the exit stop of a pid the loop asks for the event message,
    removes every entry of the pid from the table, keeping the other entries
    as they are, reports the exit and resumes the tracee: afterwards the
    table holds no entry of the pid. *)
Theorem exit_stop_removes_the_pid
        (bxl : BxlObserver) (tracee : Tracee) (fuel : nat) (basename : string -> string)
        (waited : Z) (echild : bool) (s : PTraceSandbox) :
  waited <> -1 ->
  let table' := filter (fun item => negb (fst item =? waited)) (m_traceeTable s) in
  loop_iteration bxl tracee fuel basename waited
                 (status_of_stop SIGTRAP PTRACE_EVENT_EXIT) echild s
  = Some (loop_continue,
          mkSandbox waited table' O
            (out s ++ [PTRACE_GETEVENTMSG waited; SendExitReport waited;
                       PTRACE_SYSCALL waited 0]))
  /\ ~ In waited (map fst table')
  /\ forall q, q <> waited -> exe_of q table' = exe_of q (m_traceeTable s).
Proof.
  intros Hwaited table'. split; [|split].
  - assert (0 <= SIGTRAP < 256) as Hsig by (vm_compute; split; [discriminate|reflexivity]).
    assert (0 <= PTRACE_EVENT_EXIT < 256) as Hevent
        by (vm_compute; split; [discriminate|reflexivity]).
    classify_stop SIGTRAP PTRACE_EVENT_EXIT Hsig Hevent Hwaited.
    unfold RemoveFromTraceeTable, Handleexit, bind, gets, set_table, emit.
    cbn. fold table'. now rewrite <- !app_assoc.
  - intros H. apply in_map_iff in H. destruct H as [item [Hpid Hin]].
    apply filter_In in Hin. destruct Hin as [_ Hkeep].
    rewrite Hpid, Z.eqb_refl in Hkeep. discriminate.
  - intros q Hq. now apply exe_of_filter.
Qed.

Lemma exit_stop_removes_the_pid_witness :
  loop_iteration Scenario.nothing_exists Scenario.zero_memory 8 Scenario.basename 4243
                 (status_of_stop SIGTRAP PTRACE_EVENT_EXIT) false Cases.two_tracees
  = Some (loop_continue,
          mkSandbox 4243
            (filter (fun item => negb (fst item =? 4243)) (m_traceeTable Cases.two_tracees))
            O
            (out Cases.two_tracees
             ++ [PTRACE_GETEVENTMSG 4243; SendExitReport 4243; PTRACE_SYSCALL 4243 0]))
  /\ ~ In 4243 (map fst (filter (fun item => negb (fst item =? 4243))
                                (m_traceeTable Cases.two_tracees)))
  /\ forall q, q <> 4243 ->
                exe_of q (filter (fun item => negb (fst item =? 4243))
                                 (m_traceeTable Cases.two_tracees))
                = exe_of q (m_traceeTable Cases.two_tracees).
Proof.
  apply (exit_stop_removes_the_pid Scenario.nothing_exists Scenario.zero_memory 8
                                   Scenario.basename 4243 false Cases.two_tracees).
  discriminate.
Defined.

(** X17: a status that reports the end of a process (exited or killed by a
    signal) changes nothing: the loop goes on without a request and without a
    report, and an entry of the pid stays in the table; entries are removed at
    exit stops only. *)
Theorem ended_process_keeps_its_entry
        (bxl : BxlObserver) (tracee : Tracee) (fuel : nat) (basename : string -> string)
        (waited status : Z) (echild : bool) (s : PTraceSandbox) :
  waited <> -1 ->
  WIFEXITED status || WIFSIGNALED status = true ->
  loop_iteration bxl tracee fuel basename waited status echild s
  = Some (loop_continue, mkSandbox waited (m_traceeTable s) O (out s)).
Proof.
  intros Hwaited Hended. unfold loop_iteration, bind, set_pid, reset_stops.
  cbn [m_traceePid m_traceeTable stops out].
  apply Z.eqb_neq in Hwaited. now rewrite Hwaited, Hended.
Qed.

Lemma ended_process_keeps_its_entry_witness :
  loop_iteration Scenario.nothing_exists Scenario.zero_memory 8 Scenario.basename
                 4243 9 false Cases.two_tracees
  = Some (loop_continue,
          mkSandbox 4243 (m_traceeTable Cases.two_tracees) O (out Cases.two_tracees)).
Proof.
  apply (ended_process_keeps_its_entry Scenario.nothing_exists Scenario.zero_memory 8
                                       Scenario.basename 4243 9 false Cases.two_tracees).
  - discriminate.
  - reflexivity.
Defined.

(** ** What the handlers leave as it is *)

Lemma table_kept_refl (keep : bool) (table : list (Z * string)) :
  table_kept keep table table.
Proof. now destruct keep. Qed.

Lemma table_kept_trans (keep : bool) (t1 t2 t3 : list (Z * string)) :
  table_kept keep t1 t2 -> table_kept keep t2 t3 -> table_kept keep t1 t3.
Proof. destruct keep; cbn; [congruence|trivial]. Qed.

Lemma frame_ret (keep : bool) {A : Type} (a : A) : frame keep (ret a).
Proof.
  intros s a' s' H. inversion H; subst. split; [reflexivity|].
  split; [apply table_kept_refl|]. exists []. now rewrite app_nil_r.
Qed.

Lemma frame_gets (keep : bool) {A : Type} (f : PTraceSandbox -> A) : frame keep (gets f).
Proof.
  intros s a' s' H. inversion H; subst. split; [reflexivity|].
  split; [apply table_kept_refl|]. exists []. now rewrite app_nil_r.
Qed.

Lemma frame_lift (keep : bool) {A : Type} (o : option A) : frame keep (lift o).
Proof.
  intros s a' s' H. unfold lift in H. destruct o; inversion H; subst.
  split; [reflexivity|]. split; [apply table_kept_refl|]. exists []. now rewrite app_nil_r.
Qed.

Lemma frame_emit (keep : bool) (a : Action) : frame keep (emit a).
Proof.
  intros s a' s' H. inversion H; subst. cbn. split; [reflexivity|].
  split; [apply table_kept_refl|]. now exists [a].
Qed.

Lemma frame_next_stop (keep : bool) : frame keep next_stop.
Proof.
  intros s a' s' H. inversion H; subst. cbn. split; [reflexivity|].
  split; [apply table_kept_refl|]. exists []. now rewrite app_nil_r.
Qed.

Lemma frame_set_table (table : list (Z * string)) : frame false (set_table table).
Proof.
  intros s a' s' H. inversion H; subst. cbn. split; [reflexivity|].
  split; [exact I|]. exists []. now rewrite app_nil_r.
Qed.

Lemma frame_bind (keep : bool) {A B : Type} (m : M A) (k : A -> M B) :
  frame keep m -> (forall a, frame keep (k a)) -> frame keep (bind m k).
Proof.
  intros Hm Hk s b s' H. unfold bind in H.
  destruct (m s) as [[a s1]|] eqn:E; [|discriminate].
  destruct (Hm s a s1 E) as [Hpid [Htable [l1 Hout]]].
  destruct (Hk a s1 b s' H) as [Hpid' [Htable' [l2 Hout']]].
  split; [congruence|]. split; [exact (table_kept_trans _ _ _ _ Htable Htable')|].
  exists (l1 ++ l2). now rewrite Hout', Hout, app_assoc.
Qed.

Lemma frame_for_each (keep : bool) {A : Type} (l : list A) (body : A -> M unit) :
  (forall x, frame keep (body x)) -> frame keep (for_each l body).
Proof.
  intros Hbody. induction l as [|x l IH]; cbn [for_each]; [apply frame_ret|].
  apply frame_bind; [apply Hbody|intros _; exact IH].
Qed.

Lemma frame_weaken {A : Type} (m : M A) : frame true m -> frame false m.
Proof.
  intros Hm s a s' H. destruct (Hm s a s' H) as [Hpid [_ Hout]]. now repeat split.
Qed.

Create HintDb handlers.
#[local] Hint Unfold
  ReadArgumentLong ReadArgumentString ReadArgumentVector resume_and_wait GetErrno
  ReportOpen ReportCreate HandleReportAccessFd HandleRenameGeneric FindProcess
  Handleexecveat Handleexecve Handlestat Handlelstat Handlefstat Handlenewfstatat
  Handleaccess Handlefaccessat Handlecreat Handleopen Handleopenat Handlewrite
  Handlewritev Handlepwritev Handlepwritev2 Handlepwrite64 Handletruncate
  Handleftruncate Handlermdir Handlerename Handlerenameat Handlerenameat2 Handlelink
  Handlelinkat Handleunlink Handleunlinkat Handlesymlink Handlesymlinkat Handlereadlink
  Handlereadlinkat Handleutime Handleutimes Handleutimensat Handlefutimesat Handlemkdir
  Handlemkdirat Handlemknod Handlemknodat Handlechmod Handlefchmod Handlefchmodat
  Handlechown Handlefchown Handlelchown Handlefchownat Handlesendfile
  Handlecopy_file_range Handlename_to_handle_at Handlefork Handleclone
  HandleChildProcess UpdateTraceeTableForExec table_push_back : handlers.

(** A member function built from reads, reports and the waits for the
    tracee. *)
Ltac frame_step :=
  first
    [ apply frame_ret | apply frame_gets | apply frame_lift | apply frame_emit
    | apply frame_next_stop | apply frame_set_table
    | apply frame_bind; [|intro]
    | apply frame_for_each; intro
    | match goal with
      | |- frame _ (if ?c then _ else _) => destruct c
      | |- frame _ (match ?p with (_, _) => _ end) => destruct p
      | |- frame _ (match ?o with Some _ => _ | None => _ end) => destruct o
      end ].

Ltac frame_all := autounfold with handlers; cbv zeta; repeat frame_step.

Lemma handlers_keep_table
      (bxl : BxlObserver) (tracee : Tracee) (fuel : nat) (basename : string -> string)
      (syscallName : Sys.name) :
  ~ In syscallName table_handlers ->
  frame true (MAKE_HANDLER_FN_NAME bxl tracee fuel basename syscallName).
Proof.
  intros Hother.
  destruct syscallName; cbn [MAKE_HANDLER_FN_NAME];
    try (exfalso; apply Hother; cbn; tauto); frame_all.
Qed.

Lemma handlers_keep_pid
      (bxl : BxlObserver) (tracee : Tracee) (fuel : nat) (basename : string -> string)
      (syscallName : Sys.name) :
  frame false (MAKE_HANDLER_FN_NAME bxl tracee fuel basename syscallName).
Proof.
  destruct syscallName;
    try (apply frame_weaken; apply handlers_keep_table; cbn; intuition discriminate);
    cbn [MAKE_HANDLER_FN_NAME]; frame_all.
Qed.

Lemma HandleSysCallGeneric_frame
      (bxl : BxlObserver) (tracee : Tracee) (fuel : nat) (basename : string -> string)
      (syscallNumber : Z) :
  frame false (HandleSysCallGeneric bxl tracee fuel basename syscallNumber).
Proof.
  unfold HandleSysCallGeneric.
  destruct (switch syscallNumber CHECK_AND_CALL_HANDLER);
    [apply handlers_keep_pid|apply frame_emit].
Qed.

(** X18: a handler other than those of execve, execveat, fork and clone, when
    it returns, has left the process table and the pid being handled as they
    were and has only appended to the output. *)
Theorem other_handlers_leave_the_table
        (bxl : BxlObserver) (tracee : Tracee) (fuel : nat) (basename : string -> string)
        (syscallName : Sys.name) (s s' : PTraceSandbox) :
  ~ In syscallName table_handlers ->
  MAKE_HANDLER_FN_NAME bxl tracee fuel basename syscallName s = Some (tt, s') ->
  m_traceePid s' = m_traceePid s
  /\ m_traceeTable s' = m_traceeTable s
  /\ exists l, out s' = out s ++ l.
Proof.
  intros Hother Hrun.
  exact (handlers_keep_table bxl tracee fuel basename syscallName Hother s tt s' Hrun).
Qed.

Lemma other_handlers_leave_the_table_witness :
  m_traceePid (logged Cases.two_tracees
                 [report_access "stat" ES_EVENT_TYPE_NOTIFY_STAT "/etc/passwd" 0
                                O_NOFOLLOW 0 true 4242])
  = m_traceePid Cases.two_tracees
  /\ m_traceeTable (logged Cases.two_tracees
                      [report_access "stat" ES_EVENT_TYPE_NOTIFY_STAT "/etc/passwd" 0
                                     O_NOFOLLOW 0 true 4242])
     = m_traceeTable Cases.two_tracees
  /\ exists l,
       out (logged Cases.two_tracees
              [report_access "stat" ES_EVENT_TYPE_NOTIFY_STAT "/etc/passwd" 0
                             O_NOFOLLOW 0 true 4242])
       = out Cases.two_tracees ++ l.
Proof.
  apply (other_handlers_leave_the_table
           Scenario.nothing_exists Cases.stat_passwd 8 Scenario.basename Sys.stat
           Cases.two_tracees).
  - cbn. intuition discriminate.
  - reflexivity.
Defined.

(** X19: at a seccomp stop the loop reads the syscall number from the
    ORIG_RAX slot of the tracee stopped, truncates it to an [int] and runs
    [HandleSysCallGeneric] on it with the waited pid as the pid handled; when
    the handler returns, the iteration ends in the handler's state with
    PTRACE_CONT of the waited pid as the one request added after everything
    the handler reported, and the loop goes on: the stop at the exit of the
    syscall is not asked for.  Whatever the syscall, the handler has left the
    waited pid as the pid handled and has only appended to the output. *)
Theorem seccomp_stop_is_continued
        (bxl : BxlObserver) (tracee : Tracee) (fuel : nat) (basename : string -> string)
        (waited : Z) (echild : bool) (s s1 : PTraceSandbox) :
  waited <> -1 ->
  HandleSysCallGeneric bxl tracee fuel basename
                       (to_int (peekuser tracee O (sizeof_long * ORIG_RAX)))
                       (mkSandbox waited (m_traceeTable s) O (out s))
  = Some (tt, s1) ->
  loop_iteration bxl tracee fuel basename waited
                 (status_of_stop SIGTRAP PTRACE_EVENT_SECCOMP) echild s
  = Some (loop_continue, logged s1 [PTRACE_CONT waited])
  /\ m_traceePid s1 = waited
  /\ exists l, out s1 = out s ++ l.
Proof.
  intros Hwaited Hrun.
  assert (0 <= SIGTRAP < 256) as Hsig by (vm_compute; split; [discriminate|reflexivity]).
  assert (0 <= PTRACE_EVENT_SECCOMP < 256) as Hevent
      by (vm_compute; split; [discriminate|reflexivity]).
  destruct (HandleSysCallGeneric_frame _ _ _ _ _ _ _ _ Hrun) as [Hpid [_ [l Hout]]].
  cbn [m_traceePid out] in Hpid, Hout.
  split; [|split; [exact Hpid|exists l; exact Hout]].
  pose proof Hwaited as Hw.
  classify_stop SIGTRAP PTRACE_EVENT_SECCOMP Hsig Hevent Hw.
  change (SIGTRAP =? SIGTRAP) with true.
  change (PTRACE_EVENT_SECCOMP =? PTRACE_EVENT_SECCOMP) with true.
  change (PTRACE_EVENT_SECCOMP =? PTRACE_EVENT_VFORK) with false.
  change (PTRACE_EVENT_SECCOMP =? PTRACE_EVENT_EXIT) with false.
  cbn [andb].
  rewrite Hrun. reflexivity.
Qed.

Lemma seccomp_stop_is_continued_witness :
  loop_iteration Scenario.nothing_exists Cases.stat_passwd 8 Scenario.basename 4243
                 (status_of_stop SIGTRAP PTRACE_EVENT_SECCOMP) false Cases.two_tracees
  = Some (loop_continue,
          logged (mkSandbox 4243 (m_traceeTable Cases.two_tracees) O
                    [report_access "stat" ES_EVENT_TYPE_NOTIFY_STAT "/etc/passwd" 0
                                   O_NOFOLLOW 0 true 4243])
                 [PTRACE_CONT 4243])
  /\ m_traceePid (mkSandbox 4243 (m_traceeTable Cases.two_tracees) O
                    [report_access "stat" ES_EVENT_TYPE_NOTIFY_STAT "/etc/passwd" 0
                                   O_NOFOLLOW 0 true 4243])
     = 4243
  /\ exists l,
       out (mkSandbox 4243 (m_traceeTable Cases.two_tracees) O
              [report_access "stat" ES_EVENT_TYPE_NOTIFY_STAT "/etc/passwd" 0
                             O_NOFOLLOW 0 true 4243])
       = out Cases.two_tracees ++ l.
Proof.
  apply (seccomp_stop_is_continued
           Scenario.nothing_exists Cases.stat_passwd 8 Scenario.basename 4243 false
           Cases.two_tracees).
  - discriminate.
  - reflexivity.
Defined.

(** ** The bound on the length of a read *)

Lemma read_word_bound (n : nat) :
  forall (i : nat) (word : Z) (nullTerminated : bool) (length : Z)
         (argument : string) (count : Z),
    0 < length < 2 ^ 31 ->
    Z.of_nat (String.length argument) = count ->
    count <= length ->
    Z.of_nat (String.length
                (fst (fst (read_word n i word nullTerminated length argument count))))
    = snd (fst (read_word n i word nullTerminated length argument count))
    /\ snd (fst (read_word n i word nullTerminated length argument count)) <= length.
Proof.
  induction n as [|n IH]; intros i word nullTerminated length argument count Hlen Hcount Hle.
  - cbn. split; assumption.
  - cbn [read_word].
    destruct (nullTerminated && Ascii.eqb (byte_of_word word i) zero); cbn [orb].
    + cbn. split; assumption.
    + destruct (0 <? length) eqn:Hpos; [|apply Z.ltb_ge in Hpos; lia].
      cbn [andb].
      destruct (count =? length) eqn:Hfull.
      * cbn. split; assumption.
      * apply Z.eqb_neq in Hfull.
        assert (to_int (count + 1) = count + 1) as Hwrap.
        { unfold to_int. rewrite Z.mod_small; lia. }
        rewrite Hwrap. apply IH; [assumption| |lia].
        unfold push_back. rewrite string_length_app. cbn [String.length]. lia.
Qed.

Lemma read_loop_bound (tracee : Tracee) (steps : nat) :
  forall (addr : Z) (nullTerminated : bool) (length : Z) (argument : string) (count : Z)
         (r : string),
    0 < length < 2 ^ 31 ->
    Z.of_nat (String.length argument) = count ->
    count <= length ->
    ReadArgumentStringAtAddr_loop tracee steps addr nullTerminated length argument count
    = Some r ->
    Z.of_nat (String.length r) <= length.
Proof.
  induction steps as [|steps IH];
    intros addr nullTerminated length argument count r Hlen Hcount Hle;
    cbn [ReadArgumentStringAtAddr_loop]; [discriminate|].
  destruct (peektext tracee addr =? -1).
  - intros H. injection H as <-. lia.
  - pose proof (read_word_bound 8 0 (peektext tracee addr) nullTerminated length
                                argument count Hlen Hcount Hle) as [Hcount' Hle'].
    destruct (read_word 8 0 (peektext tracee addr) nullTerminated length argument count)
      as [[argument' count'] finished].
    cbn [fst snd] in Hcount', Hle'.
    destruct finished.
    + intros H. injection H as <-. lia.
    + apply IH; assumption.
Qed.

(** X20: a read with a positive length never returns more than that many
    characters, whether or not it also stops at a NUL and wherever the reads
    of the tracee's memory fail. *)
Theorem read_with_length_is_bounded
        (tracee : Tracee) (fuel : nat) (syscall : string) (addr : Z)
        (nullTerminated : bool) (length : Z) (r : string) :
  0 < length < 2 ^ 31 ->
  ReadArgumentStringAtAddr tracee fuel syscall addr nullTerminated length = Some r ->
  Z.of_nat (String.length r) <= length.
Proof.
  intros Hlen. unfold ReadArgumentStringAtAddr.
  apply read_loop_bound; [assumption|reflexivity|lia].
Qed.

Lemma read_with_length_is_bounded_witness :
  Z.of_nat (String.length "/bin") <= 4.
Proof.
  apply (read_with_length_is_bounded Scenario.execve_ls 8 "execve" 4096 false 4 "/bin").
  - lia.
  - reflexivity.
Defined.

(** ** The tracee's side: [ExecuteWithPTraceSandbox] *)

(** X21: the function either exits with -1 without having called
    real_execvpe, or it has made its eight calls in order - the semaphore
    opened, the clock read, the wait of 15 seconds, the semaphore closed and
    unlinked, no_new_privs set, the filter installed, the exec - and returns
    what real_execvpe returned. *)
Theorem exec_only_after_the_whole_sequence (p : Bootstrap.Process) (file : string) :
  (snd (Bootstrap.ExecuteWithPTraceSandbox p file) = Bootstrap.exited (-1)
   /\ forall f, ~ In (Bootstrap.real_execvpe f)
                    (fst (Bootstrap.ExecuteWithPTraceSandbox p file)))
  \/ (snd (Bootstrap.ExecuteWithPTraceSandbox p file)
      = Bootstrap.returned (Bootstrap.execvpe_result p)
      /\ fst (Bootstrap.ExecuteWithPTraceSandbox p file)
         = [Bootstrap.sem_open ("/" ++ Bootstrap.to_string (Bootstrap.getpid p)) 0;
            Bootstrap.clock_gettime;
            Bootstrap.sem_timedwait (Bootstrap.tv_sec p + 15);
            Bootstrap.sem_close;
            Bootstrap.sem_unlink ("/" ++ Bootstrap.to_string (Bootstrap.getpid p));
            Bootstrap.prctl_PR_SET_NO_NEW_PRIVS;
            Bootstrap.prctl_PR_SET_SECCOMP Seccomp.filter;
            Bootstrap.real_execvpe file]).
Proof.
  unfold Bootstrap.ExecuteWithPTraceSandbox.
  destruct (Bootstrap.sem_open_result p);
    [left; split; [reflexivity|intros f [H|[]]; discriminate]..|].
  destruct (Bootstrap.clock_gettime_result p =? -1);
    [left; split; [reflexivity|cbn; intros f H; intuition discriminate]|].
  destruct (Bootstrap.sem_timedwait_result p =? -1);
    [left; split; [reflexivity|cbn; intros f H; intuition discriminate]|].
  destruct (Bootstrap.prctl_no_new_privs_result p =? -1);
    [left; split; [reflexivity|cbn; intros f H; intuition discriminate]|].
  destruct (Bootstrap.prctl_seccomp_result p =? -1);
    [left; split; [reflexivity|cbn; intros f H; intuition discriminate]|].
  right. split; reflexivity.
Qed.

(** X22: the semaphore is closed and unlinked exactly when it was opened and
    the clock could be read: whatever the wait returned, but not when
    clock_gettime fails, where the function exits with the semaphore still
    open and its name still there. *)
Theorem semaphore_released_iff_waited_on (p : Bootstrap.Process) (file : string) :
  (In Bootstrap.sem_close (fst (Bootstrap.ExecuteWithPTraceSandbox p file))
   <-> Bootstrap.sem_open_result p = Bootstrap.sem_valid
       /\ Bootstrap.clock_gettime_result p <> -1)
  /\ (forall name,
        In (Bootstrap.sem_unlink name) (fst (Bootstrap.ExecuteWithPTraceSandbox p file))
        <-> name = ("/" ++ Bootstrap.to_string (Bootstrap.getpid p))%string
            /\ Bootstrap.sem_open_result p = Bootstrap.sem_valid
            /\ Bootstrap.clock_gettime_result p <> -1).
Proof.
  unfold Bootstrap.ExecuteWithPTraceSandbox.
  destruct (Bootstrap.sem_open_result p).
  1,2: split; [|intros name]; (split; [intros [H|[]]; discriminate|]);
    intros H; decompose [and] H; discriminate.
  destruct (Bootstrap.clock_gettime_result p =? -1) eqn:Hclock.
  - apply Z.eqb_eq in Hclock.
    split; [|intros name]; (split; [cbn; intros H; intuition discriminate|]);
      intros H; decompose [and] H; contradiction.
  - apply Z.eqb_neq in Hclock.
    destruct (Bootstrap.sem_timedwait_result p =? -1);
      [|destruct (Bootstrap.prctl_no_new_privs_result p =? -1);
        [|destruct (Bootstrap.prctl_seccomp_result p =? -1)]];
      (split; [|intros name]);
      (split;
       [cbn; intros H; repeat split; try assumption;
        repeat (destruct H as [H|H]; try discriminate; try contradiction);
        now injection H as <-
       |intros H; decompose [and] H; subst; cbn; tauto]).
Qed.
